(** * meowpowminer: pool manager, work packages and the CUDA search entry

    A shallow embedding of
      - [WorkPackage] and [Solution]              (Miner.h),
      - [PoolManager]                             (libpoolprotocols/PoolManager.{h,cpp}),
      - [CUDAMiner::search] and its call site     (libethash-cuda/CUDAMiner.cpp),
      - [ethash::kEpoch_length]                   (libcrypto/ethash.hpp),
    followed by the properties established about them. *)

From Stdlib Require Import ZArith Lia Bool Ascii String.
From Stdlib Require Import Strings.Byte.
From stdpp Require Import base list strings pretty.

Local Open Scope Z_scope.

(* ===================================================================== *)
(** ** Machine integers *)

Module UInt.

Definition wrap32 (z : Z) : Z := z mod 2 ^ 32.
Definition wrap64 (z : Z) : Z := z mod 2 ^ 64.

Definition UINT64_MAX : Z := 2 ^ 64 - 1.

(** [std::atomic<unsigned>::fetch_add(1)] and [unsigned x; x++]. *)
Definition incr32 (z : Z) : Z := wrap32 (z + 1).

(** [unsigned x; x--]. *)
Definition decr32 (z : Z) : Z := wrap32 (z - 1).

(** [(int)x] for an [unsigned x]. *)
Definition to_int (z : Z) : Z := if z <? 2 ^ 31 then z else z - 2 ^ 32.

End UInt.

(* ===================================================================== *)
(** ** Constants of the hash function (libcrypto/ethash.hpp) *)

Module Ethash.

Definition kEpoch_length : Z := 7500.

End Ethash.

(* ===================================================================== *)
(** ** 256-bit hashes *)

Module FixedHash.

(** Modelled from the spec: [h256] is [dev::FixedHash<32>] of libdevcore,
    whose header is not among the sources.  The spec calls these fields
    256-bit values compared numerically; libdevcore stores them as 32 bytes,
    most significant first, and orders them bytewise from index 0. *)
Definition h256 : Type := list byte.

Definition size : nat := 32.

Definition wf (h : h256) : Prop := length h = size.

(** [h256()] / [h256{}]: the all-zero hash. *)
Definition zero : h256 := replicate size x00.

Definition byte_val (b : byte) : Z := Z.of_N (Byte.to_N b).

(** [operator==]. *)
Fixpoint eqb (a b : h256) : bool :=
  match a, b with
  | [], [] => true
  | x :: a', y :: b' => Byte.eqb x y && eqb a' b'
  | _, _ => false
  end.

(** [operator<]: scan from index 0, the first differing byte decides. *)
Fixpoint ltb (a b : h256) : bool :=
  match a, b with
  | x :: a', y :: b' =>
      if byte_val x <? byte_val y then true
      else if byte_val y <? byte_val x then false
      else ltb a' b'
  | _, _ => false
  end.

(** [(u256)h]: the bytes read as a big-endian unsigned integer. *)
Definition fromBigEndian (h : h256) : Z :=
  fold_left (fun acc b => acc * 256 + byte_val b) h 0.

End FixedHash.

(* ===================================================================== *)
(** ** Work packages and solutions (Miner.h) *)

Module Work.
Import FixedHash.

Record WorkPackage : Type := mkWorkPackage {
  job : string;
  boundary : h256;
  header : h256;
  seed : h256;
  block_boundary : h256;
  epoch : option Z;          (* std::optional<uint32_t> *)
  block : option Z;          (* std::optional<uint32_t> *)
  startNonce : Z;            (* uint64_t *)
  exSizeBytes : Z;           (* uint16_t *)
  algo : string
}.

(** [WorkPackage() = default]. *)
Definition default : WorkPackage :=
  {| job := ""; boundary := zero; header := zero; seed := zero;
     block_boundary := zero; epoch := None; block := None;
     startNonce := 0; exSizeBytes := 0; algo := "meowpow" |}.

(** [explicit operator bool() const { return header != h256(); }] *)
Definition present (w : WorkPackage) : bool := negb (eqb (header w) zero).

Definition get_boundary (w : WorkPackage) : h256 :=
  if eqb (block_boundary w) zero then boundary w
  else if ltb (boundary w) (block_boundary w) then block_boundary w
  else boundary w.

Definition set_header (h : h256) (w : WorkPackage) : WorkPackage :=
  {| job := job w; boundary := boundary w; header := h; seed := seed w;
     block_boundary := block_boundary w; epoch := epoch w; block := block w;
     startNonce := startNonce w; exSizeBytes := exSizeBytes w; algo := algo w |}.

Definition set_job (j : string) (w : WorkPackage) : WorkPackage :=
  {| job := j; boundary := boundary w; header := header w; seed := seed w;
     block_boundary := block_boundary w; epoch := epoch w; block := block w;
     startNonce := startNonce w; exSizeBytes := exSizeBytes w; algo := algo w |}.

(** [opt.has_value()]. *)
Definition has_value {A} (o : option A) : bool :=
  match o with Some _ => true | None => false end.

Definition set_epoch (e : option Z) (w : WorkPackage) : WorkPackage :=
  {| job := job w; boundary := boundary w; header := header w; seed := seed w;
     block_boundary := block_boundary w; epoch := e; block := block w;
     startNonce := startNonce w; exSizeBytes := exSizeBytes w; algo := algo w |}.

Record Solution : Type := mkSolution {
  nonce : Z;                 (* uint64_t *)
  mixHash : h256;
  work : WorkPackage;
  tstamp : Z;                (* steady_clock::time_point, as a tick count *)
  midx : Z                   (* unsigned *)
}.

End Work.

(* ===================================================================== *)
(** ** Collaborators of the pool manager *)

Module Pool.
Import UInt FixedHash Work.

Local Open Scope string_scope.
Local Open Scope Z_scope.

(** Modelled from the spec: [URI] (libpoolprotocols/PoolURI.h) is not among
    the sources.  A pool endpoint carries its connection string, host, port,
    protocol family, host-name type and the sticky "unrecoverable" flag. *)
Inductive ProtocolFamily : Type := GETWORK | STRATUM | SIMULATION.

Inductive UriHostNameType : Type := Unknown | Basic | Dns | IpV4 | IpV6.

Record URI : Type := mkURI {
  str : string;
  Host : string;
  Port : Z;
  Family : ProtocolFamily;
  HostNameType : UriHostNameType;
  IsUnrecoverable : bool
}.

(** [struct PoolSettings] (PoolManager.h).  The [float benchmarkDiff] is only
    handed on to the simulator and carries no behaviour here. *)
Record PoolSettings : Type := mkPoolSettings {
  connections : list URI;
  getWorkPollInterval : Z;
  noWorkTimeout : Z;
  noResponseTimeout : Z;
  poolFailoverTimeout : Z;
  reportHashrate : bool;
  hashRateInterval : Z;
  hashRateId : string;
  connectionMaxRetries : Z;
  benchmarkBlock : Z
}.

Definition set_connections (x : list URI) (s : PoolSettings) : PoolSettings :=
  {| connections := x; getWorkPollInterval := getWorkPollInterval s;
     noWorkTimeout := noWorkTimeout s; noResponseTimeout := noResponseTimeout s;
     poolFailoverTimeout := poolFailoverTimeout s; reportHashrate := reportHashrate s;
     hashRateInterval := hashRateInterval s; hashRateId := hashRateId s;
     connectionMaxRetries := connectionMaxRetries s; benchmarkBlock := benchmarkBlock s |}.

(** Modelled from the spec: [PoolClient] and its three variants
    (libpoolprotocols/PoolClient.h and the client directories) are not among
    the sources.  The manager only sees the connection the client was given,
    whether it is connected, the resolved endpoint it reports, and whether
    the manager's callbacks have been bound to it. *)
Inductive ClientVariant : Type :=
| EthGetworkClient (noWorkTimeout getWorkPollInterval : Z)
| EthStratumClient (noWorkTimeout noResponseTimeout : Z)
| SimulateClient (benchmarkBlock : Z).

Record PoolClient : Type := mkPoolClient {
  variant : ClientVariant;
  m_conn : option URI;
  m_connected : bool;
  ActiveEndPoint : string;
  handlers_bound : bool
}.

Definition new_client (v : ClientVariant) : PoolClient :=
  {| variant := v; m_conn := None; m_connected := false;
     ActiveEndPoint := ""; handlers_bound := false |}.

Definition client_set_conn (u : option URI) (c : PoolClient) : PoolClient :=
  {| variant := variant c; m_conn := u; m_connected := m_connected c;
     ActiveEndPoint := ActiveEndPoint c; handlers_bound := handlers_bound c |}.

Definition client_set_connected (b : bool) (c : PoolClient) : PoolClient :=
  {| variant := variant c; m_conn := m_conn c; m_connected := b;
     ActiveEndPoint := ActiveEndPoint c; handlers_bound := handlers_bound c |}.

Definition client_set_handlers (b : bool) (c : PoolClient) : PoolClient :=
  {| variant := variant c; m_conn := m_conn c; m_connected := m_connected c;
     ActiveEndPoint := ActiveEndPoint c; handlers_bound := b |}.

(** Modelled from the spec: the [Farm] singleton (libethcore/Farm.h) is not
    among the sources.  The manager reads [isMining], [paused],
    [get_ergodicity] and [HashRate] and calls start, stop, pause, resume,
    shuffle, setWork and accountSolution. *)
Record Farm : Type := mkFarm {
  isMining : bool;
  paused : bool;
  get_ergodicity : Z;
  HashRate : Z
}.

Definition farm_set_mining (b : bool) (f : Farm) : Farm :=
  {| isMining := b; paused := paused f; get_ergodicity := get_ergodicity f;
     HashRate := HashRate f |}.

Definition farm_set_paused (b : bool) (f : Farm) : Farm :=
  {| isMining := isMining f; paused := b; get_ergodicity := get_ergodicity f;
     HashRate := HashRate f |}.

(** [enum class SolutionAccountingEnum] (Miner.h). *)
Inductive SolutionAccountingEnum : Type := Accepted | Rejected | Wasted | Failed.

(** A [boost::asio::deadline_timer]: either idle or waiting, with the expiry
    (in seconds from the moment it was armed). *)
Definition deadline_timer : Type := option Z.

Definition cancel : deadline_timer := None.
Definition minutes (n : Z) : Z := 60 * n.
Definition seconds (n : Z) : Z := n.
Definition expires_from_now (d : Z) : deadline_timer := Some d.

(** Handlers waiting on [g_io_service]: the ones the manager posts itself and
    the disconnect notification a client owes after [disconnect()]. *)
Inductive task : Type := RotateConnect | ClientDisconnected.

(** Calls that leave the manager, in the order they are made. *)
Inductive effect : Type :=
| Note (msg : string)
| Warn (msg : string)
| NoteWasted (nonce : Z)
| NoteMiningAt (epoch : Z) (target : h256)
| NoteJob (hdr : h256) (blk : option Z) (host : string)
| NoteAccepted (delay : Z) (stale : bool) (host : string)
| WarnRejected (delay : Z) (host : string)
| ClientConnect
| ClientDisconnect
| ClientSubmitSolution (sol : Solution)
| ClientSubmitHashrate (rate : Z) (id : string)
| FarmStart
| FarmStop
| FarmPause
| FarmResume
| FarmShuffle
| FarmSetWork (wp : WorkPackage)
| FarmAccountSolution (minerIdx : Z) (a : SolutionAccountingEnum)
| Raise_SIGTERM.

(** The value [getCurrentDifficulty] hands back: the literal [0.0], or what
    [dev::getHashesToTarget] (libdevcore, not among the sources) makes of a
    target. *)
Inductive double : Type :=
| Zero
| getHashesToTarget (target : h256).

(** *** The manager's state (class PoolManager, PoolManager.h) *)

Record PoolManager : Type := mkPoolManager {
  m_Settings : PoolSettings;
  m_running : bool;
  m_stopping : bool;
  m_async_pending : bool;
  m_connectionAttempt : Z;
  m_selectedHost : string;
  m_connectionSwitches : Z;
  m_activeConnectionIdx : Z;
  m_currentWp : WorkPackage;
  m_failovertimer : deadline_timer;
  m_submithrtimer : deadline_timer;
  p_client : option PoolClient;
  m_epochChanges : Z
}.

Definition set_Settings (x : PoolSettings) (r : PoolManager) : PoolManager :=
  {| m_Settings := x; m_running := m_running r; m_stopping := m_stopping r;
     m_async_pending := m_async_pending r;
     m_connectionAttempt := m_connectionAttempt r; m_selectedHost := m_selectedHost r;
     m_connectionSwitches := m_connectionSwitches r;
     m_activeConnectionIdx := m_activeConnectionIdx r; m_currentWp := m_currentWp r;
     m_failovertimer := m_failovertimer r; m_submithrtimer := m_submithrtimer r;
     p_client := p_client r; m_epochChanges := m_epochChanges r |}.

Definition set_running (x : bool) (r : PoolManager) : PoolManager :=
  {| m_Settings := m_Settings r; m_running := x; m_stopping := m_stopping r;
     m_async_pending := m_async_pending r;
     m_connectionAttempt := m_connectionAttempt r; m_selectedHost := m_selectedHost r;
     m_connectionSwitches := m_connectionSwitches r;
     m_activeConnectionIdx := m_activeConnectionIdx r; m_currentWp := m_currentWp r;
     m_failovertimer := m_failovertimer r; m_submithrtimer := m_submithrtimer r;
     p_client := p_client r; m_epochChanges := m_epochChanges r |}.

Definition set_stopping (x : bool) (r : PoolManager) : PoolManager :=
  {| m_Settings := m_Settings r; m_running := m_running r; m_stopping := x;
     m_async_pending := m_async_pending r;
     m_connectionAttempt := m_connectionAttempt r; m_selectedHost := m_selectedHost r;
     m_connectionSwitches := m_connectionSwitches r;
     m_activeConnectionIdx := m_activeConnectionIdx r; m_currentWp := m_currentWp r;
     m_failovertimer := m_failovertimer r; m_submithrtimer := m_submithrtimer r;
     p_client := p_client r; m_epochChanges := m_epochChanges r |}.

Definition set_async_pending (x : bool) (r : PoolManager) : PoolManager :=
  {| m_Settings := m_Settings r; m_running := m_running r; m_stopping := m_stopping r;
     m_async_pending := x; m_connectionAttempt := m_connectionAttempt r;
     m_selectedHost := m_selectedHost r;
     m_connectionSwitches := m_connectionSwitches r;
     m_activeConnectionIdx := m_activeConnectionIdx r; m_currentWp := m_currentWp r;
     m_failovertimer := m_failovertimer r; m_submithrtimer := m_submithrtimer r;
     p_client := p_client r; m_epochChanges := m_epochChanges r |}.

Definition set_connectionAttempt (x : Z) (r : PoolManager) : PoolManager :=
  {| m_Settings := m_Settings r; m_running := m_running r; m_stopping := m_stopping r;
     m_async_pending := m_async_pending r; m_connectionAttempt := x;
     m_selectedHost := m_selectedHost r;
     m_connectionSwitches := m_connectionSwitches r;
     m_activeConnectionIdx := m_activeConnectionIdx r; m_currentWp := m_currentWp r;
     m_failovertimer := m_failovertimer r; m_submithrtimer := m_submithrtimer r;
     p_client := p_client r; m_epochChanges := m_epochChanges r |}.

Definition set_selectedHost (x : string) (r : PoolManager) : PoolManager :=
  {| m_Settings := m_Settings r; m_running := m_running r; m_stopping := m_stopping r;
     m_async_pending := m_async_pending r;
     m_connectionAttempt := m_connectionAttempt r; m_selectedHost := x;
     m_connectionSwitches := m_connectionSwitches r;
     m_activeConnectionIdx := m_activeConnectionIdx r; m_currentWp := m_currentWp r;
     m_failovertimer := m_failovertimer r; m_submithrtimer := m_submithrtimer r;
     p_client := p_client r; m_epochChanges := m_epochChanges r |}.

Definition set_connectionSwitches (x : Z) (r : PoolManager) : PoolManager :=
  {| m_Settings := m_Settings r; m_running := m_running r; m_stopping := m_stopping r;
     m_async_pending := m_async_pending r;
     m_connectionAttempt := m_connectionAttempt r; m_selectedHost := m_selectedHost r;
     m_connectionSwitches := x; m_activeConnectionIdx := m_activeConnectionIdx r;
     m_currentWp := m_currentWp r; m_failovertimer := m_failovertimer r;
     m_submithrtimer := m_submithrtimer r; p_client := p_client r;
     m_epochChanges := m_epochChanges r |}.

Definition set_activeConnectionIdx (x : Z) (r : PoolManager) : PoolManager :=
  {| m_Settings := m_Settings r; m_running := m_running r; m_stopping := m_stopping r;
     m_async_pending := m_async_pending r;
     m_connectionAttempt := m_connectionAttempt r; m_selectedHost := m_selectedHost r;
     m_connectionSwitches := m_connectionSwitches r; m_activeConnectionIdx := x;
     m_currentWp := m_currentWp r; m_failovertimer := m_failovertimer r;
     m_submithrtimer := m_submithrtimer r; p_client := p_client r;
     m_epochChanges := m_epochChanges r |}.

Definition set_currentWp (x : WorkPackage) (r : PoolManager) : PoolManager :=
  {| m_Settings := m_Settings r; m_running := m_running r; m_stopping := m_stopping r;
     m_async_pending := m_async_pending r;
     m_connectionAttempt := m_connectionAttempt r; m_selectedHost := m_selectedHost r;
     m_connectionSwitches := m_connectionSwitches r;
     m_activeConnectionIdx := m_activeConnectionIdx r; m_currentWp := x;
     m_failovertimer := m_failovertimer r; m_submithrtimer := m_submithrtimer r;
     p_client := p_client r; m_epochChanges := m_epochChanges r |}.

Definition set_failovertimer (x : deadline_timer) (r : PoolManager) : PoolManager :=
  {| m_Settings := m_Settings r; m_running := m_running r; m_stopping := m_stopping r;
     m_async_pending := m_async_pending r;
     m_connectionAttempt := m_connectionAttempt r; m_selectedHost := m_selectedHost r;
     m_connectionSwitches := m_connectionSwitches r;
     m_activeConnectionIdx := m_activeConnectionIdx r; m_currentWp := m_currentWp r;
     m_failovertimer := x; m_submithrtimer := m_submithrtimer r;
     p_client := p_client r; m_epochChanges := m_epochChanges r |}.

Definition set_submithrtimer (x : deadline_timer) (r : PoolManager) : PoolManager :=
  {| m_Settings := m_Settings r; m_running := m_running r; m_stopping := m_stopping r;
     m_async_pending := m_async_pending r;
     m_connectionAttempt := m_connectionAttempt r; m_selectedHost := m_selectedHost r;
     m_connectionSwitches := m_connectionSwitches r;
     m_activeConnectionIdx := m_activeConnectionIdx r; m_currentWp := m_currentWp r;
     m_failovertimer := m_failovertimer r; m_submithrtimer := x;
     p_client := p_client r; m_epochChanges := m_epochChanges r |}.

Definition set_p_client (x : option PoolClient) (r : PoolManager) : PoolManager :=
  {| m_Settings := m_Settings r; m_running := m_running r; m_stopping := m_stopping r;
     m_async_pending := m_async_pending r;
     m_connectionAttempt := m_connectionAttempt r; m_selectedHost := m_selectedHost r;
     m_connectionSwitches := m_connectionSwitches r;
     m_activeConnectionIdx := m_activeConnectionIdx r; m_currentWp := m_currentWp r;
     m_failovertimer := m_failovertimer r; m_submithrtimer := m_submithrtimer r;
     p_client := x; m_epochChanges := m_epochChanges r |}.

Definition set_epochChanges (x : Z) (r : PoolManager) : PoolManager :=
  {| m_Settings := m_Settings r; m_running := m_running r; m_stopping := m_stopping r;
     m_async_pending := m_async_pending r;
     m_connectionAttempt := m_connectionAttempt r; m_selectedHost := m_selectedHost r;
     m_connectionSwitches := m_connectionSwitches r;
     m_activeConnectionIdx := m_activeConnectionIdx r; m_currentWp := m_currentWp r;
     m_failovertimer := m_failovertimer r; m_submithrtimer := m_submithrtimer r;
     p_client := p_client r; m_epochChanges := x |}.

(** The manager together with what it acts on. *)
Record World : Type := mkWorld {
  mgr : PoolManager;
  farm : Farm;
  io_queue : list task;
  trace : list effect
}.

Definition set_mgr (x : PoolManager) (r : World) : World :=
  {| mgr := x; farm := farm r; io_queue := io_queue r; trace := trace r |}.

Definition set_farm (x : Farm) (r : World) : World :=
  {| mgr := mgr r; farm := x; io_queue := io_queue r; trace := trace r |}.

Definition set_io_queue (x : list task) (r : World) : World :=
  {| mgr := mgr r; farm := farm r; io_queue := x; trace := trace r |}.

Definition set_trace (x : list effect) (r : World) : World :=
  {| mgr := mgr r; farm := farm r; io_queue := io_queue r; trace := x |}.

(** *** Exceptions and the manager's monad *)

Inductive exn : Type :=
| runtime_error (what : string)
| out_of_range
| bad_optional_access.

(** How a member function ends: it returns, an exception leaves it, it
    dereferences an empty [p_client], or its polling loop is still waiting
    after the polls it was given. *)
Inductive outcome (A : Type) : Type :=
| Done (a : A) (w : World)
| Throw (e : exn) (w : World)
| NullDeref (w : World)
| Spinning (w : World).

Arguments Done {A} a w.
Arguments Throw {A} e w.
Arguments NullDeref {A} w.
Arguments Spinning {A} w.

(** The world as the call leaves it. *)
Definition final {A} (o : outcome A) : World :=
  match o with
  | Done _ w | Throw _ w | NullDeref w | Spinning w => w
  end.

Definition M (A : Type) : Type := World -> outcome A.

Definition ret {A} (a : A) : M A := fun w => Done a w.

Definition bind {A B} (m : M A) (f : A -> M B) : M B := fun w =>
  match m w with
  | Done a w' => f a w'
  | Throw e w' => Throw e w'
  | NullDeref w' => NullDeref w'
  | Spinning w' => Spinning w'
  end.

Declare Scope pool_scope.
Delimit Scope pool_scope with pool.

Notation "x ← y ; z" := (bind y (fun x => z))
  (at level 20, y at level 100, z at level 200, only parsing) : pool_scope.

Notation "x ;; z" := (bind x (fun _ => z))
  (at level 100, z at level 200, only parsing, right associativity) : pool_scope.

Local Open Scope pool_scope.

Definition throw {A} (e : exn) : M A := fun w => Throw e w.
Definition spin {A} : M A := fun w => Spinning w.
Definition null_deref {A} : M A := fun w => NullDeref w.

Definition gets {A} (f : PoolManager -> A) : M A := fun w => Done (f (mgr w)) w.

Definition modify (f : PoolManager -> PoolManager) : M unit :=
  fun w => Done tt (set_mgr (f (mgr w)) w).

Definition getsFarm {A} (f : Farm -> A) : M A := fun w => Done (f (farm w)) w.

Definition modifyFarm (f : Farm -> Farm) : M unit :=
  fun w => Done tt (set_farm (f (farm w)) w).

Definition emit (e : effect) : M unit :=
  fun w => Done tt (set_trace (trace w ++ [e]) w).

(** [g_io_service.post(m_io_strand.wrap(...))]. *)
Definition post (t : task) : M unit :=
  fun w => Done tt (set_io_queue (io_queue w ++ [t]) w).

Definition when (b : bool) (m : M unit) : M unit := if b then m else ret tt.

(** [opt.value()]. *)
Definition value {A} (o : option A) : M A :=
  match o with Some a => ret a | None => throw bad_optional_access end.

(** [vec.at(i)]. *)
Definition at_ {A} (l : list A) (i : Z) : M A :=
  match l !! Z.to_nat i with Some a => ret a | None => throw out_of_range end.

(** [vec.size()]. *)
Definition size {A} (l : list A) : Z := Z.of_nat (length l).

(** [p_client->]. *)
Definition client : M PoolClient :=
  fun w => match p_client (mgr w) with Some c => Done c w | None => NullDeref w end.

Definition modify_client (f : PoolClient -> PoolClient) : M unit :=
  c ← client; modify (set_p_client (Some (f c))).

(** [p_client && p_client->isConnected()]. *)
Definition client_isConnected (pm : PoolManager) : bool :=
  match p_client pm with Some c => m_connected c | None => false end.

(** *** The calls the manager makes on its collaborators *)

Definition Farm_start : M unit := emit FarmStart;; modifyFarm (farm_set_mining true).
Definition Farm_stop : M unit := emit FarmStop;; modifyFarm (farm_set_mining false).
Definition Farm_pause : M unit := emit FarmPause;; modifyFarm (farm_set_paused true).
Definition Farm_resume : M unit := emit FarmResume;; modifyFarm (farm_set_paused false).
Definition Farm_shuffle : M unit := emit FarmShuffle.
Definition Farm_setWork (wp : WorkPackage) : M unit := emit (FarmSetWork wp).

Definition Farm_accountSolution (minerIdx : Z) (a : SolutionAccountingEnum) : M unit :=
  emit (FarmAccountSolution minerIdx a).

Definition client_connect : M unit := client;; emit ClientConnect.

(** A connected client answers [disconnect()] with one disconnect
    notification on the io service. *)
Definition client_disconnect : M unit :=
  c ← client;
  emit ClientDisconnect;;
  when (m_connected c) (post ClientDisconnected).

Definition client_setConnection (u : URI) : M unit :=
  modify_client (client_set_conn (Some u)).

Definition client_unsetConnection : M unit := modify_client (client_set_conn None).

Definition client_getConnection : M URI :=
  c ← client;
  match m_conn c with Some u => ret u | None => null_deref end.

Definition client_submitSolution (sol : Solution) : M unit :=
  client;; emit (ClientSubmitSolution sol).

Definition client_submitHashrate (rate : Z) (id : string) : M unit :=
  client;; emit (ClientSubmitHashrate rate id).

(** Modelled from the spec: [boost::iequals], a case-insensitive string
    comparison (Boost is not among the sources); letters are ASCII. *)
Definition to_lower (c : ascii) : ascii :=
  let n := N_of_ascii c in
  if ((65 <=? n) && (n <=? 90))%N then ascii_of_N (n + 32) else c.

Fixpoint iequals (a b : string) : bool :=
  match a, b with
  | EmptyString, EmptyString => true
  | String x a', String y b' => Ascii.eqb (to_lower x) (to_lower y) && iequals a' b'
  | _, _ => false
  end.


(** *** Construction *)

(** [PoolManager::PoolManager]: the member initialisers of the header and
    [m_currentWp.header = h256()]. *)
Definition construct (settings : PoolSettings) : PoolManager :=
  {| m_Settings := settings; m_running := false; m_stopping := false;
     m_async_pending := false; m_connectionAttempt := 0; m_selectedHost := "";
     m_connectionSwitches := 0; m_activeConnectionIdx := 0;
     m_currentWp := set_header zero Work.default;
     m_failovertimer := None; m_submithrtimer := None;
     p_client := None; m_epochChanges := 0 |}.

(** The world a freshly constructed manager lives in. *)
Definition boot (settings : PoolSettings) (f : Farm) : World :=
  {| mgr := construct settings; farm := f; io_queue := []; trace := [] |}.

(** The two callbacks the constructor installs on the farm. *)
Definition onMinerRestart : M unit :=
  emit (Note "Restart miners...");;
  mining ← getsFarm isMining;
  when mining (emit (Note "Shutting down miners...");; Farm_stop);;
  emit (Note "Spinning up miners...");;
  Farm_start.

Definition onSolutionFound (sol : Solution) : M bool :=
  connected ← gets client_isConnected;
  (if connected then client_submitSolution sol
   else emit (NoteWasted (nonce sol)));;
  ret false.

(** *** The callbacks bound by [setClientHandlers] *)

Definition is_Dns_or_Basic (t : UriHostNameType) : bool :=
  match t with Dns | Basic => true | _ => false end.

Definition onConnected : M unit :=
  u ← client_getConnection;
  (if is_Dns_or_Basic (HostNameType u) then
     c ← client;
     let ep := ActiveEndPoint c in
     when (negb (String.eqb ep "")) (modify (set_selectedHost (Host u +:+ ep)))
   else ret tt);;
  host ← gets m_selectedHost;
  emit (Note ("Established connection to " +:+ host));;
  modify (fun pm => set_currentWp (set_header zero (set_job "" (m_currentWp pm))) pm);;
  erg ← getsFarm get_ergodicity;
  when (erg =? 1) Farm_shuffle;;
  idx ← gets m_activeConnectionIdx;
  fo ← gets (fun pm => poolFailoverTimeout (m_Settings pm));
  (if negb (idx =? 0) && negb (fo =? 0)
   then modify (set_failovertimer (expires_from_now (minutes fo)))
   else modify (set_failovertimer cancel));;
  mining ← getsFarm isMining;
  (if negb mining then emit (Note "Spinning up miners...");; Farm_start
   else
     p ← getsFarm paused;
     when p (emit (Note "Resume mining ...");; Farm_resume));;
  rep ← gets (fun pm => reportHashrate (m_Settings pm));
  hi ← gets (fun pm => hashRateInterval (m_Settings pm));
  when rep (modify (set_submithrtimer (expires_from_now (seconds hi))));;
  modify (set_async_pending false).

Definition onDisconnected : M unit :=
  host ← gets m_selectedHost;
  emit (Note ("Disconnected from " +:+ host));;
  client_unsetConnection;;
  modify (fun pm => set_currentWp (set_header zero (m_currentWp pm)) pm);;
  modify (set_failovertimer cancel);;
  modify (set_submithrtimer cancel);;
  stopping ← gets m_stopping;
  if stopping then
    mining ← getsFarm isMining;
    when mining (emit (Note "Shutting down miners...");; Farm_stop);;
    modify (set_running false)
  else
    modify (set_async_pending true);;
    emit (Note "No connection. Suspend mining ...");;
    Farm_pause;;
    post RotateConnect.

Definition showMiningAt : M unit :=
  cur ← gets m_currentWp;
  if negb (present cur) then ret tt
  else
    e ← value (epoch cur);
    emit (NoteMiningAt e (get_boundary cur)).

(** The package is taken by reference: the result is the caller's package as
    the callback leaves it. *)
Definition onWorkReceived (wp : WorkPackage) : M WorkPackage :=
  if negb (present wp) || negb (has_value (block wp)) then
    emit (Warn "Invalid work package received");;
    ret wp
  else
    wp ← (if negb (has_value (epoch wp)) then
            b ← value (block wp);
            ret (set_epoch (Some (wrap32 (b / Ethash.kEpoch_length))) wp)
          else ret wp);
    cur ← gets m_currentWp;
    flags ← (if negb (present cur) then ret (true, true)
             else
               ce ← value (epoch cur);
               we ← value (epoch wp);
               ret (negb (ce =? we),
                     negb (eqb (get_boundary cur) (get_boundary wp))));
    let newEpoch := fst flags in
    let newDiff := snd flags in
    modify (set_currentWp wp);;
    when newEpoch (modify (fun pm => set_epochChanges (incr32 (m_epochChanges pm)) pm));;
    when (newDiff || newEpoch) showMiningAt;;
    cur ← gets m_currentWp;
    host ← gets m_selectedHost;
    emit (NoteJob (header cur) (block cur) host);;
    Farm_setWork cur;;
    ret wp.

Definition onSolutionAccepted (responseDelay minerIdx : Z) (asStale : bool) : M unit :=
  host ← gets m_selectedHost;
  emit (NoteAccepted responseDelay asStale host);;
  Farm_accountSolution minerIdx Accepted.

Definition onSolutionRejected (responseDelay minerIdx : Z) : M unit :=
  host ← gets m_selectedHost;
  emit (WarnRejected responseDelay host);;
  Farm_accountSolution minerIdx Rejected.

Definition setClientHandlers : M unit := modify_client (client_set_handlers true).

(** *** Connection list *)

Definition conns (pm : PoolManager) : list URI := connections (m_Settings pm).

Definition set_conns (l : list URI) (pm : PoolManager) : PoolManager :=
  set_Settings (set_connections l (m_Settings pm)) pm.

Definition addConnection (uri : URI) : M unit :=
  modify (fun pm => set_conns (conns pm ++ [uri]) pm).

Definition removeConnection (idx : Z) : M unit :=
  pending ← gets m_async_pending;
  when pending (throw (runtime_error "Outstanding operations. Retry ..."));;
  l ← gets conns;
  when (size l <=? idx) (throw (runtime_error "Index out-of bounds."));;
  active ← gets m_activeConnectionIdx;
  when (idx =? active) (throw (runtime_error "Can't remove active connection"));;
  modify (set_conns (delete (Z.to_nat idx) l));;
  when (idx <? active) (modify (set_activeConnectionIdx (decr32 active))).

(** [m_async_pending.compare_exchange_weak(ex, true)] with [ex == false]:
    it fails when the flag is set, and a weak exchange may also fail when the
    flag is clear ([spurious]). *)
Definition compare_exchange_weak_async_pending (spurious : bool) : M bool :=
  cur ← gets m_async_pending;
  if cur then ret false
  else if spurious then ret false
  else modify (set_async_pending true);; ret true.

Definition setActiveConnectionCommon (spurious : bool) (idx : Z) : M unit :=
  ok ← compare_exchange_weak_async_pending spurious;
  when (negb ok) (throw (runtime_error "Outstanding operations. Retry ..."));;
  active ← gets m_activeConnectionIdx;
  if negb (idx =? active) then
    modify (fun pm => set_connectionSwitches (incr32 (m_connectionSwitches pm)) pm);;
    modify (set_activeConnectionIdx idx);;
    modify (set_connectionAttempt 0);;
    client_disconnect
  else
    modify (set_async_pending false).

Definition setActiveConnection (spurious : bool) (idx : Z) : M unit :=
  l ← gets conns;
  when (size l <=? idx) (throw (runtime_error "Index out-of bounds."));;
  setActiveConnectionCommon spurious idx.

(** The index at which the loop of [setActiveConnection(std::string&)] first
    sees a match, counting from [idx]. *)
Fixpoint find_iequals (l : list URI) (connstring : string) (idx : Z) : option Z :=
  match l with
  | [] => None
  | u :: rest =>
      if iequals (str u) connstring then Some idx
      else find_iequals rest connstring (idx + 1)
  end.

Definition setActiveConnection_str (spurious : bool) (connstring : string) : M unit :=
  let found := false in
  l ← gets conns;
  match find_iequals l connstring 0 with
  | Some idx => setActiveConnectionCommon spurious idx
  | None => ret tt
  end;;
  when (negb found) (throw (runtime_error "Not found.")).

Definition getActiveConnection (pm : PoolManager) : option URI :=
  conns pm !! Z.to_nat (m_activeConnectionIdx pm).

(** *** Start and rotation *)

Definition start : M unit :=
  modify (set_running true);;
  modify (set_async_pending true);;
  modify (fun pm => set_connectionSwitches (incr32 (m_connectionSwitches pm)) pm);;
  post RotateConnect.

(** The first half of [rotateConnect]: bounds check and the choice of the
    endpoint to try. *)
Definition rotate_select : M unit :=
  idx ← gets m_activeConnectionIdx;
  l ← gets conns;
  when (size l <=? idx) (modify (set_activeConnectionIdx 0));;
  idx ← gets m_activeConnectionIdx;
  u ← at_ l idx;
  attempt ← gets m_connectionAttempt;
  maxRetries ← gets (fun pm => connectionMaxRetries (m_Settings pm));
  if IsUnrecoverable u then
    modify (set_conns (delete (Z.to_nat idx) l));;
    modify (set_connectionAttempt 0);;
    l ← gets conns;
    when (size l <=? idx) (modify (set_activeConnectionIdx 0));;
    modify (fun pm => set_connectionSwitches (incr32 (m_connectionSwitches pm)) pm)
  else if maxRetries <=? attempt then
    if size l =? 1 then
      modify (set_connectionAttempt 0)
    else
      modify (set_connectionAttempt 0);;
      modify (set_activeConnectionIdx (incr32 idx));;
      idx ← gets m_activeConnectionIdx;
      when (size l <=? idx) (modify (set_activeConnectionIdx 0));;
      modify (fun pm => set_connectionSwitches (incr32 (m_connectionSwitches pm)) pm)
  else ret tt.

(** [!connections.empty() && connections.at(idx)->Host() != "exit"]. *)
Definition selected_is_usable : M bool :=
  l ← gets conns;
  idx ← gets m_activeConnectionIdx;
  if size l =? 0 then ret false
  else
    u ← at_ l idx;
    ret (negb (String.eqb (Host u) "exit")).

(** The second half of [rotateConnect]: a new client for the chosen
    endpoint, or the end of the run. *)
Definition rotate_launch : M unit :=
  usable ← selected_is_usable;
  if usable then
    modify (set_p_client None);;
    l ← gets conns;
    idx ← gets m_activeConnectionIdx;
    s ← gets m_Settings;
    u ← at_ l idx;
    when (match Family u with GETWORK => true | _ => false end)
      (modify (set_p_client
         (Some (new_client (EthGetworkClient (noWorkTimeout s) (getWorkPollInterval s))))));;
    u ← at_ l idx;
    when (match Family u with STRATUM => true | _ => false end)
      (modify (set_p_client
         (Some (new_client (EthStratumClient (noWorkTimeout s) (noResponseTimeout s))))));;
    u ← at_ l idx;
    when (match Family u with SIMULATION => true | _ => false end)
      (modify (set_p_client (Some (new_client (SimulateClient (benchmarkBlock s))))));;
    c ← gets p_client;
    when (has_value c) setClientHandlers;;
    modify (fun pm => set_connectionAttempt (incr32 (m_connectionAttempt pm)) pm);;
    u ← at_ l idx;
    modify (set_selectedHost (Host u +:+ ":" +:+ pretty (Port u)));;
    client_setConnection u;;
    host ← gets m_selectedHost;
    emit (Note ("Selected pool " +:+ host));;
    client_connect
  else
    l ← gets conns;
    (if size l =? 0 then emit (Note "No more connections to try. Exiting...")
     else emit (Note "'exit' failover just got hit. Exiting..."));;
    mining ← getsFarm isMining;
    when mining (emit (Note "Shutting down miners...");; Farm_stop);;
    modify (set_running false);;
    emit Raise_SIGTERM.

Definition rotateConnect : M unit :=
  connected ← gets client_isConnected;
  if connected then ret tt
  else rotate_select;; rotate_launch.

(** *** Timers *)

(** [ec] is true when the wait ended with an error (a cancelled wait). *)
Definition failovertimer_elapsed (ec : bool) : M unit :=
  when (negb ec) (
    running ← gets m_running;
    when running (
      idx ← gets m_activeConnectionIdx;
      when (negb (idx =? 0)) (
        modify (set_activeConnectionIdx 0);;
        modify (set_connectionAttempt 0);;
        modify (fun pm => set_connectionSwitches (incr32 (m_connectionSwitches pm)) pm);;
        emit (Note "Failover timeout reached, retrying connection to primary pool");;
        client_disconnect))).

Definition submithrtimer_elapsed (ec : bool) : M unit :=
  when (negb ec) (
    running ← gets m_running;
    when running (
      connected ← gets client_isConnected;
      rate ← getsFarm HashRate;
      id ← gets (fun pm => hashRateId (m_Settings pm));
      when connected (client_submitHashrate (wrap32 rate) id);;
      hi ← gets (fun pm => hashRateInterval (m_Settings pm));
      modify (set_submithrtimer (expires_from_now (seconds hi))))).

(** *** The io service and [stop] *)

(** A client that owes its disconnect notification marks itself
    disconnected and calls the bound [onDisconnected]; a notification whose
    client is gone is dropped. *)
Definition client_emits_disconnected : M unit :=
  c ← gets p_client;
  match c with
  | Some c =>
      if handlers_bound c && m_connected c then
        modify_client (client_set_connected false);;
        onDisconnected
      else ret tt
  | None => ret tt
  end.

(** Modelled from the spec: a client whose connection attempt fails, or
    whose session ends in an error before it was connected, goes back to
    disconnected and calls the bound [onDisconnected]. *)
Definition client_fails_to_connect : M unit :=
  c ← gets p_client;
  match c with
  | Some c =>
      if handlers_bound c && negb (m_connected c) then onDisconnected
      else ret tt
  | None => ret tt
  end.

(** Modelled from the spec: a client that has connected marks itself
    connected and calls the bound [onConnected]. *)
Definition client_emits_connected (endpoint : string) : M unit :=
  c ← client;
  modify (set_p_client
    (Some {| variant := variant c; m_conn := m_conn c; m_connected := true;
             ActiveEndPoint := endpoint; handlers_bound := handlers_bound c |}));;
  when (handlers_bound c) onConnected.

Definition run_task (t : task) : M unit :=
  match t with
  | RotateConnect => rotateConnect
  | ClientDisconnected => client_emits_disconnected
  end.

(** One turn of the io-service thread: the oldest waiting handler runs. *)
Definition io_run_one : M unit :=
  fun w =>
    match io_queue w with
    | [] => Done tt w
    | t :: rest => run_task t (set_io_queue rest w)
    end.

(** [while (m_running.load()) sleep_for(500ms);] where the io-service thread
    gets one turn during each sleep. *)
Fixpoint wait_while_running (polls : nat) : M unit :=
  running ← gets m_running;
  if running then
    match polls with
    | O => spin
    | S n => io_run_one;; wait_while_running n
    end
  else ret tt.

Definition stop (polls : nat) : M unit :=
  running ← gets m_running;
  when running (
    modify (set_async_pending true);;
    modify (set_stopping true);;
    connected ← gets client_isConnected;
    if connected then
      client_disconnect;;
      wait_while_running polls;;
      modify (set_p_client None)
    else
      modify (set_failovertimer cancel);;
      modify (set_submithrtimer cancel);;
      mining ← getsFarm isMining;
      when mining (emit (Note "Shutting down miners...");; Farm_stop)).

(** *** Observers *)

Definition isRunning (pm : PoolManager) : bool := m_running pm.

Definition isConnected : M bool := c ← client; ret (m_connected c).

Definition getCurrentEpoch : M Z :=
  cur ← gets m_currentWp;
  e ← value (epoch cur);
  ret (to_int e).

Definition getCurrentDifficulty : M double :=
  cur ← gets m_currentWp;
  if negb (present cur) then ret Zero
  else ret (getHashesToTarget (boundary cur)).

Definition getConnectionSwitches (pm : PoolManager) : Z := m_connectionSwitches pm.

Definition getEpochChanges (pm : PoolManager) : Z := m_epochChanges pm.

End Pool.

(* ===================================================================== *)
(** ** The connection list as the API reports it (PoolManager.cpp) *)

Module PoolView.
Import UInt Pool.

Local Open Scope Z_scope.

(** One element of the array [getConnectionsJson] builds: the members
    ["index"], ["active"] and ["uri"]. *)
Record JConn : Type := mkJConn {
  index : Z;
  active : bool;
  uri : string
}.

(** A [Json::Value] as [getConnectionsJson] can return it: the default
    constructed value is null, and the first [append] turns it into an
    array. *)
Inductive Json : Type :=
| JNull
| JArray (items : list JConn).

(** [Json::Value::append]. *)
Definition append (j : Json) (c : JConn) : Json :=
  match j with
  | JNull => JArray [c]
  | JArray items => JArray (items ++ [c])
  end.

(** [for (size_t i = 0; i < connections.size(); i++)], from index [i] on,
    over the rest [l] of the list. *)
Fixpoint connections_from (l : list URI) (i : Z) (activeIdx : Z) (jRes : Json) : Json :=
  match l with
  | [] => jRes
  | u :: rest =>
      connections_from rest (i + 1) activeIdx
        (append jRes {| index := wrap32 i; active := (i =? activeIdx); uri := str u |})
  end.

Definition getConnectionsJson (pm : PoolManager) : Json :=
  connections_from (conns pm) 0 (m_activeConnectionIdx pm) JNull.

(** The elements of a value, none for null. *)
Definition items_of (j : Json) : list JConn :=
  match j with JNull => [] | JArray items => items end.

End PoolView.

(* ===================================================================== *)
(** ** The CUDA miner's search (libethash-cuda/CUDAMiner.cpp) *)

Module Cuda.
Import UInt FixedHash Work.

Local Open Scope Z_scope.

(** [#define MAX_SEARCH_RESULTS 4U] (CUDAMiner_kernel.cu). *)
Definition MAX_SEARCH_RESULTS : Z := 4.

(** [struct CUSettings] (Miner.h). *)
Record CUSettings : Type := mkCUSettings {
  streams : Z;
  schedule : Z;
  gridSize : Z;
  blockSize : Z;
  parallelHash : Z
}.

Definition default_settings : CUSettings :=
  {| streams := 2; schedule := 4; gridSize := 256; blockSize := 512; parallelHash := 4 |}.

(** [Search_results] (CUDAMiner_kernel.cu): what a kernel leaves in the
    buffer of its stream. *)
Record Search_result : Type := mkSearch_result {
  gid : Z;
  mix : h256
}.

Record Search_results : Type := mkSearch_results {
  count : Z;
  result : list Search_result
}.

(** The members of [CUDAMiner] that [search] reads or writes, and the two
    device constants behind [set_header] and [set_target]. *)
Record CUDAMiner : Type := mkCUDAMiner {
  m_settings : CUSettings;
  m_index : Z;
  m_batch_size : Z;
  m_streams_batch_size : Z;
  m_current_target : Z;
  m_kernelExecIx : Z;
  m_new_work : bool;
  d_header : h256;
  d_target : Z
}.

(** [CUDAMiner::CUDAMiner]: the batch sizes follow from the settings. *)
Definition construct (index : Z) (s : CUSettings) : CUDAMiner :=
  {| m_settings := s; m_index := index;
     m_batch_size := wrap32 (gridSize s * blockSize s);
     m_streams_batch_size := wrap32 (gridSize s * blockSize s * streams s);
     m_current_target := 0; m_kernelExecIx := 1; m_new_work := false;
     d_header := zero; d_target := 0 |}.

Definition with_header (h : h256) (m : CUDAMiner) : CUDAMiner :=
  {| m_settings := m_settings m; m_index := m_index m; m_batch_size := m_batch_size m;
     m_streams_batch_size := m_streams_batch_size m;
     m_current_target := m_current_target m; m_kernelExecIx := m_kernelExecIx m;
     m_new_work := m_new_work m; d_header := h; d_target := d_target m |}.

Definition with_target (t : Z) (m : CUDAMiner) : CUDAMiner :=
  {| m_settings := m_settings m; m_index := m_index m; m_batch_size := m_batch_size m;
     m_streams_batch_size := m_streams_batch_size m;
     m_current_target := t; m_kernelExecIx := m_kernelExecIx m;
     m_new_work := m_new_work m; d_header := d_header m; d_target := t |}.

Definition with_new_work (b : bool) (m : CUDAMiner) : CUDAMiner :=
  {| m_settings := m_settings m; m_index := m_index m; m_batch_size := m_batch_size m;
     m_streams_batch_size := m_streams_batch_size m;
     m_current_target := m_current_target m; m_kernelExecIx := m_kernelExecIx m;
     m_new_work := b; d_header := d_header m; d_target := d_target m |}.

(** What [search] does that is visible outside it, in order. *)
Inductive event : Type :=
| SetHeader (hdr : h256)
| SetTarget (target : Z)
| Log (msg : string)
| LaunchKernel (kernelIx stream start_nonce : Z) (hdr : h256) (target : Z)
| StreamSynchronize (stream : Z)
| SubmitProof (sol : Solution)
| LogSolution (hdr : h256) (nonce : Z)
| UpdateHashRate (groupSize increment : Z).

(** What [search] sees of the rest of the process while it runs: per turn
    of the inner loop the buffer of the stream just synchronised, whether
    [shouldStop()] holds and the clock; per turn of the outer loop whether
    [kick_miner] has run, whether the miner is paused, and [shouldStop()] at
    the bottom of the loop. *)
Record stream_obs : Type := mkStreamObs {
  so_buffer : Search_results;
  so_shouldStop : bool;
  so_now : Z
}.

Record round_obs : Type := mkRoundObs {
  ro_kicked : bool;
  ro_paused : bool;
  ro_stream : Z -> stream_obs;
  ro_shouldStop : bool
}.

(** The locals of [search]. *)
Record locals : Type := mkLocals {
  miner : CUDAMiner;
  start_nonce : Z;
  done : bool;
  out : list event
}.

Definition launch (m : CUDAMiner) (stream nonce : Z) (hdr : h256) : event :=
  LaunchKernel (m_kernelExecIx m) stream nonce hdr (m_current_target m).

(** [for (current_index = 0; current_index < streams; current_index++,
    start_nonce += m_batch_size)], first loop: prime each stream. *)
Fixpoint prime (todo : nat) (current_index : Z) (hdr : h256) (st : locals) : locals :=
  match todo with
  | O => st
  | S todo' =>
      prime todo' (current_index + 1) hdr
        {| miner := miner st;
           start_nonce := wrap64 (start_nonce st + m_batch_size (miner st));
           done := done st;
           out := out st ++ [launch (miner st) current_index (start_nonce st) hdr] |}
  end.

(** The solutions of one buffer, handed to the farm. *)
Definition submit_found (m : CUDAMiner) (w : WorkPackage) (now nonce_base : Z)
    (found : list Search_result) : list event :=
  flat_map (fun r =>
    let nonce := wrap64 (nonce_base + gid r) in
    [SubmitProof {| nonce := nonce; mixHash := mix r; work := w;
                    tstamp := now; midx := m_index m |};
     LogSolution (header w) nonce]) found.

(** One turn of the inner loop of the search. *)
Definition stream_turn (o : stream_obs) (current_index : Z) (hdr : h256)
    (w : WorkPackage) (st : locals) : locals :=
  let m := miner st in
  let out1 := out st ++ [StreamSynchronize current_index] in
  let m1 := if so_shouldStop o then with_new_work false m else m in
  let done1 := if so_shouldStop o then true else done st in
  let found_count := Z.min (wrap32 (count (so_buffer o))) MAX_SEARCH_RESULTS in
  let found := take (Z.to_nat found_count) (result (so_buffer o)) in
  let out2 := if done1 then out1
              else out1 ++ [launch m1 current_index (start_nonce st) hdr] in
  let out3 :=
    if found_count =? 0 then out2
    else out2 ++ submit_found m1 w (so_now o)
                   (wrap64 (start_nonce st - m_streams_batch_size m1)) found in
  {| miner := m1;
     start_nonce := wrap64 (start_nonce st + m_batch_size m1);
     done := done1;
     out := out3 |}.

Fixpoint stream_turns (todo : nat) (current_index : Z) (r : round_obs) (hdr : h256)
    (w : WorkPackage) (st : locals) : locals :=
  match todo with
  | O => st
  | S todo' =>
      stream_turns todo' (current_index + 1) r hdr w
        (stream_turn (ro_stream r current_index) current_index hdr w st)
  end.

(** [while (!done)]: one element of [obs] per turn.  [None] when the loop is
    still running after all of [obs]. *)
Fixpoint rounds (obs : list round_obs) (hdr : h256) (w : WorkPackage)
    (st : locals) : option locals :=
  if done st then Some st
  else
    match obs with
    | [] => None
    | r :: obs' =>
        let m := miner st in
        let m0 := if ro_kicked r then with_new_work true m else m in
        let done0 := done st || m_new_work m0 || ro_paused r in
        let st1 := stream_turns (Z.to_nat (streams (m_settings m0))) 0 r hdr w
                     {| miner := m0; start_nonce := start_nonce st;
                        done := done0; out := out st |} in
        let st2 := {| miner := miner st1; start_nonce := start_nonce st1;
                      done := done st1;
                      out := out st1 ++ [UpdateHashRate (m_batch_size (miner st1))
                                           (streams (m_settings (miner st1)))] |} in
        if ro_shouldStop r then
          Some {| miner := with_new_work false (miner st2);
                  start_nonce := start_nonce st2; done := done st2; out := out st2 |}
        else rounds obs' hdr w st2
    end.

(** [CUDAMiner::search].  The result is the miner and the events once
    [search] has returned. *)
Definition search (m : CUDAMiner) (hdr : h256) (target nonce0 : Z)
    (w : WorkPackage) (obs : list round_obs) : option (CUDAMiner * list event) :=
  let m := with_header hdr m in
  let out0 := [SetHeader hdr] in
  let changed := negb (m_current_target m =? target) in
  let m := if changed then with_target target m else m in
  let out1 := if changed then out0 ++ [SetTarget target] else out0 in
  if target =? UINT64_MAX then
    Some (m, out1 ++ [Log "Difficulty too low for GPU. Skipping job"%string])
  else
    let st := prime (Z.to_nat (streams (m_settings m))) 0 hdr
                {| miner := m; start_nonce := nonce0; done := false; out := out1 |} in
    match rounds obs hdr w st with
    | Some st' => Some (miner st', out st')
    | None => None
    end.

(** [(uint64_t)(u64)((u256)w.get_boundary() >> 192)] (workLoop). *)
Definition upper64OfBoundary (w : WorkPackage) : Z :=
  wrap64 (Z.shiftr (fromBigEndian (get_boundary w)) 192).

(** The tail of one turn of [workLoop]: the search for the job [w]. *)
Definition search_job (m : CUDAMiner) (w : WorkPackage) (obs : list round_obs)
    : option (CUDAMiner * list event) :=
  search m (header w) (upper64OfBoundary w) (startNonce w) w obs.

Definition is_launch (e : event) : bool :=
  match e with LaunchKernel _ _ _ _ _ => true | _ => false end.

Definition is_submit (e : event) : bool :=
  match e with SubmitProof _ => true | _ => false end.

End Cuda.

(* ===================================================================== *)
(** ** The two kernel slots of the CUDA miner (CUDAMiner::workLoop,
       CUDAMiner::asyncCompile) *)

Module Kernels.
Import UInt.

Local Open Scope Z_scope.

(** How a run of [compileKernel] ends: it returns; it throws before
    [cuModuleGetFunction] has written the slot; it throws after. *)
Inductive compile_result : Type :=
| Compiles
| Throws_early
| Throws_late.

(** [std::unique_ptr<std::thread> m_compileThread]: null; a thread that
    has been started and not joined, with the way its compilation ends; a
    thread that has been joined. *)
Inductive thread : Type :=
| NoThread
| Running (r : compile_result)
| Joined.

Inductive kernel_event : Type :=
| Precompiled (period : Z)
| CompileFailed
| Launching (period : Z).

(** The members and locals behind the choice of the kernel to launch.  A
    slot of [m_kernel] is described by the period its kernel was compiled
    for. *)
Record KernelState : Type := mkKernelState {
  m_kernelExecIx : Z;
  m_kernelCompIx : Z;
  m_nextProgpowPeriod : Z;            (* uint64_t *)
  old_period_seed : Z;                (* uint64_t, local of workLoop *)
  m_kernel : Z -> option Z;
  m_compileThread : thread;
  klog : list kernel_event
}.

(** How the part of [workLoop] modelled here can end: normally; with the
    [std::system_error] of joining a thread that is not joinable; in
    [std::terminate], by destroying a thread that is joinable; by calling
    through a null [m_compileThread]. *)
Inductive result (A : Type) : Type :=
| Ok (a : A)
| SystemError
| Terminate
| NullThread.
Arguments Ok {A} a.
Arguments SystemError {A}.
Arguments Terminate {A}.
Arguments NullThread {A}.

Definition and_then {A B : Type} (x : result A) (f : A -> result B) : result B :=
  match x with
  | Ok a => f a
  | SystemError => SystemError
  | Terminate => Terminate
  | NullThread => NullThread
  end.

Definition set_next (p : Z) (st : KernelState) : KernelState :=
  {| m_kernelExecIx := m_kernelExecIx st; m_kernelCompIx := m_kernelCompIx st;
     m_nextProgpowPeriod := p; old_period_seed := old_period_seed st;
     m_kernel := m_kernel st; m_compileThread := m_compileThread st;
     klog := klog st |}.

Definition set_thread (t : thread) (st : KernelState) : KernelState :=
  {| m_kernelExecIx := m_kernelExecIx st; m_kernelCompIx := m_kernelCompIx st;
     m_nextProgpowPeriod := m_nextProgpowPeriod st;
     old_period_seed := old_period_seed st;
     m_kernel := m_kernel st; m_compileThread := t; klog := klog st |}.

(** [compileKernel(m_nextProgpowPeriod, ..., m_kernel[m_kernelCompIx])]
    leaves in the slot a kernel for that period. *)
Definition write_slot (st : KernelState) : KernelState :=
  {| m_kernelExecIx := m_kernelExecIx st; m_kernelCompIx := m_kernelCompIx st;
     m_nextProgpowPeriod := m_nextProgpowPeriod st;
     old_period_seed := old_period_seed st;
     m_kernel := fun i => if i =? m_kernelCompIx st
                          then Some (m_nextProgpowPeriod st) else m_kernel st i;
     m_compileThread := m_compileThread st; klog := klog st |}.

Definition say (e : kernel_event) (st : KernelState) : KernelState :=
  {| m_kernelExecIx := m_kernelExecIx st; m_kernelCompIx := m_kernelCompIx st;
     m_nextProgpowPeriod := m_nextProgpowPeriod st;
     old_period_seed := old_period_seed st;
     m_kernel := m_kernel st; m_compileThread := m_compileThread st;
     klog := klog st ++ [e] |}.

(** [CUDAMiner::asyncCompile], inside the [try] of the thread's lambda:
    [m_kernelCompIx ^= 1] is reached only if [compileKernel] returns. *)
Definition asyncCompile (r : compile_result) (st : KernelState) : KernelState :=
  match r with
  | Compiles =>
      let st1 := say (Precompiled (m_nextProgpowPeriod st)) (write_slot st) in
      {| m_kernelExecIx := m_kernelExecIx st1;
         m_kernelCompIx := Z.lxor (m_kernelCompIx st1) 1;
         m_nextProgpowPeriod := m_nextProgpowPeriod st1;
         old_period_seed := old_period_seed st1;
         m_kernel := m_kernel st1; m_compileThread := m_compileThread st1;
         klog := klog st1 |}
  | Throws_early => say CompileFailed st
  | Throws_late => say CompileFailed (write_slot st)
  end.

(** [m_compileThread->join()].  The work of the thread is accounted for
    here: from its start to its join [workLoop] writes none of the members
    the thread reads, except [m_nextProgpowPeriod] in the branch taken when
    that is zero. *)
Definition join (st : KernelState) : result KernelState :=
  match m_compileThread st with
  | NoThread => NullThread
  | Running r => Ok (set_thread Joined (asyncCompile r st))
  | Joined => SystemError
  end.

(** [if (m_compileThread) m_compileThread->join();] *)
Definition join_if_any (st : KernelState) : result KernelState :=
  match m_compileThread st with
  | NoThread => Ok st
  | _ => join st
  end.

(** [m_compileThread.reset(new std::thread(...))]. *)
Definition start_compile (r : compile_result) (st : KernelState) : result KernelState :=
  match m_compileThread st with
  | Running _ => Terminate
  | _ => Ok (set_thread (Running r) st)
  end.

(** The part of a turn of [workLoop] between the computation of
    [period_seed] and the search: [r1], [r2] and [r3] say how the
    compilations started in it, if they are, end. *)
Definition workLoop_period (period_seed : Z) (r1 r2 r3 : compile_result)
    (st : KernelState) : result KernelState :=
  and_then
    (if m_nextProgpowPeriod st =? 0 then
       and_then (join_if_any (set_next period_seed st)) (start_compile r1)
     else Ok st)
    (fun st1 =>
       if negb (old_period_seed st1 =? period_seed) then
         and_then (join_if_any st1) (fun st2 =>
         and_then
           (if negb (period_seed =? m_nextProgpowPeriod st2) then
              and_then (start_compile r2 (set_next period_seed st2)) join
            else Ok st2)
           (fun st3 =>
              let st4 :=
                {| m_kernelExecIx := Z.lxor (m_kernelExecIx st3) 1;
                   m_kernelCompIx := m_kernelCompIx st3;
                   m_nextProgpowPeriod := wrap64 (period_seed + 1);
                   old_period_seed := period_seed;
                   m_kernel := m_kernel st3;
                   m_compileThread := m_compileThread st3;
                   klog := klog st3 ++ [Launching period_seed] |} in
              start_compile r3 st4))
       else Ok st1).

(** The slot [search] launches from: [m_kernel[m_kernelExecIx]]. *)
Definition exec_kernel (st : KernelState) : option Z :=
  m_kernel st (m_kernelExecIx st).

(** The state once the compilation under way, if any, has ended. *)
Definition finished (st : KernelState) : KernelState :=
  match m_compileThread st with
  | Running r => asyncCompile r st
  | _ => st
  end.

End Kernels.

(* ===================================================================== *)
(** ** Sample data and derived notions used in the statements below *)

Module Samples.
Import UInt FixedHash Work.

Local Open Scope Z_scope.

(** A package whose pool target is 2^254 and whose network floor is
    [0x7f 00 .. 00]: the floor is the easier of the two. *)
Definition sample_boundaries : WorkPackage :=
  {| job := "j1";
     boundary := x40 :: replicate 31 x00;
     header := replicate 32 x11;
     seed := zero;
     block_boundary := x7f :: replicate 31 x00;
     epoch := None; block := Some 82500;
     startNonce := 0; exSizeBytes := 0; algo := "meowpow" |}.

(** A job at difficulty one: the pool target is all ones. *)
Definition easiest_job : WorkPackage :=
  {| job := "j0";
     boundary := replicate 32 xff;
     header := replicate 32 x11;
     seed := zero;
     block_boundary := zero;
     epoch := Some 11; block := Some 82500;
     startNonce := 0; exSizeBytes := 0; algo := "meowpow" |}.

(** A harder job, and a turn of the search loop in which nothing is found
    and new work has arrived. *)
Definition harder_job : WorkPackage :=
  {| job := "j1";
     boundary := x00 :: replicate 31 xff;
     header := replicate 32 x11;
     seed := zero;
     block_boundary := zero;
     epoch := Some 11; block := Some 82500;
     startNonce := 0; exSizeBytes := 0; algo := "meowpow" |}.

Section CudaSamples.
Import Cuda.

(** What [search] leaves behind when it is called with the largest target:
    the header and, if it differs from the cached one, the target are
    written to the device, and one line is logged. *)
Definition skip_events (m : CUDAMiner) (hdr : h256) : list event :=
  SetHeader hdr
  :: (if m_current_target m =? UINT64_MAX then [] else [SetTarget UINT64_MAX])
  ++ [Log "Difficulty too low for GPU. Skipping job"%string].

Definition skip_miner (m : CUDAMiner) (hdr : h256) : CUDAMiner :=
  if m_current_target m =? UINT64_MAX then with_header hdr m
  else with_target UINT64_MAX (with_header hdr m).

Definition quiet_stop_round : round_obs :=
  {| ro_kicked := true; ro_paused := false;
     ro_stream := fun _ => {| so_buffer := {| count := 0; result := [] |};
                              so_shouldStop := false; so_now := 0 |};
     ro_shouldStop := false |}.

End CudaSamples.

Section PoolSamples.
Import Pool.

Local Open Scope string_scope.

Definition pool_test : URI :=
  {| str := "stratum+tcp://worker.rig@pool.test:3333"; Host := "pool.test";
     Port := 3333; Family := STRATUM; HostNameType := Dns;
     IsUnrecoverable := false |}.

Definition backup_test : URI :=
  {| str := "stratum+tcp://worker.rig@backup.test:4444"; Host := "backup.test";
     Port := 4444; Family := STRATUM; HostNameType := Dns;
     IsUnrecoverable := false |}.

Definition exit_uri : URI :=
  {| str := "stratum+tcp://exit:3333"; Host := "exit";
     Port := 3333; Family := STRATUM; HostNameType := Basic;
     IsUnrecoverable := false |}.

(** The defaults of [PoolSettings] over a given list of endpoints. *)
Definition settings_for (l : list URI) : PoolSettings :=
  {| connections := l; getWorkPollInterval := 1000; noWorkTimeout := 100000;
     noResponseTimeout := 2; poolFailoverTimeout := 0; reportHashrate := false;
     hashRateInterval := 60; hashRateId := "0x2a"; connectionMaxRetries := 9000;
     benchmarkBlock := 0 |}.

Definition idle_farm : Farm :=
  {| isMining := false; paused := false; get_ergodicity := 0; HashRate := 0 |}.

(** A manager over one endpoint: just constructed; after [start()]; after
    the posted [rotateConnect] has run; after the client has connected. *)
Definition fresh : World := boot (settings_for [pool_test]) idle_farm.
Definition started : World := final (start fresh).
Definition connecting : World := final (io_run_one started).
Definition connected : World :=
  final (client_emits_connected " [10.0.0.1:3333]" connecting).

(** The connected manager after 9000 attempts have been counted. *)
Definition connected_exhausted : World :=
  set_mgr (set_connectionAttempt 9000 (mgr connected)) connected.

(** The manager between a disconnect and the retry, attempts used up. *)
Definition disconnected_exhausted : World :=
  set_mgr (set_connectionAttempt 9000 (mgr (final (client_emits_disconnected connected))))
          (final (client_emits_disconnected connected)).


(** [started] after a second [start()]. *)
Definition started_twice : World := final (start started).

(** The manager's state invariant behind the unguarded [epoch.value()]
    reads: a current package that is present carries an epoch. *)
Definition currentWp_has_epoch (pm : PoolManager) : Prop :=
  present (m_currentWp pm) = true -> has_value (epoch (m_currentWp pm)) = true.

(** A member function keeps a property of the manager: whichever way the
    call ends, the property holds of the manager it leaves behind. *)
Definition preserves {A} (P : PoolManager -> Prop) (m : M A) : Prop :=
  forall w, P (mgr w) -> P (mgr (final (m w))).

(** A started manager whose only endpoint is the "exit" sentinel, attempts
    used up. *)
Definition exit_exhausted : World :=
  set_mgr (set_connectionAttempt 9000
             (mgr (final (start (boot (settings_for [exit_uri]) idle_farm)))))
          (final (start (boot (settings_for [exit_uri]) idle_farm))).

(** A first job from the pool, for block 82500, carrying no epoch. *)
Definition first_job : WorkPackage :=
  {| job := "j1";
     boundary := x0f :: replicate 31 xff;
     header := replicate 32 x11;
     seed := zero;
     block_boundary := zero;
     epoch := None; block := Some 82500;
     startNonce := 0; exSizeBytes := 0; algo := "meowpow" |}.

(** What can happen to a manager: the public member functions, a turn of
    the io service, the events of its client (a connection that is lost and
    a connection attempt that fails included), a solution from the farm,
    and its two timers. *)
Inductive call : Type :=
| Call_start
| Call_stop (polls : nat)
| Call_addConnection (u : URI)
| Call_removeConnection (idx : Z)
| Call_setActiveConnection (spurious : bool) (idx : Z)
| Call_setActiveConnection_str (spurious : bool) (connstring : string)
| Io_turn
| Client_connected (endpoint : string)
| Client_work (wp : WorkPackage)
| Client_accepted (delay minerIdx : Z) (stale : bool)
| Client_rejected (delay minerIdx : Z)
| Farm_solution (sol : Solution)
| Farm_restart
| Timer_failover (ec : bool)
| Timer_submithr (ec : bool)
| Client_disconnected
| Client_connect_failed.

Definition perform (c : call) (w : World) : World :=
  match c with
  | Call_start => final (start w)
  | Call_stop polls => final (stop polls w)
  | Call_addConnection u => final (addConnection u w)
  | Call_removeConnection idx => final (removeConnection idx w)
  | Call_setActiveConnection sp idx => final (setActiveConnection sp idx w)
  | Call_setActiveConnection_str sp s => final (setActiveConnection_str sp s w)
  | Io_turn => final (io_run_one w)
  | Client_connected ep => final (client_emits_connected ep w)
  | Client_work wp => final (onWorkReceived wp w)
  | Client_accepted d i s => final (onSolutionAccepted d i s w)
  | Client_rejected d i => final (onSolutionRejected d i w)
  | Farm_solution sol => final (onSolutionFound sol w)
  | Farm_restart => final (onMinerRestart w)
  | Timer_failover ec => final (failovertimer_elapsed ec w)
  | Timer_submithr ec => final (submithrtimer_elapsed ec w)
  | Client_disconnected => final (client_emits_disconnected w)
  | Client_connect_failed => final (client_fails_to_connect w)
  end.

(** The states a manager constructed over [s] can be in. *)
Inductive reachable (s : PoolSettings) (f : Farm) : World -> Prop :=
| reachable_boot : reachable s f (boot s f)
| reachable_step (c : call) (w : World) :
    reachable s f w -> reachable s f (perform c w).

(** A property of the manager that only looks at the current package. *)
Definition on_currentWp (Q : WorkPackage -> Prop) (pm : PoolManager) : Prop :=
  Q (m_currentWp pm).

(** The sample manager after its first job, and after the reconnect that
    follows a lost connection. *)
Definition working : World := final (onWorkReceived first_job connected).

Definition reconnected : World :=
  final (client_emits_connected " [10.0.0.1:3333]"
    (final (io_run_one (final (client_emits_disconnected working))))).

(** Whether a package opens a new epoch with respect to the current one:
    there is no current package, or its epoch differs. *)
Definition opens_new_epoch (cur wp : WorkPackage) : bool :=
  negb (present cur) || negb (bool_decide (epoch cur = epoch wp)).

(** The client [rotateConnect] builds for an endpoint: the variant of the
    endpoint's family, handlers bound, the endpoint set, not yet connected. *)
Definition variant_for (s : PoolSettings) (f : ProtocolFamily) : ClientVariant :=
  match f with
  | GETWORK => EthGetworkClient (noWorkTimeout s) (getWorkPollInterval s)
  | STRATUM => EthStratumClient (noWorkTimeout s) (noResponseTimeout s)
  | SIMULATION => SimulateClient (benchmarkBlock s)
  end.

Definition client_for (s : PoolSettings) (u : URI) : PoolClient :=
  {| variant := variant_for s (Family u); m_conn := Some u; m_connected := false;
     ActiveEndPoint := ""; handlers_bound := true |}.

(** The endpoint's string in capitals. *)
Definition pool_test_upper : string := "STRATUM+TCP://WORKER.RIG@POOL.TEST:3333".

Definition sample_solution : Solution :=
  {| nonce := 57005; mixHash := replicate 32 xbe; work := first_job;
     tstamp := 0; midx := 0 |}.

End PoolSamples.

End Samples.

(* ===================================================================== *)
(** ** Further notions used in the statements below *)

Module Notions.
Import UInt FixedHash Work Pool Samples.

Local Open Scope string_scope.
Local Open Scope list_scope.
Local Open Scope Z_scope.

(** How [rotateConnect] ends when it opens a connection to [u] from [w]: a
    new client for [u], handlers bound, is told to connect; the attempt is
    counted; settings, index and switches are as [w] has them. *)
Definition launched (w w' : World) (u : URI) : Prop :=
  m_connectionAttempt (mgr w') = (m_connectionAttempt (mgr w) + 1) mod 2 ^ 32
  /\ m_activeConnectionIdx (mgr w') = m_activeConnectionIdx (mgr w)
  /\ m_connectionSwitches (mgr w') = m_connectionSwitches (mgr w)
  /\ m_Settings (mgr w') = m_Settings (mgr w)
  /\ m_running (mgr w') = m_running (mgr w)
  /\ p_client (mgr w') = Some (client_for (m_Settings (mgr w)) u)
  /\ m_selectedHost (mgr w') = Host u +:+ ":" +:+ pretty (Port u)
  /\ trace w' = trace w ++
       [Note ("Selected pool " +:+ Host u +:+ ":" +:+ pretty (Port u)); ClientConnect]
  /\ m_async_pending (mgr w') = m_async_pending (mgr w)
  /\ io_queue w' = io_queue w.

(** How [rotateConnect] ends when it gives up from [w]: the miners are
    stopped, the manager no longer runs, the process is signalled; no client
    is created and the counters are as [w] has them. *)
Definition terminated (w w' : World) : Prop :=
  m_running (mgr w') = false
  /\ isMining (farm w') = false
  /\ last (trace w') = Some Raise_SIGTERM
  /\ p_client (mgr w') = p_client (mgr w)
  /\ m_connectionAttempt (mgr w') = m_connectionAttempt (mgr w)
  /\ m_activeConnectionIdx (mgr w') = m_activeConnectionIdx (mgr w)
  /\ m_connectionSwitches (mgr w') = m_connectionSwitches (mgr w)
  /\ m_Settings (mgr w') = m_Settings (mgr w).

(** A package a miner can work on: it is present and carries both the
    block number and the epoch that [workLoop] reads unguarded. *)
Definition dispatchable (wp : WorkPackage) : Prop :=
  present wp = true /\ has_value (block wp) = true /\ has_value (epoch wp) = true.

(** A call, as far as dispatch is concerned: a [Farm.setWork] must carry a
    dispatchable package, any other call is fine. *)
Definition sound_dispatch (e : effect) : Prop :=
  match e with
  | FarmSetWork wp => dispatchable wp
  | _ => True
  end.

(** A member function keeps a property of every call made so far. *)
Definition keeps_calls {A} (ok : effect -> Prop) (m : M A) : Prop :=
  forall w, Forall ok (trace w) -> Forall ok (trace (final (m w))).

(** A manager over two endpoints: started, first connection made. *)
Definition two_pools : World :=
  final (client_emits_connected " [10.0.0.1:3333]"
    (final (io_run_one
       (final (start (boot (settings_for [pool_test; backup_test]) idle_farm)))))).

(** The same manager once nothing is outstanding and the connection is
    lost: the client has told the manager, the retry is still queued. *)
Definition two_pools_lost : World := final (client_emits_disconnected two_pools).

(** [two_pools_lost] with the retries on the first endpoint used up. *)
Definition two_pools_exhausted : World :=
  set_mgr (set_connectionAttempt 9000 (mgr two_pools_lost)) two_pools_lost.

(** The first endpoint, rejected by its pool for good. *)
Definition pool_test_rejected : URI :=
  {| str := str pool_test; Host := Host pool_test; Port := Port pool_test;
     Family := Family pool_test; HostNameType := HostNameType pool_test;
     IsUnrecoverable := true |}.

(** A manager whose first of two endpoints has been marked unrecoverable,
    between the disconnect and the retry. *)
Definition two_pools_rejected : World :=
  set_mgr (set_conns [pool_test_rejected; backup_test] (mgr two_pools_lost))
          two_pools_lost.

(** The manager over two endpoints once it has moved on to the second and
    connected there. *)
Definition two_pools_on_backup : World :=
  final (client_emits_connected " [10.0.0.2:4444]"
    (final (rotateConnect two_pools_exhausted))).

End Notions.

(* ===================================================================== *)
(** ** Notions used in the statements about the search *)

Module SearchNotions.
Import UInt FixedHash Work Cuda.

Local Open Scope Z_scope.

Definition is_sync (e : event) : bool :=
  match e with StreamSynchronize _ => true | _ => false end.

(** The start nonce a kernel launch was given. *)
Definition launch_nonce (e : event) : option Z :=
  match e with LaunchKernel _ _ s _ _ => Some s | _ => None end.

(** The start nonces of the launches among some events, in order. *)
Definition launch_nonces (evs : list event) : list Z := omap launch_nonce evs.

(** A launch, if it is one, uses this kernel slot, header and target. *)
Definition launched_with (kix : Z) (hdr : h256) (target : Z) (e : event) : Prop :=
  match e with
  | LaunchKernel k _ _ h t => k = kix /\ h = hdr /\ t = target
  | _ => True
  end.

(** The start nonce of the [j]-th batch of a search that starts at [nonce0]
    with batches of [B] nonces. *)
Definition nonce_at (nonce0 B : Z) (j : Z) : Z := wrap64 (nonce0 + j * B).

(** How many of the events satisfy [p]. *)
Definition how_many (p : event -> bool) (evs : list event) : Z :=
  Z.of_nat (length (List.filter p evs)).

(** Two miners that differ at most in the new-work flag. *)
Definition same_config (m0 m : CUDAMiner) : Prop :=
  with_new_work false m = with_new_work false m0.

(** What holds of the locals of [search] after [k] turns of its loops (the
    priming loop and the inner loop alike), [n] of which launched a kernel:
    the turns that launched are the first [n], and all turns so far if the
    search is not done; the next start nonce is the one of batch [k]; the
    launches so far were given the start nonces of the batches [0 .. n-1], in
    order, and the kernel slot, header and target of the miner; and no more
    than four solutions were submitted per stream synchronised. *)
Definition run_inv (nonce0 : Z) (hdr : h256) (m0 : CUDAMiner)
    (st : locals) (k n : nat) : Prop :=
  (n <= k)%nat
  /\ (done st = false -> n = k)
  /\ same_config m0 (miner st)
  /\ start_nonce st = nonce_at nonce0 (m_batch_size m0) (Z.of_nat k)
  /\ launch_nonces (out st)
     = nonce_at nonce0 (m_batch_size m0) <$> seqZ 0 (Z.of_nat n)
  /\ Forall (launched_with (m_kernelExecIx m0) hdr (m_current_target m0)) (out st)
  /\ how_many is_submit (out st) <= 4 * how_many is_sync (out st).

(** The kernels report results whose [gid] is below [B] in this turn of the
    search loop. *)
Definition gids_below (B : Z) (r : round_obs) : Prop :=
  forall i, Forall (fun res => 0 <= gid res < B) (result (so_buffer (ro_stream r i))).

(** A submission, if [e] is one, is for the job [w], by the miner [ix], with
    a nonce inside one of the first [n] batches of [B] nonces from [nonce0]. *)
Definition in_launched_batch (nonce0 B : Z) (n : nat) (w : WorkPackage) (ix : Z)
    (e : event) : Prop :=
  match e with
  | SubmitProof sol =>
      (exists j g, 0 <= j < Z.of_nat n /\ 0 <= g < B
                   /\ nonce sol = wrap64 (nonce_at nonce0 B j + g))
      /\ work sol = w /\ midx sol = ix
  | _ => True
  end.

(** Whether new work or a pause is seen at the top of a turn of the search
    loop. *)
Definition interrupts (m : CUDAMiner) (r : round_obs) : bool :=
  m_new_work m || ro_kicked r || ro_paused r.

(** A turn of the search loop in which two results are waiting in the
    buffer of each stream and a stop is requested at the bottom. *)
Definition found_round : round_obs :=
  {| ro_kicked := false; ro_paused := false;
     ro_stream := fun _ =>
       {| so_buffer := {| count := 2;
                          result := [ {| gid := 7; mix := replicate 32 xaa |};
                                      {| gid := 9; mix := replicate 32 xbb |} ] |};
          so_shouldStop := false; so_now := 5 |};
     ro_shouldStop := true |}.

(** A turn of the search loop in which nothing happens: no new work, no
    pause, no stop request, empty buffers. *)
Definition calm_round : round_obs :=
  {| ro_kicked := false; ro_paused := false;
     ro_stream := fun _ => {| so_buffer := {| count := 0; result := [] |};
                              so_shouldStop := false; so_now := 1 |};
     ro_shouldStop := false |}.

(** The miner of device 0 with the default settings, and the upper 64 bits
    of the boundary of [harder_job]. *)
Definition miner0 : CUDAMiner := construct 0 default_settings.

Definition harder_target : Z := 72057594037927935.

End SearchNotions.

(* ===================================================================== *)
(** ** Notions used in the statements about the kernel slots *)

Module KernelNotions.
Import UInt Kernels.

Local Open Scope Z_scope.

(** The state [workLoop] starts from: no period compiled or announced, no
    compile thread, and the two indices as the constructor left them. *)
Definition at_entry (execIx compIx : Z) : KernelState :=
  {| m_kernelExecIx := execIx; m_kernelCompIx := compIx;
     m_nextProgpowPeriod := 0; old_period_seed := UINT64_MAX;
     m_kernel := fun _ => None; m_compileThread := NoThread; klog := [] |}.

(** The slots are in phase for the period [P]: the slot the search launches
    from holds the kernel of [P], and keeps it while the compilation under
    way fills the other slot with the kernel of [P + 1]; the next
    compilation will go to the slot in use now. *)
Definition in_phase (P : Z) (st : KernelState) : Prop :=
  old_period_seed st = P
  /\ m_nextProgpowPeriod st = P + 1
  /\ m_compileThread st = Running Compiles
  /\ exec_kernel st = Some P
  /\ exec_kernel (finished st) = Some P
  /\ m_kernel (finished st) (Z.lxor (m_kernelExecIx st) 1) = Some (P + 1)
  /\ m_kernelCompIx (finished st) = m_kernelExecIx st.

(** The slots are out of phase for the period [Q]: the slot the search
    launches from does not hold the kernel of [Q], and the compilation under
    way overwrites it with the kernel of [Q + 1]; the kernel of [Q] is in
    the other slot. *)
Definition out_of_phase (Q : Z) (st : KernelState) : Prop :=
  old_period_seed st = Q
  /\ m_nextProgpowPeriod st = Q + 1
  /\ m_compileThread st = Running Compiles
  /\ exec_kernel st <> Some Q
  /\ exec_kernel (finished st) = Some (Q + 1)
  /\ m_kernel (finished st) (Z.lxor (m_kernelExecIx st) 1) = Some Q
  /\ m_kernelCompIx (finished st) = Z.lxor (m_kernelExecIx st) 1.

(** The state after the first job, of period 13, from indices 1 and 0, and
    after a job of period 20 has followed. *)
Definition after_first_job : result KernelState :=
  workLoop_period 13 Compiles Compiles Compiles (at_entry 1 0).

Definition in_period_13 : KernelState :=
  match after_first_job with Ok st => st | _ => at_entry 1 0 end.

Definition in_period_20 : KernelState :=
  match workLoop_period 20 Compiles Compiles Compiles in_period_13 with
  | Ok st => st
  | _ => at_entry 1 0
  end.

End KernelNotions.
(* ===================================================================== *)
(** ** Properties of hashes and of the effective boundary *)

Section FixedHashFacts.
Import FixedHash.

Lemma byte_val_range (b : byte) : 0 <= byte_val b < 256.
Proof.
  unfold byte_val. pose proof (Byte.to_N_bounded b) as Hb.
  lia.
Qed.

Lemma byte_val_inj (x y : byte) : byte_val x = byte_val y -> x = y.
Proof.
  unfold byte_val. intros H.
  assert (Hn : Byte.to_N x = Byte.to_N y) by lia.
  apply (f_equal Byte.of_N) in Hn.
  rewrite !Byte.of_to_N in Hn. congruence.
Qed.

Lemma fold_be_acc (h : h256) (acc : Z) :
  fold_left (fun a b => a * 256 + byte_val b) h acc
  = acc * 256 ^ Z.of_nat (length h) + fromBigEndian h.
Proof.
  unfold fromBigEndian. revert acc.
  induction h as [|b h IH]; intros acc; cbn [fold_left length].
  - lia.
  - rewrite (IH (acc * 256 + byte_val b)), (IH (0 * 256 + byte_val b)).
    replace (Z.of_nat (S (length h))) with (Z.of_nat (length h) + 1) by lia.
    rewrite Z.pow_add_r by lia. lia.
Qed.

Lemma fromBigEndian_cons (b : byte) (h : h256) :
  fromBigEndian (b :: h) = byte_val b * 256 ^ Z.of_nat (length h) + fromBigEndian h.
Proof.
  unfold fromBigEndian at 1. cbn [fold_left].
  rewrite fold_be_acc. lia.
Qed.

Lemma fromBigEndian_range (h : h256) :
  0 <= fromBigEndian h < 256 ^ Z.of_nat (length h).
Proof.
  induction h as [|b h IH].
  - cbn. lia.
  - rewrite fromBigEndian_cons.
    pose proof (byte_val_range b) as Hb.
    replace (Z.of_nat (length (b :: h))) with (Z.of_nat (length h) + 1)
      by (simpl length; lia).
    rewrite Z.pow_add_r by lia.
    assert (0 < 256 ^ Z.of_nat (length h)) by (apply Z.pow_pos_nonneg; lia).
    nia.
Qed.

(** The bytewise order of two hashes of one width is the numeric order of
    their big-endian values. *)
Lemma ltb_numeric (a : h256) :
  forall b : h256, length a = length b ->
    ltb a b = (fromBigEndian a <? fromBigEndian b).
Proof.
  induction a as [|x a IH]; intros [|y b] Hlen; simpl in Hlen; try discriminate.
  - reflexivity.
  - injection Hlen as Hlen.
    rewrite !fromBigEndian_cons, <- Hlen.
    pose proof (fromBigEndian_range a) as Ha.
    pose proof (fromBigEndian_range b) as Hb. rewrite <- Hlen in Hb.
    pose proof (byte_val_range x) as Hx.
    pose proof (byte_val_range y) as Hy.
    set (P := 256 ^ Z.of_nat (length a)) in *.
    simpl ltb.
    destruct (byte_val x <? byte_val y) eqn:Exy.
    + apply Z.ltb_lt in Exy. symmetry. apply Z.ltb_lt. nia.
    + apply Z.ltb_ge in Exy.
      destruct (byte_val y <? byte_val x) eqn:Eyx.
      * apply Z.ltb_lt in Eyx. symmetry. apply Z.ltb_ge. nia.
      * apply Z.ltb_ge in Eyx.
        assert (Heq : byte_val x = byte_val y) by lia.
        rewrite Heq, (IH b Hlen).
        destruct (fromBigEndian a <? fromBigEndian b) eqn:E; symmetry.
        -- apply Z.ltb_lt in E. apply Z.ltb_lt. lia.
        -- apply Z.ltb_ge in E. apply Z.ltb_ge. lia.
Qed.

Lemma fromBigEndian_zero : fromBigEndian zero = 0.
Proof. reflexivity. Qed.

Lemma eqb_true (a : h256) : forall b : h256, eqb a b = true <-> a = b.
Proof.
  induction a as [|x a IH]; intros [|y b]; simpl; split; intros H;
    try discriminate; try reflexivity.
  - apply andb_true_iff in H as [Hxy Hab].
    apply Byte.byte_dec_bl in Hxy. apply IH in Hab. congruence.
  - injection H as -> ->. apply andb_true_iff. split.
    + now apply Byte.byte_dec_lb.
    + now apply IH.
Qed.

Lemma eqb_false (a b : h256) : eqb a b = false <-> a <> b.
Proof.
  rewrite <- (eqb_true a b). destruct (eqb a b); split; congruence.
Qed.

End FixedHashFacts.

(* ===================================================================== *)
(** ** The effective boundary of a work package *)

Section EffectiveBoundary.
Import FixedHash Work Samples.

Lemma wf_same_length (a b : h256) : wf a -> wf b -> length a = length b.
Proof. unfold wf. congruence. Qed.

(** C2. For every work package whose two boundaries are 32-byte hashes,
    [get_boundary] returns one of the two fields, and the one it returns is
    the numeric maximum of [boundary] and [block_boundary] read as 256-bit
    unsigned integers; when [block_boundary] is zero the result is
    [boundary]. *)
Theorem get_boundary_is_numeric_max (w : WorkPackage) :
  wf (boundary w) -> wf (block_boundary w) ->
  fromBigEndian (get_boundary w)
    = Z.max (fromBigEndian (boundary w)) (fromBigEndian (block_boundary w))
  /\ (get_boundary w = boundary w \/ get_boundary w = block_boundary w)
  /\ (block_boundary w = zero -> get_boundary w = boundary w).
Proof.
  intros Hb Hbb. unfold get_boundary.
  pose proof (fromBigEndian_range (boundary w)) as Rb.
  destruct (eqb (block_boundary w) zero) eqn:Ez.
  - apply eqb_true in Ez. rewrite Ez, fromBigEndian_zero.
    repeat split; auto. lia.
  - apply eqb_false in Ez.
    rewrite (ltb_numeric _ _ (wf_same_length _ _ Hb Hbb)).
    destruct (fromBigEndian (boundary w) <? fromBigEndian (block_boundary w)) eqn:El.
    + apply Z.ltb_lt in El. repeat split; auto; try lia; congruence.
    + apply Z.ltb_ge in El. repeat split; auto; try lia; congruence.
Qed.


Lemma get_boundary_is_numeric_max_witness :
  fromBigEndian (get_boundary sample_boundaries)
    = Z.max (fromBigEndian (boundary sample_boundaries))
            (fromBigEndian (block_boundary sample_boundaries))
  /\ (get_boundary sample_boundaries = boundary sample_boundaries
      \/ get_boundary sample_boundaries = block_boundary sample_boundaries)
  /\ (block_boundary sample_boundaries = zero ->
      get_boundary sample_boundaries = boundary sample_boundaries).
Proof.
  apply (get_boundary_is_numeric_max sample_boundaries); reflexivity.
Defined.

End EffectiveBoundary.

(* ===================================================================== *)
(** ** The search of a job at difficulty one *)

Section SearchSkip.
Import UInt FixedHash Work Cuda Samples.


Lemma skip_events_quiet (m : CUDAMiner) (hdr : h256) :
  Forall (fun e => is_launch e = false /\ is_submit e = false) (skip_events m hdr).
Proof.
  unfold skip_events.
  destruct (m_current_target m =? UINT64_MAX); repeat constructor.
Qed.

Lemma search_max_target (m : CUDAMiner) (hdr : h256) (nonce0 : Z)
    (w : WorkPackage) (obs : list round_obs) :
  search m hdr UINT64_MAX nonce0 w obs = Some (skip_miner m hdr, skip_events m hdr).
Proof.
  unfold search, skip_miner, skip_events.
  cbn [m_current_target with_header].
  destruct (m_current_target m =? UINT64_MAX); reflexivity.
Qed.

(** C9. For every job whose effective boundary has its upper 64 bits all
    set, whatever the miner's state and whatever happens around it, [search]
    returns at once: it writes the header (and the target when that changed)
    and logs the skip; no kernel is launched and no solution is submitted. *)
Theorem search_job_skips_at_max_target (m : CUDAMiner) (w : WorkPackage)
    (obs : list round_obs) :
  upper64OfBoundary w = UINT64_MAX ->
  exists m' evs,
    search_job m w obs = Some (m', evs)
    /\ evs = skip_events m (header w)
    /\ Forall (fun e => is_launch e = false /\ is_submit e = false) evs.
Proof.
  intros Hmax. unfold search_job. rewrite Hmax, search_max_target.
  eexists _, _. split; [reflexivity|]. split; [reflexivity|].
  apply skip_events_quiet.
Qed.


Lemma search_job_skips_at_max_target_witness :
  exists m' evs,
    search_job (construct 0 default_settings) easiest_job [] = Some (m', evs)
    /\ evs = skip_events (construct 0 default_settings) (header easiest_job)
    /\ Forall (fun e => is_launch e = false /\ is_submit e = false) evs.
Proof.
  apply (search_job_skips_at_max_target (construct 0 default_settings) easiest_job []).
  vm_compute. reflexivity.
Defined.


(** For contrast: the same miner given a harder job launches one kernel per
    stream before it looks at anything else. *)
Example search_job_launches_below_max :
  option_map (fun r => List.length (List.filter is_launch (snd r)))
    (search_job (construct 0 default_settings) harder_job [quiet_stop_round])
  = Some 2%nat.
Proof. vm_compute. reflexivity. Qed.

End SearchSkip.

(* ===================================================================== *)
(** ** The pool manager *)

Section PoolFacts.
Import UInt FixedHash Work Pool Samples.

Local Open Scope string_scope.
Local Open Scope list_scope.
Local Open Scope Z_scope.

#[local] Arguments wrap32 : simpl never.
#[local] Arguments incr32 : simpl never.
#[local] Arguments Ethash.kEpoch_length : simpl never.
#[local] Arguments get_boundary : simpl never.
#[local] Arguments present : simpl never.
#[local] Arguments zero : simpl never.
#[local] Arguments pretty : simpl never.

Lemma present_set_epoch (e : option Z) (wp : WorkPackage) :
  present (set_epoch e wp) = present wp.
Proof. reflexivity. Qed.

Lemma get_boundary_set_epoch (e : option Z) (wp : WorkPackage) :
  get_boundary (set_epoch e wp) = get_boundary wp.
Proof. reflexivity. Qed.

Lemma present_set_header_zero (wp : WorkPackage) :
  present (set_header zero wp) = false.
Proof. reflexivity. Qed.

Lemma has_value_Some {A} (o : option A) :
  has_value o = true -> exists a, o = Some a.
Proof. destruct o; [eauto | discriminate]. Qed.

Create Rewrite HintDb wp.
#[local] Hint Rewrite present_set_epoch get_boundary_set_epoch
  present_set_header_zero : wp.

(** Unfold the monad, then alternate between computing and rewriting with
    the equations at hand. *)
Ltac monad :=
  cbv [bind ret gets modify emit post when throw spin null_deref value client modify_client
       getsFarm modifyFarm Farm_start Farm_stop Farm_pause Farm_resume Farm_shuffle
       Farm_setWork Farm_accountSolution client_connect client_disconnect
       client_setConnection client_unsetConnection client_getConnection
       client_submitSolution client_submitHashrate setClientHandlers];
  cbn.

Ltac use_eqs :=
  repeat match goal with
         | H : ?x = _ |- context [?x] => rewrite H
         end.

Ltac crunch := repeat (progress (cbn; autorewrite with wp; use_eqs)).

(** *** Solutions coming back from the farm *)

(** C8. For every solution the farm reports, in every state: the callback
    returns false and leaves the manager, the farm and the io queue as they
    were; it makes exactly one call, which is [submitSolution] on the client
    when there is a client and it is connected, and the "wasted" note
    otherwise.  Nothing is queued and nothing is accounted. *)
Theorem onSolutionFound_submits_iff_connected (sol : Solution) (w : World) :
  exists w',
    onSolutionFound sol w = Done false w'
    /\ mgr w' = mgr w /\ farm w' = farm w /\ io_queue w' = io_queue w
    /\ trace w' = trace w ++
         [match p_client (mgr w) with
          | Some c => if m_connected c then ClientSubmitSolution sol
                      else NoteWasted (nonce sol)
          | None => NoteWasted (nonce sol)
          end].
Proof.
  unfold onSolutionFound, client_isConnected. monad.
  destruct (p_client (mgr w)) as [c|] eqn:Hc; [destruct (m_connected c)|];
    crunch; eexists; repeat split; reflexivity.
Qed.

(** *** start *)

(** The second [start()] on the sample manager returns normally; it counts a
    connection switch and posts a second [rotateConnect]. *)
Lemma start_twice_is_not_refused :
  m_running (mgr started) = true
  /\ start started = Done tt started_twice
  /\ m_connectionSwitches (mgr started) = 1
  /\ m_connectionSwitches (mgr started_twice) = 2
  /\ io_queue started = [RotateConnect]
  /\ io_queue started_twice = [RotateConnect; RotateConnect].
Proof. vm_compute. repeat split; reflexivity. Qed.

(** C3, as the code has it. [start()] has no guard: on a manager that is
    already running it returns normally, leaves [running] and sets
    [async_pending], counts one more connection switch and posts one more
    [rotateConnect]; the attempt counter, the active index, the connection
    list and the client are untouched. *)
Theorem start_on_running_manager (w : World) :
  m_running (mgr w) = true ->
  exists w',
    start w = Done tt w'
    /\ m_running (mgr w') = true
    /\ m_async_pending (mgr w') = true
    /\ m_connectionSwitches (mgr w') = incr32 (m_connectionSwitches (mgr w))
    /\ io_queue w' = io_queue w ++ [RotateConnect]
    /\ m_connectionAttempt (mgr w') = m_connectionAttempt (mgr w)
    /\ m_activeConnectionIdx (mgr w') = m_activeConnectionIdx (mgr w)
    /\ conns (mgr w') = conns (mgr w)
    /\ p_client (mgr w') = p_client (mgr w).
Proof.
  intros _. unfold start. monad.
  eexists. repeat split; reflexivity.
Qed.

Lemma start_on_running_manager_witness :
  exists w',
    start started = Done tt w'
    /\ m_running (mgr w') = true
    /\ m_async_pending (mgr w') = true
    /\ m_connectionSwitches (mgr w') = incr32 (m_connectionSwitches (mgr started))
    /\ io_queue w' = io_queue started ++ [RotateConnect]
    /\ m_connectionAttempt (mgr w') = m_connectionAttempt (mgr started)
    /\ m_activeConnectionIdx (mgr w') = m_activeConnectionIdx (mgr started)
    /\ conns (mgr w') = conns (mgr started)
    /\ p_client (mgr w') = p_client (mgr started).
Proof.
  apply (start_on_running_manager started). vm_compute. reflexivity.
Defined.

(** *** setActiveConnection *)

(** With operations outstanding, an index past the end of the list is
    refused for being out of bounds; the exchange on [async_pending] is not
    reached. *)
Lemma setActiveConnection_pending_out_of_bounds :
  m_async_pending (mgr started) = true
  /\ setActiveConnection false 5 started
     = Throw (runtime_error "Index out-of bounds.") started
  /\ runtime_error "Index out-of bounds."
     <> runtime_error "Outstanding operations. Retry ...".
Proof.
  split; [reflexivity|].
  split; [vm_compute; reflexivity | discriminate].
Qed.

(** C4, as the code has it. While [async_pending] is set,
    [setActiveConnection(idx)] throws and leaves the whole state as it was,
    whether or not the weak exchange would fail on its own: for an index
    inside the list the exchange fails and the error is "Outstanding
    operations. Retry ..."; for an index past the end the bounds check comes
    first and the error is "Index out-of bounds.". *)
Theorem setActiveConnection_fails_while_pending (spurious : bool) (idx : Z) (w : World) :
  m_async_pending (mgr w) = true ->
  setActiveConnection spurious idx w
  = Throw (runtime_error (if size (conns (mgr w)) <=? idx
                          then "Index out-of bounds."
                          else "Outstanding operations. Retry ...")) w.
Proof.
  intros Hp. unfold setActiveConnection, setActiveConnectionCommon,
    compare_exchange_weak_async_pending. monad.
  destruct (size (conns (mgr w)) <=? idx); crunch; reflexivity.
Qed.

Lemma setActiveConnection_fails_while_pending_witness :
  setActiveConnection false 0 started
  = Throw (runtime_error (if size (conns (mgr started)) <=? 0
                          then "Index out-of bounds."
                          else "Outstanding operations. Retry ...")) started.
Proof.
  apply (setActiveConnection_fails_while_pending false 0 started).
  vm_compute. reflexivity.
Defined.

(** With nothing outstanding the same call goes through: on a manager over
    two endpoints, connected to the first, a request for the second counts a
    switch, moves the index, resets the attempts and disconnects the
    client. *)
Example setActiveConnection_switches_when_idle :
  let w := final (client_emits_connected " [10.0.0.1:3333]"
             (final (io_run_one
                (final (start (boot (settings_for [pool_test; backup_test]) idle_farm)))))) in
  let w' := final (setActiveConnection false 1 w) in
  setActiveConnection false 1 w = Done tt w'
  /\ m_activeConnectionIdx (mgr w') = 1
  /\ m_connectionAttempt (mgr w') = 0
  /\ m_connectionSwitches (mgr w') = 2
  /\ m_async_pending (mgr w') = true
  /\ io_queue w' = [ClientDisconnected].
Proof. vm_compute. repeat split; reflexivity. Qed.

(** Asking for the sample endpoint by its string, in capitals, while
    operations are outstanding: the endpoint is found, and the refusal comes
    from the exchange on [async_pending]. *)
Lemma setActiveConnection_str_pending_match :
  find_iequals (conns (mgr started)) pool_test_upper 0 = Some 0
  /\ setActiveConnection_str false pool_test_upper started
     = Throw (runtime_error "Outstanding operations. Retry ...") started
  /\ runtime_error "Outstanding operations. Retry ..."
     <> runtime_error "Not found.".
Proof.
  split; [vm_compute; reflexivity|].
  split; [vm_compute; reflexivity | discriminate].
Qed.

(** C7, as the code has it. [setActiveConnection(connstring)] never returns
    normally.  Without a matching endpoint it throws "Not found." and
    changes nothing.  With a match, [setActiveConnectionCommon] runs first:
    if [async_pending] is set, or the weak exchange fails, it throws
    "Outstanding operations. Retry ..." and changes nothing; if the match is
    the active endpoint the flag is taken and released and "Not found." is
    thrown from an unchanged state; otherwise the switch is carried out
    (one more connection switch, the index moved, the attempts reset, the
    client told to disconnect) and "Not found." is thrown all the same.  In
    that last case a manager without a client object dereferences the empty
    pointer. *)
Theorem setActiveConnection_str_never_returns (spurious : bool) (connstring : string)
    (w : World) :
  let r := setActiveConnection_str spurious connstring w in
  match find_iequals (conns (mgr w)) connstring 0 with
  | None => r = Throw (runtime_error "Not found.") w
  | Some idx =>
      if m_async_pending (mgr w) || spurious then
        r = Throw (runtime_error "Outstanding operations. Retry ...") w
      else if idx =? m_activeConnectionIdx (mgr w) then
        r = Throw (runtime_error "Not found.") w
      else
        exists w',
          m_activeConnectionIdx (mgr w') = idx
          /\ m_connectionAttempt (mgr w') = 0
          /\ m_connectionSwitches (mgr w') = incr32 (m_connectionSwitches (mgr w))
          /\ m_async_pending (mgr w') = true
          /\ match p_client (mgr w) with
             | Some c =>
                 r = Throw (runtime_error "Not found.") w'
                 /\ trace w' = trace w ++ [ClientDisconnect]
             | None => r = NullDeref w'
             end
  end.
Proof.
  intros r. subst r.
  unfold setActiveConnection_str, setActiveConnectionCommon,
    compare_exchange_weak_async_pending. monad.
  destruct (find_iequals (conns (mgr w)) connstring 0) as [idx|]; [|reflexivity].
  destruct (m_async_pending (mgr w)) eqn:Hp; crunch; [reflexivity|].
  destruct spurious; crunch; [reflexivity|].
  destruct (idx =? m_activeConnectionIdx (mgr w)) eqn:Hi; crunch.
  - destruct w as [pm f q t]; destruct pm; cbn in *; subst; reflexivity.
  - destruct (p_client (mgr w)) as [c|] eqn:Hc.
    + destruct (m_connected c); crunch;
        eexists; repeat split; reflexivity.
    + eexists; repeat split; reflexivity.
Qed.

(** *** rotateConnect on a single endpoint *)

(** With the retries used up on the only endpoint: a manager whose client is
    connected is left alone by [rotateConnect] (the attempts stay at 9000 and
    no connection is opened); a manager whose client is not connected comes
    out of [rotateConnect] with one attempt counted; and a manager whose only
    endpoint is the "exit" sentinel retries nothing and stops running. *)
Lemma rotateConnect_single_endpoint_counter :
  conns (mgr connected_exhausted) = [pool_test]
  /\ IsUnrecoverable pool_test = false
  /\ connectionMaxRetries (m_Settings (mgr connected_exhausted))
     <= m_connectionAttempt (mgr connected_exhausted)
  /\ rotateConnect connected_exhausted = Done tt connected_exhausted
  /\ m_connectionAttempt (mgr connected_exhausted) = 9000
  /\ conns (mgr disconnected_exhausted) = [pool_test]
  /\ connectionMaxRetries (m_Settings (mgr disconnected_exhausted))
     <= m_connectionAttempt (mgr disconnected_exhausted)
  /\ m_connectionAttempt (mgr (final (rotateConnect disconnected_exhausted))) = 1
  /\ conns (mgr exit_exhausted) = [exit_uri]
  /\ IsUnrecoverable exit_uri = false
  /\ connectionMaxRetries (m_Settings (mgr exit_exhausted))
     <= m_connectionAttempt (mgr exit_exhausted)
  /\ p_client (mgr (final (rotateConnect exit_exhausted))) = None
  /\ m_running (mgr (final (rotateConnect exit_exhausted))) = false.
Proof.
  repeat split; try reflexivity; vm_compute; discriminate.
Qed.

(** The guard at the top of [rotateConnect]. *)
Lemma rotateConnect_connected_noop (w : World) :
  client_isConnected (mgr w) = true -> rotateConnect w = Done tt w.
Proof. intros H. unfold rotateConnect. cbv [bind gets ret]. now rewrite H. Qed.

Lemma size_singleton {A} (x : A) : size [x] = 1.
Proof. reflexivity. Qed.

Lemma at_singleton {A} (x : A) (idx : Z) (w : World) :
  idx < 1 -> at_ [x] idx w = Done x w.
Proof.
  intros H. unfold at_.
  replace (Z.to_nat idx) with 0%nat by lia. reflexivity.
Qed.

(** The first half on a single recoverable endpoint with the retries used
    up: the attempts are reset, the index is brought into bounds, nothing
    else moves. *)
Lemma rotate_select_single_endpoint (w : World) (u : URI) :
  conns (mgr w) = [u] ->
  IsUnrecoverable u = false ->
  connectionMaxRetries (m_Settings (mgr w)) <= m_connectionAttempt (mgr w) ->
  rotate_select w
  = Done tt (set_mgr (set_connectionAttempt 0
                        (set_activeConnectionIdx
                           (if 1 <=? m_activeConnectionIdx (mgr w) then 0
                            else m_activeConnectionIdx (mgr w))
                           (mgr w))) w).
Proof.
  intros Hl Hu Hmax. unfold rotate_select.
  apply Z.leb_le in Hmax.
  cbv [bind gets when modify ret]. rewrite Hl, size_singleton.
  destruct (1 <=? m_activeConnectionIdx (mgr w)) eqn:Hidx; cbn.
  - rewrite at_singleton by lia. cbn. rewrite Hu, Hmax. reflexivity.
  - apply Z.leb_gt in Hidx. rewrite at_singleton by assumption.
    rewrite Hu, Hmax. cbn.
    destruct w as [pm f q t]; destruct pm; reflexivity.
Qed.

(** The second half on a single usable endpoint: a client for it is
    created and told to connect, and the attempt is counted. *)
Lemma rotate_launch_single_endpoint (w : World) (u : URI) :
  conns (mgr w) = [u] ->
  m_activeConnectionIdx (mgr w) < 1 ->
  Host u <> "exit" ->
  exists w',
    rotate_launch w = Done tt w'
    /\ m_connectionAttempt (mgr w') = incr32 (m_connectionAttempt (mgr w))
    /\ m_activeConnectionIdx (mgr w') = m_activeConnectionIdx (mgr w)
    /\ m_connectionSwitches (mgr w') = m_connectionSwitches (mgr w)
    /\ conns (mgr w') = [u]
    /\ m_running (mgr w') = m_running (mgr w)
    /\ p_client (mgr w') = Some (client_for (m_Settings (mgr w)) u)
    /\ trace w' = trace w ++
         [Note ("Selected pool " +:+ Host u +:+ ":" +:+ pretty (Port u)); ClientConnect].
Proof.
  intros Hl Hidx Hexit.
  assert (Hne : String.eqb (Host u) "exit" = false)
    by (apply String.eqb_neq; exact Hexit).
  destruct w as [pm f q t]; destruct pm as [s r st ap ca sh cs ai wp ft ht pc ec];
    destruct s as [l gw nw nr pf rh hi hid mr bb].
  cbn in Hl, Hidx. subst l.
  unfold rotate_launch, selected_is_usable. monad.
  rewrite size_singleton. cbn.
  rewrite !at_singleton by exact Hidx. cbn. rewrite Hne. cbn.
  unfold client_for, variant_for.
  destruct (Family u) eqn:Hf;
    repeat (progress (cbn; rewrite ?at_singleton by exact Hidx; rewrite ?Hf));
    eexists; repeat split; try reflexivity;
    cbn; rewrite <- app_assoc; reflexivity.
Qed.

(** C5, as the code has it. When [rotateConnect] runs while no client is
    connected, with the retries used up on a list of exactly one endpoint
    that is recoverable and is not the "exit" sentinel: the choice of
    endpoint resets the attempts to 0; the retry that follows counts as the
    first attempt, so the counter is 1 on return; the active index is
    unchanged if it was in bounds (and 0 otherwise); the connection switches
    and the list are unchanged; a new client for that same endpoint is
    created and told to connect. *)
Theorem rotateConnect_single_endpoint_retries (w : World) (u : URI) :
  client_isConnected (mgr w) = false ->
  conns (mgr w) = [u] ->
  IsUnrecoverable u = false ->
  connectionMaxRetries (m_Settings (mgr w)) <= m_connectionAttempt (mgr w) ->
  Host u <> "exit" ->
  exists w1 w',
    rotate_select w = Done tt w1
    /\ m_connectionAttempt (mgr w1) = 0
    /\ rotateConnect w = Done tt w'
    /\ m_connectionAttempt (mgr w') = 1
    /\ m_activeConnectionIdx (mgr w')
       = (if 1 <=? m_activeConnectionIdx (mgr w) then 0 else m_activeConnectionIdx (mgr w))
    /\ m_connectionSwitches (mgr w') = m_connectionSwitches (mgr w)
    /\ conns (mgr w') = [u]
    /\ m_running (mgr w') = m_running (mgr w)
    /\ p_client (mgr w') = Some (client_for (m_Settings (mgr w)) u)
    /\ trace w' = trace w ++
         [Note ("Selected pool " +:+ Host u +:+ ":" +:+ pretty (Port u)); ClientConnect].
Proof.
  intros Hc Hl Hu Hmax Hexit.
  pose proof (rotate_select_single_endpoint w u Hl Hu Hmax) as Hsel.
  set (w1 := set_mgr _ w) in Hsel.
  assert (Hidx : m_activeConnectionIdx (mgr w1) < 1).
  { subst w1. cbn. destruct (1 <=? m_activeConnectionIdx (mgr w)) eqn:E; [lia|].
    apply Z.leb_gt in E. exact E. }
  destruct (rotate_launch_single_endpoint w1 u Hl Hidx Hexit)
    as (w' & Hrun & Hatt & Hi & Hsw & Hl' & Hr & Hcl & Htr).
  exists w1, w'. split; [exact Hsel|]. split; [reflexivity|].
  split.
  { unfold rotateConnect. cbv [bind gets ret]. rewrite Hc.
    cbv [bind] in Hsel |- *. rewrite Hsel. exact Hrun. }
  repeat split; assumption.
Qed.

Lemma rotateConnect_single_endpoint_retries_witness :
  exists w1 w',
    rotate_select disconnected_exhausted = Done tt w1
    /\ m_connectionAttempt (mgr w1) = 0
    /\ rotateConnect disconnected_exhausted = Done tt w'
    /\ m_connectionAttempt (mgr w') = 1
    /\ m_activeConnectionIdx (mgr w')
       = (if 1 <=? m_activeConnectionIdx (mgr disconnected_exhausted) then 0
          else m_activeConnectionIdx (mgr disconnected_exhausted))
    /\ m_connectionSwitches (mgr w') = m_connectionSwitches (mgr disconnected_exhausted)
    /\ conns (mgr w') = [pool_test]
    /\ m_running (mgr w') = m_running (mgr disconnected_exhausted)
    /\ p_client (mgr w')
       = Some (client_for (m_Settings (mgr disconnected_exhausted)) pool_test)
    /\ trace w' = trace disconnected_exhausted ++
         [Note ("Selected pool " +:+ Host pool_test +:+ ":" +:+ pretty (Port pool_test));
          ClientConnect].
Proof.
  apply (rotateConnect_single_endpoint_retries disconnected_exhausted pool_test).
  - reflexivity.
  - reflexivity.
  - reflexivity.
  - vm_compute. discriminate.
  - vm_compute. discriminate.
Defined.

(** A list that holds only the "exit" sentinel: nothing is retried; the
    miners are left alone (they are not mining), the manager stops running
    and the process is signalled. *)
Example rotateConnect_exit_sentinel :
  let w' := final (rotateConnect exit_exhausted) in
  m_running (mgr w') = false
  /\ p_client (mgr w') = None
  /\ m_connectionAttempt (mgr w') = 0
  /\ trace w' = [Note "'exit' failover just got hit. Exiting..."; Raise_SIGTERM].
Proof. vm_compute. repeat split; reflexivity. Qed.

(** *** Work received from the pool *)

Lemma epoch_from_block (b : Z) :
  0 <= b < 2 ^ 32 -> wrap32 (b / Ethash.kEpoch_length) = b / 7500.
Proof.
  intros Hb. unfold wrap32, Ethash.kEpoch_length. apply Z.mod_small.
  split; [apply Z.div_pos; lia|]. apply Z.div_lt_upper_bound; lia.
Qed.

Lemma onWorkReceived_rejects (wp : WorkPackage) (w : World) :
  present wp = false \/ block wp = None ->
  onWorkReceived wp w
  = Done wp (set_trace (trace w ++ [Warn "Invalid work package received"]) w).
Proof.
  intros H. unfold onWorkReceived.
  replace (negb (present wp) || negb (has_value (block wp))) with true; [reflexivity|].
  destruct H as [-> | ->]; [reflexivity|]. cbn. now rewrite orb_true_r.
Qed.

(** The package [onWorkReceived] keeps. *)
Lemma onWorkReceived_keeps (wp : WorkPackage) (w : World) (b : Z) :
  currentWp_has_epoch (mgr w) ->
  present wp = true -> block wp = Some b ->
  let wp' := match epoch wp with
             | Some _ => wp
             | None => set_epoch (Some (wrap32 (b / Ethash.kEpoch_length))) wp
             end in
  exists w',
    onWorkReceived wp w = Done wp' w'
    /\ m_currentWp (mgr w') = wp'
    /\ m_epochChanges (mgr w')
       = (if opens_new_epoch (m_currentWp (mgr w)) wp'
          then incr32 (m_epochChanges (mgr w)) else m_epochChanges (mgr w))
    /\ last (trace w') = Some (FarmSetWork wp').
Proof.
  intros Hinv Hp Hb. unfold onWorkReceived. rewrite Hp, Hb.
  cbn [negb orb has_value].
  unfold currentWp_has_epoch in Hinv. unfold opens_new_epoch.
  unfold showMiningAt.
  destruct (present (m_currentWp (mgr w))) eqn:Hcur.
  - destruct (has_value_Some _ (Hinv eq_refl)) as [ce Hce].
    destruct (epoch wp) as [we|] eqn:Hwe; monad; crunch.
    + destruct (ce =? we) eqn:He;
        [apply Z.eqb_eq in He | apply Z.eqb_neq in He];
        destruct (eqb (get_boundary (m_currentWp (mgr w))) (get_boundary wp)) eqn:Hd;
        crunch; (eexists; split; [reflexivity|]); crunch;
        rewrite ?bool_decide_eq_true_2 by congruence;
        rewrite ?bool_decide_eq_false_2 by congruence;
        repeat split; try reflexivity; apply last_snoc.
    + destruct (ce =? wrap32 (b / Ethash.kEpoch_length)) eqn:He;
        [apply Z.eqb_eq in He | apply Z.eqb_neq in He];
        destruct (eqb (get_boundary (m_currentWp (mgr w))) (get_boundary wp)) eqn:Hd;
        crunch; (eexists; split; [reflexivity|]); crunch;
        rewrite ?bool_decide_eq_true_2 by congruence;
        rewrite ?bool_decide_eq_false_2 by congruence;
        repeat split; try reflexivity; apply last_snoc.
  - destruct (epoch wp) as [we|] eqn:Hwe; monad; crunch;
      (eexists; split; [reflexivity|]); crunch;
      repeat split; try reflexivity; apply last_snoc.
Qed.

Lemma onWorkReceived_accepts (wp : WorkPackage) (w : World) (b : Z) :
  currentWp_has_epoch (mgr w) ->
  present wp = true -> block wp = Some b -> 0 <= b < 2 ^ 32 ->
  exists wp' w',
    onWorkReceived wp w = Done wp' w'
    /\ wp' = match epoch wp with
             | Some _ => wp
             | None => set_epoch (Some (b / 7500)) wp
             end
    /\ m_currentWp (mgr w') = wp'
    /\ m_epochChanges (mgr w')
       = (if opens_new_epoch (m_currentWp (mgr w)) wp'
          then incr32 (m_epochChanges (mgr w)) else m_epochChanges (mgr w))
    /\ last (trace w') = Some (FarmSetWork wp').
Proof.
  intros Hinv Hp Hb Hr.
  destruct (onWorkReceived_keeps wp w b Hinv Hp Hb) as (w' & Hrun & Hcur & Hcnt & Hlast).
  rewrite (epoch_from_block b Hr) in *.
  eexists _, w'. repeat split; eassumption.
Qed.

(** C6. For every package handed to [onWorkReceived], in every state in
    which a present current package carries an epoch, and with the block
    number within its 32 bits:
    - a package that is empty or has no block is turned away: a warning is
      logged and nothing else changes (the current package stays, nothing is
      sent to the farm);
    - any other package becomes the current package, with its epoch derived
      as block / 7500 when the pool sent none; the count of epoch changes
      goes up by one (modulo 2^32) exactly when there was no current package
      or its epoch differs from the new one, and stays as it is otherwise;
      and the last call made is [Farm.setWork] with the new current
      package. *)
Theorem onWorkReceived_replaces_current_work (wp : WorkPackage) (w : World) :
  currentWp_has_epoch (mgr w) ->
  (forall b, block wp = Some b -> 0 <= b < 2 ^ 32) ->
  (present wp = false \/ block wp = None ->
     onWorkReceived wp w
     = Done wp (set_trace (trace w ++ [Warn "Invalid work package received"]) w))
  /\ (forall b, present wp = true -> block wp = Some b ->
      exists wp' w',
        onWorkReceived wp w = Done wp' w'
        /\ wp' = match epoch wp with
                 | Some _ => wp
                 | None => set_epoch (Some (b / 7500)) wp
                 end
        /\ m_currentWp (mgr w') = wp'
        /\ m_epochChanges (mgr w')
           = (if opens_new_epoch (m_currentWp (mgr w)) wp'
              then (m_epochChanges (mgr w) + 1) mod 2 ^ 32
              else m_epochChanges (mgr w))
        /\ last (trace w') = Some (FarmSetWork wp')).
Proof.
  intros Hinv Hrange. split.
  - apply onWorkReceived_rejects.
  - intros b Hp Hb.
    exact (onWorkReceived_accepts wp w b Hinv Hp Hb (Hrange b Hb)).
Qed.

Lemma onWorkReceived_replaces_current_work_witness :
  exists wp' w',
    onWorkReceived first_job connected = Done wp' w'
    /\ wp' = set_epoch (Some (82500 / 7500)) first_job
    /\ m_currentWp (mgr w') = wp'
    /\ m_epochChanges (mgr w') = (m_epochChanges (mgr connected) + 1) mod 2 ^ 32
    /\ m_epochChanges (mgr w') = 1
    /\ last (trace w') = Some (FarmSetWork wp').
Proof.
  assert (Hinv : currentWp_has_epoch (mgr connected))
    by (intros H; vm_compute in H; discriminate).
  assert (Hrange : forall b, block first_job = Some b -> 0 <= b < 2 ^ 32)
    by (intros b H; vm_compute in H; injection H as <-; lia).
  destruct (proj2 (onWorkReceived_replaces_current_work first_job connected Hinv Hrange)
              82500 eq_refl eq_refl)
    as (wp' & w' & Hrun & Hwp & Hcur & Hcnt & Hlast).
  exists wp', w'. cbn [epoch first_job] in Hwp. subst wp'.
  repeat split; try assumption; rewrite Hcnt; vm_compute; reflexivity.
Defined.

(** The first job on the sample manager: epoch 82500 / 7500 = 11, one epoch
    change counted, the job sent to the farm. *)
Example first_job_received :
  let w' := final (onWorkReceived first_job connected) in
  epoch (m_currentWp (mgr w')) = Some 11
  /\ m_epochChanges (mgr w') = 1
  /\ last (trace w') = Some (FarmSetWork (set_epoch (Some 11) first_job)).
Proof. vm_compute. repeat split; reflexivity. Qed.

(** *** Observers *)

(** C10. In every state in which a present current package carries an epoch
    (every state the manager reaches): if the current package has no epoch,
    [getCurrentEpoch] throws on the empty optional, while
    [getCurrentDifficulty] returns 0.0. *)
Theorem getCurrentEpoch_throws_without_epoch (w : World) :
  currentWp_has_epoch (mgr w) ->
  epoch (m_currentWp (mgr w)) = None ->
  getCurrentEpoch w = Throw bad_optional_access w
  /\ getCurrentDifficulty w = Done Zero w.
Proof.
  intros Hinv He. unfold getCurrentEpoch, getCurrentDifficulty. monad.
  rewrite He. split; [reflexivity|].
  destruct (present (m_currentWp (mgr w))) eqn:Hp; [|reflexivity].
  specialize (Hinv Hp). rewrite He in Hinv. discriminate.
Qed.

Lemma getCurrentEpoch_throws_without_epoch_witness :
  getCurrentEpoch connected = Throw bad_optional_access connected
  /\ getCurrentDifficulty connected = Done Zero connected.
Proof.
  apply (getCurrentEpoch_throws_without_epoch connected).
  - intros H. vm_compute in H. discriminate.
  - reflexivity.
Defined.

(** Before any work has been received the same holds of the manager as
    constructed. *)
Example getCurrentEpoch_before_any_work :
  getCurrentEpoch fresh = Throw bad_optional_access fresh
  /\ getCurrentDifficulty fresh = Done Zero fresh.
Proof. split; reflexivity. Qed.


(** *** What every member function preserves *)

Lemma preserves_ret {A} (P : PoolManager -> Prop) (a : A) : preserves P (ret a).
Proof. intros w H. exact H. Qed.

Lemma preserves_bind {A B} (P : PoolManager -> Prop) (m : M A) (f : A -> M B) :
  preserves P m -> (forall a, preserves P (f a)) -> preserves P (bind m f).
Proof.
  intros Hm Hf w H. unfold bind. specialize (Hm w H).
  destruct (m w) as [a w'|e w'|w'|w']; cbn in *; auto.
  apply Hf. exact Hm.
Qed.

Lemma preserves_gets {A} (P : PoolManager -> Prop) (f : PoolManager -> A) :
  preserves P (gets f).
Proof. intros w H. exact H. Qed.

Lemma preserves_getsFarm {A} (P : PoolManager -> Prop) (f : Farm -> A) :
  preserves P (getsFarm f).
Proof. intros w H. exact H. Qed.

Lemma preserves_modifyFarm (P : PoolManager -> Prop) (f : Farm -> Farm) :
  preserves P (modifyFarm f).
Proof. intros w H. exact H. Qed.

Lemma preserves_emit (P : PoolManager -> Prop) (e : effect) : preserves P (emit e).
Proof. intros w H. exact H. Qed.

Lemma preserves_post (P : PoolManager -> Prop) (t : task) : preserves P (post t).
Proof. intros w H. exact H. Qed.

Lemma preserves_throw {A} (P : PoolManager -> Prop) (e : exn) :
  preserves P (@throw A e).
Proof. intros w H. exact H. Qed.

Lemma preserves_spin {A} (P : PoolManager -> Prop) : preserves P (@spin A).
Proof. intros w H. exact H. Qed.

Lemma preserves_null_deref {A} (P : PoolManager -> Prop) : preserves P (@null_deref A).
Proof. intros w H. exact H. Qed.

Lemma preserves_value {A} (P : PoolManager -> Prop) (o : option A) :
  preserves P (value o).
Proof. destruct o; intros w H; exact H. Qed.

Lemma preserves_at {A} (P : PoolManager -> Prop) (l : list A) (i : Z) :
  preserves P (at_ l i).
Proof. unfold at_. destruct (l !! Z.to_nat i); intros w H; exact H. Qed.

Lemma preserves_client (P : PoolManager -> Prop) : preserves P client.
Proof. intros w H. unfold client. destruct (p_client (mgr w)); exact H. Qed.

Lemma preserves_modify (P : PoolManager -> Prop) (f : PoolManager -> PoolManager) :
  (forall pm, P pm -> P (f pm)) -> preserves P (modify f).
Proof. intros Hf w H. cbn. apply Hf. exact H. Qed.

Lemma preserves_when (P : PoolManager -> Prop) (b : bool) (m : M unit) :
  preserves P m -> preserves P (when b m).
Proof. intros Hm. destruct b; [exact Hm | apply preserves_ret]. Qed.

(** Break a member function down to its primitive steps; what is left are
    the writes to the manager. *)
Ltac pres_step :=
  first
    [ apply preserves_bind; [|intros ?]
    | apply preserves_ret
    | apply preserves_gets
    | apply preserves_getsFarm
    | apply preserves_modifyFarm
    | apply preserves_emit
    | apply preserves_post
    | apply preserves_throw
    | apply preserves_spin
    | apply preserves_null_deref
    | apply preserves_value
    | apply preserves_at
    | apply preserves_client
    | apply preserves_when
    | apply preserves_modify; intros ? ?
    | match goal with
      | |- preserves _ (if ?b then _ else _) => destruct b
      | |- preserves _ (match ?o with Some _ => _ | None => _ end) => destruct o
      | |- preserves _ (match ?o with GETWORK => _ | _ => _ end) => destruct o
      | |- preserves _ (let _ := _ in _) => cbv zeta
      end ].

Ltac pres :=
  cbv [modify_client Farm_start Farm_stop Farm_pause Farm_resume Farm_shuffle
       Farm_setWork Farm_accountSolution client_connect client_disconnect
       client_setConnection client_unsetConnection client_getConnection
       client_submitSolution client_submitHashrate setClientHandlers
       compare_exchange_weak_async_pending];
  repeat pres_step.

Section Frame.
Variable Q : WorkPackage -> Prop.

(** Clearing the header or the job keeps [Q]. *)
Hypothesis Q_set_header : forall wp, Q wp -> Q (set_header zero wp).
Hypothesis Q_set_job : forall wp, Q wp -> Q (set_job "" wp).

Lemma frame_onSolutionFound sol : preserves (on_currentWp Q) (onSolutionFound sol).
Proof. unfold onSolutionFound. pres; assumption. Qed.

Lemma frame_onConnected : preserves (on_currentWp Q) onConnected.
Proof.
  unfold onConnected. pres; try assumption.
  all: unfold on_currentWp in *; cbn; auto.
Qed.

Lemma frame_onDisconnected : preserves (on_currentWp Q) onDisconnected.
Proof.
  unfold onDisconnected. pres; try assumption.
  all: unfold on_currentWp in *; cbn; auto.
Qed.

Lemma frame_onMinerRestart : preserves (on_currentWp Q) onMinerRestart.
Proof. unfold onMinerRestart. pres; assumption. Qed.

Lemma frame_onSolutionAccepted d i s : preserves (on_currentWp Q) (onSolutionAccepted d i s).
Proof. unfold onSolutionAccepted. pres; assumption. Qed.

Lemma frame_onSolutionRejected d i : preserves (on_currentWp Q) (onSolutionRejected d i).
Proof. unfold onSolutionRejected. pres; assumption. Qed.

Lemma frame_start : preserves (on_currentWp Q) start.
Proof. unfold start. pres; assumption. Qed.

Lemma frame_setActiveConnection sp idx : preserves (on_currentWp Q) (setActiveConnection sp idx).
Proof. unfold setActiveConnection, setActiveConnectionCommon. pres; assumption. Qed.

Lemma frame_setActiveConnection_str sp s : preserves (on_currentWp Q) (setActiveConnection_str sp s).
Proof.
  unfold setActiveConnection_str, setActiveConnectionCommon. pres; assumption.
Qed.

Lemma frame_removeConnection idx : preserves (on_currentWp Q) (removeConnection idx).
Proof. unfold removeConnection. pres; assumption. Qed.

Lemma frame_addConnection u : preserves (on_currentWp Q) (addConnection u).
Proof. unfold addConnection. pres; assumption. Qed.

Lemma frame_rotateConnect : preserves (on_currentWp Q) rotateConnect.
Proof.
  unfold rotateConnect, rotate_select, rotate_launch, selected_is_usable.
  pres; assumption.
Qed.

Lemma frame_failovertimer_elapsed ec : preserves (on_currentWp Q) (failovertimer_elapsed ec).
Proof. unfold failovertimer_elapsed. pres; assumption. Qed.

Lemma frame_submithrtimer_elapsed ec : preserves (on_currentWp Q) (submithrtimer_elapsed ec).
Proof. unfold submithrtimer_elapsed. pres; assumption. Qed.

Lemma frame_client_emits_disconnected : preserves (on_currentWp Q) client_emits_disconnected.
Proof.
  unfold client_emits_disconnected. pres; try assumption.
  all: unfold on_currentWp in *; cbn; auto.
Qed.

Lemma frame_client_fails_to_connect : preserves (on_currentWp Q) client_fails_to_connect.
Proof.
  unfold client_fails_to_connect. pres; try assumption.
  all: unfold on_currentWp in *; cbn; auto.
Qed.

Lemma frame_client_emits_connected ep : preserves (on_currentWp Q) (client_emits_connected ep).
Proof.
  unfold client_emits_connected. pres; try assumption.
  all: unfold on_currentWp in *; cbn; auto.
Qed.

Lemma frame_io_run_one : preserves (on_currentWp Q) io_run_one.
Proof.
  intros w H. unfold io_run_one.
  destruct (io_queue w) as [|t rest]; [exact H|].
  destruct t; cbn [run_task].
  - apply frame_rotateConnect. exact H.
  - apply frame_client_emits_disconnected. exact H.
Qed.

Lemma frame_wait_while_running polls : preserves (on_currentWp Q) (wait_while_running polls).
Proof.
  induction polls as [|n IH]; cbn [wait_while_running]; pres.
  - apply frame_io_run_one.
  - exact IH.
Qed.

Lemma frame_stop polls : preserves (on_currentWp Q) (stop polls).
Proof.
  unfold stop. pres; try assumption.
  apply frame_wait_while_running.
Qed.

End Frame.

Lemma currentWp_has_epoch_frame :
  (forall wp, (present wp = true -> has_value (epoch wp) = true) ->
              present (set_header zero wp) = true ->
              has_value (epoch (set_header zero wp)) = true)
  /\ (forall wp, (present wp = true -> has_value (epoch wp) = true) ->
                 present (set_job "" wp) = true ->
                 has_value (epoch (set_job "" wp)) = true).
Proof.
  split; intros wp H Hp.
  - rewrite present_set_header_zero in Hp. discriminate.
  - apply H. exact Hp.
Qed.

Lemma currentWp_has_epoch_onWorkReceived (wp : WorkPackage) :
  preserves currentWp_has_epoch (onWorkReceived wp).
Proof.
  intros w Hinv.
  destruct (present wp) eqn:Hp.
  - destruct (block wp) as [b|] eqn:Hb.
    + destruct (onWorkReceived_keeps wp w b Hinv Hp Hb) as (w' & Hrun & Hcur & _).
      rewrite Hrun. cbn [final]. unfold currentWp_has_epoch. rewrite Hcur.
      intros _. destruct (epoch wp) eqn:He; [exact (f_equal has_value He)|reflexivity].
    + rewrite onWorkReceived_rejects by auto. exact Hinv.
  - rewrite onWorkReceived_rejects by auto. exact Hinv.
Qed.

Lemma currentWp_has_epoch_boot (s : PoolSettings) (f : Farm) :
  currentWp_has_epoch (mgr (boot s f)).
Proof. intros H. discriminate H. Qed.

Ltac by_frame L :=
  let F := fresh "F" in
  pose proof L as F; unfold preserves, on_currentWp in F; eapply F; eauto.

(** Every state a manager reaches has an epoch in its current package
    whenever that package is present. *)
Lemma reachable_currentWp_has_epoch (s : PoolSettings) (f : Farm) (w : World) :
  reachable s f w -> currentWp_has_epoch (mgr w).
Proof.
  pose proof currentWp_has_epoch_frame as [Hh Hj].
  set (Q := fun wp => present wp = true -> has_value (epoch wp) = true) in *.
  induction 1 as [|c w Hreach IH]; [apply currentWp_has_epoch_boot|].
  destruct c; cbn [perform].
  - by_frame (frame_start Q).
  - by_frame (frame_stop Q).
  - by_frame (frame_addConnection Q).
  - by_frame (frame_removeConnection Q).
  - by_frame (frame_setActiveConnection Q).
  - by_frame (frame_setActiveConnection_str Q).
  - by_frame (frame_io_run_one Q).
  - by_frame (frame_client_emits_connected Q).
  - exact (currentWp_has_epoch_onWorkReceived _ w IH).
  - by_frame (frame_onSolutionAccepted Q).
  - by_frame (frame_onSolutionRejected Q).
  - by_frame (frame_onSolutionFound Q).
  - by_frame (frame_onMinerRestart Q).
  - by_frame (frame_failovertimer_elapsed Q).
  - by_frame (frame_submithrtimer_elapsed Q).
  - by_frame (frame_client_emits_disconnected Q).
  - by_frame (frame_client_fails_to_connect Q).
Qed.

(** [onConnected] clears the job and the header of the current package and
    leaves its epoch in place: after a reconnect that follows work, the
    epoch observer answers with the epoch of the lost session. *)
Lemma client_emits_connected_keeps_epoch (ep : string) (w : World) :
  epoch (m_currentWp (mgr (final (client_emits_connected ep w))))
  = epoch (m_currentWp (mgr w)).
Proof.
  by_frame (frame_client_emits_connected
              (fun wp => epoch wp = epoch (m_currentWp (mgr w)))).
Qed.

Example getCurrentEpoch_after_reconnect :
  present (m_currentWp (mgr reconnected)) = false
  /\ getCurrentEpoch reconnected = Done 11 reconnected
  /\ getCurrentDifficulty reconnected = Done Zero reconnected.
Proof. vm_compute. repeat split; reflexivity. Qed.

(** *** stop *)

Lemma wait_while_running_stopped (polls : nat) (w : World) :
  m_running (mgr w) = false -> wait_while_running polls w = Done tt w.
Proof.
  intros H. destruct polls; cbn [wait_while_running]; monad; rewrite H; reflexivity.
Qed.

(** A manager that is not running is left as it is. *)
Lemma stop_idle (polls : nat) (w : World) :
  m_running (mgr w) = false -> stop polls w = Done tt w.
Proof. intros H. unfold stop. monad. rewrite H. reflexivity. Qed.

(** The branch taken without a connected client: the timers are cancelled
    and the miners stopped, and [m_running] is not written. *)
Lemma stop_without_connection (polls : nat) (w : World) :
  m_running (mgr w) = true ->
  client_isConnected (mgr w) = false ->
  exists w',
    stop polls w = Done tt w'
    /\ m_running (mgr w') = true
    /\ m_stopping (mgr w') = true
    /\ m_failovertimer (mgr w') = None
    /\ m_submithrtimer (mgr w') = None
    /\ isMining (farm w') = false.
Proof.
  intros Hr Hc. unfold stop. unfold client_isConnected in Hc. monad.
  rewrite Hr. cbn. unfold client_isConnected. cbn. rewrite Hc. cbn.
  destruct (isMining (farm w)) eqn:Hm; cbn;
    eexists; repeat split; try reflexivity; assumption.
Qed.

(** The branch taken with a connected client, when nothing else is waiting
    on the io service: the client's disconnect notification runs
    [onDisconnected], which cancels the timers, stops the miners and clears
    [m_running]; the wait ends at the next poll. *)
Lemma stop_with_connection (polls : nat) (w : World) (c : PoolClient) :
  m_running (mgr w) = true ->
  p_client (mgr w) = Some c ->
  m_connected c = true ->
  handlers_bound c = true ->
  io_queue w = [] ->
  exists w',
    stop (S polls) w = Done tt w'
    /\ m_running (mgr w') = false
    /\ m_stopping (mgr w') = true
    /\ m_failovertimer (mgr w') = None
    /\ m_submithrtimer (mgr w') = None
    /\ p_client (mgr w') = None
    /\ isMining (farm w') = false.
Proof.
  intros Hr Hc Hcon Hh Hq.
  destruct w as [pm f q t]; destruct pm; cbn in Hr, Hc, Hq; subst.
  unfold stop, client_isConnected.
  repeat (progress (monad; rewrite ?Hcon, ?Hh;
                    unfold io_run_one, client_emits_disconnected, onDisconnected)).
  destruct (isMining f) eqn:Hm; cbn;
    rewrite wait_while_running_stopped by reflexivity; cbn;
    eexists; repeat split; try reflexivity; assumption.
Qed.

(** C1, where the code departs from it. [start()] followed by [stop()]
    before the posted [rotateConnect] has run, so that there is no client
    yet: [stop()] returns, the two timers are idle, and the manager still
    reports that it is running. *)
Theorem stop_before_first_connect_leaves_running (polls : nat) :
  exists w',
    stop polls started = Done tt w'
    /\ isRunning (mgr w') = true
    /\ m_failovertimer (mgr w') = None
    /\ m_submithrtimer (mgr w') = None.
Proof.
  destruct (stop_without_connection polls started) as (w' & Hs & Hr & _ & Hf & Hh & _);
    [reflexivity | reflexivity |].
  exists w'. repeat split; assumption.
Qed.

(** The same call on the connected sample manager ends with the manager
    stopped. *)
Example stop_while_connected :
  let w' := final (stop 1 connected) in
  stop 1 connected = Done tt w'
  /\ isRunning (mgr w') = false
  /\ m_failovertimer (mgr w') = None
  /\ m_submithrtimer (mgr w') = None
  /\ p_client (mgr w') = None.
Proof. vm_compute. repeat split; reflexivity. Qed.

(** *** The connection list *)

Import Notions PoolView.

Lemma at_lookup {A} (l : list A) (idx : Z) (x : A) (w : World) :
  l !! Z.to_nat idx = Some x -> at_ l idx w = Done x w.
Proof. intros H. unfold at_. rewrite H. reflexivity. Qed.

Lemma size_nonneg {A} (l : list A) : 0 <= size l.
Proof. unfold size. lia. Qed.

(** X1. [removeConnection] refuses, in this order: while operations are
    outstanding; an index past the end of the list; the active index.  Each
    refusal leaves the whole state as it was. *)
Theorem removeConnection_refusals (idx : Z) (w : World) :
  (m_async_pending (mgr w) = true ->
   removeConnection idx w
   = Throw (runtime_error "Outstanding operations. Retry ...") w)
  /\ (m_async_pending (mgr w) = false -> size (conns (mgr w)) <= idx ->
      removeConnection idx w = Throw (runtime_error "Index out-of bounds.") w)
  /\ (m_async_pending (mgr w) = false -> idx < size (conns (mgr w)) ->
      idx = m_activeConnectionIdx (mgr w) ->
      removeConnection idx w
      = Throw (runtime_error "Can't remove active connection") w).
Proof.
  unfold removeConnection. repeat split.
  - intros Hp. monad. rewrite Hp. reflexivity.
  - intros Hp Hi. apply Z.leb_le in Hi. monad. rewrite Hp. cbn. rewrite Hi. reflexivity.
  - intros Hp Hi Ha. apply Z.leb_gt in Hi. monad. rewrite Hp. cbn. rewrite Hi. cbn.
    rewrite <- Ha, Z.eqb_refl. reflexivity.
Qed.

Lemma removeConnection_refusals_witness :
  removeConnection 0 started
  = Throw (runtime_error "Outstanding operations. Retry ...") started
  /\ removeConnection 5 connected
     = Throw (runtime_error "Index out-of bounds.") connected
  /\ removeConnection 0 connected
     = Throw (runtime_error "Can't remove active connection") connected.
Proof.
  split; [|split].
  - apply (removeConnection_refusals 0 started). reflexivity.
  - apply (removeConnection_refusals 5 connected); [reflexivity | vm_compute; discriminate].
  - apply (removeConnection_refusals 0 connected);
      [reflexivity | vm_compute; reflexivity | reflexivity].
Defined.

(** X2. A removal that goes through takes exactly the endpoint at [idx] out
    of the list and keeps the active endpoint: the active index is moved
    down by one when the removed endpoint was in front of it, so that
    [getActiveConnection] answers as before. *)
Theorem removeConnection_keeps_active (idx : Z) (w : World) :
  m_async_pending (mgr w) = false ->
  0 <= idx < size (conns (mgr w)) ->
  idx <> m_activeConnectionIdx (mgr w) ->
  0 <= m_activeConnectionIdx (mgr w) < 2 ^ 32 ->
  exists w',
    removeConnection idx w = Done tt w'
    /\ conns (mgr w') = delete (Z.to_nat idx) (conns (mgr w))
    /\ size (conns (mgr w')) = size (conns (mgr w)) - 1
    /\ m_activeConnectionIdx (mgr w')
       = (if idx <? m_activeConnectionIdx (mgr w)
          then m_activeConnectionIdx (mgr w) - 1 else m_activeConnectionIdx (mgr w))
    /\ getActiveConnection (mgr w') = getActiveConnection (mgr w)
    /\ farm w' = farm w /\ io_queue w' = io_queue w /\ trace w' = trace w.
Proof.
  intros Hp [Hi0 Hi] Hne Ha.
  assert (Hlen : (Z.to_nat idx < length (conns (mgr w)))%nat)
    by (unfold size in Hi; lia).
  unfold removeConnection. monad. rewrite Hp. cbn.
  replace (size (conns (mgr w)) <=? idx) with false by (symmetry; apply Z.leb_gt; lia).
  cbn. replace (idx =? m_activeConnectionIdx (mgr w)) with false
    by (symmetry; apply Z.eqb_neq; exact Hne).
  cbn. unfold getActiveConnection.
  destruct (idx <? m_activeConnectionIdx (mgr w)) eqn:Hlt; cbn.
  - apply Z.ltb_lt in Hlt.
    assert (Hd : decr32 (m_activeConnectionIdx (mgr w)) = m_activeConnectionIdx (mgr w) - 1).
    { unfold decr32, wrap32. apply Z.mod_small. lia. }
    eexists. split; [reflexivity|]. cbn. rewrite Hd.
    repeat split; try reflexivity.
    + unfold size. rewrite length_delete by (apply lookup_lt_is_Some; exact Hlen). lia.
    + unfold conns. cbn.
      rewrite list_lookup_delete_ge by lia.
      f_equal. lia.
  - apply Z.ltb_ge in Hlt.
    eexists. split; [reflexivity|]. cbn.
    repeat split; try reflexivity.
    + unfold size. rewrite length_delete by (apply lookup_lt_is_Some; exact Hlen). lia.
    + unfold conns. cbn. apply list_lookup_delete_lt. lia.
Qed.

Lemma removeConnection_keeps_active_witness :
  exists w',
    removeConnection 1 two_pools = Done tt w'
    /\ conns (mgr w') = delete (Z.to_nat 1) (conns (mgr two_pools))
    /\ size (conns (mgr w')) = size (conns (mgr two_pools)) - 1
    /\ m_activeConnectionIdx (mgr w')
       = (if 1 <? m_activeConnectionIdx (mgr two_pools)
          then m_activeConnectionIdx (mgr two_pools) - 1
          else m_activeConnectionIdx (mgr two_pools))
    /\ getActiveConnection (mgr w') = getActiveConnection (mgr two_pools)
    /\ farm w' = farm two_pools /\ io_queue w' = io_queue two_pools
    /\ trace w' = trace two_pools.
Proof.
  apply (removeConnection_keeps_active 1 two_pools).
  - reflexivity.
  - vm_compute. split; [discriminate | reflexivity].
  - vm_compute. discriminate.
  - vm_compute. split; [discriminate | reflexivity].
Defined.

(** X3. [addConnection] puts the endpoint at the end: it is found at the
    index that was the size of the list, every index that held an endpoint
    still holds the same one, and the active index is untouched.  Removing
    it again while nothing is outstanding and the active index is within the
    old list gives back the manager exactly as it was. *)
Theorem addConnection_then_remove (u : URI) (w : World) :
  exists w',
    addConnection u w = Done tt w'
    /\ conns (mgr w') !! length (conns (mgr w)) = Some u
    /\ (forall i v, conns (mgr w) !! i = Some v -> conns (mgr w') !! i = Some v)
    /\ size (conns (mgr w')) = size (conns (mgr w)) + 1
    /\ m_activeConnectionIdx (mgr w') = m_activeConnectionIdx (mgr w)
    /\ (m_async_pending (mgr w) = false ->
        0 <= m_activeConnectionIdx (mgr w) < size (conns (mgr w)) ->
        removeConnection (size (conns (mgr w))) w' = Done tt w).
Proof.
  unfold addConnection. monad. eexists. split; [reflexivity|]. cbn.
  repeat split.
  - unfold conns. cbn. apply list_lookup_middle. reflexivity.
  - intros i v Hv. unfold conns. cbn. apply lookup_app_l_Some. exact Hv.
  - unfold conns, size. cbn. rewrite length_app. cbn. lia.
  - intros Hp Ha. unfold removeConnection. monad. rewrite Hp. cbn.
    unfold conns at 1. cbn. fold (conns (mgr w)).
    replace (size (conns (mgr w) ++ [u]) <=? size (conns (mgr w))) with false
      by (symmetry; apply Z.leb_gt; unfold size; rewrite length_app; cbn; lia).
    cbn.
    replace (size (conns (mgr w)) =? m_activeConnectionIdx (mgr w)) with false
      by (symmetry; apply Z.eqb_neq; lia).
    cbn.
    replace (size (conns (mgr w)) <? m_activeConnectionIdx (mgr w)) with false
      by (symmetry; apply Z.ltb_ge; lia).
    cbn. unfold size. rewrite Nat2Z.id.
    replace (delete (length (conns (mgr w))) (conns (mgr w) ++ [u])) with (conns (mgr w))
      by (rewrite (delete_middle _ [] u); symmetry; apply app_nil_r).
    destruct w as [pm f q t]; destruct pm as [s r st ap ca sh cs ai wp ft ht pc ec];
      destruct s; reflexivity.
Qed.

Lemma addConnection_then_remove_witness :
  exists w',
    addConnection backup_test connected = Done tt w'
    /\ conns (mgr w') !! length (conns (mgr connected)) = Some backup_test
    /\ size (conns (mgr w')) = size (conns (mgr connected)) + 1
    /\ m_activeConnectionIdx (mgr w') = m_activeConnectionIdx (mgr connected)
    /\ removeConnection (size (conns (mgr connected))) w' = Done tt connected.
Proof.
  destruct (addConnection_then_remove backup_test connected)
    as (w' & Hadd & Hlast & _ & Hsize & Hidx & Hback).
  exists w'. repeat split; try assumption.
  apply Hback; [reflexivity | vm_compute; split; [discriminate | reflexivity]].
Defined.

Lemma connections_from_items (l : list URI) :
  forall (i a : Z) (j : Json),
    items_of (connections_from l i a j)
    = items_of j ++
      imap (fun k u => {| index := wrap32 (i + Z.of_nat k);
                          active := (i + Z.of_nat k =? a);
                          uri := str u |}) l.
Proof.
  induction l as [|u l IH]; intros i a j; cbn [connections_from imap].
  - now rewrite app_nil_r.
  - rewrite IH. destruct j as [|items]; cbn [append items_of].
    + cbn. rewrite Z.add_0_r. f_equal. apply imap_ext. intros k v _. cbn.
      replace (i + 1 + Z.of_nat k) with (i + Z.of_nat (S k)) by lia. reflexivity.
    + rewrite <- app_assoc. cbn. rewrite Z.add_0_r. do 2 f_equal.
      apply imap_ext. intros k v _. cbn.
      replace (i + 1 + Z.of_nat k) with (i + Z.of_nat (S k)) by lia. reflexivity.
Qed.

Lemma connections_from_null (l : list URI) :
  forall (i a : Z) (j : Json),
    connections_from l i a j = JNull <-> l = [] /\ j = JNull.
Proof.
  induction l as [|u l IH]; intros i a j; cbn [connections_from].
  - split; [intros ->; auto | intros [_ ->]; reflexivity].
  - rewrite IH. split; [|intros [H _]; discriminate].
    intros [_ H]. destruct j; discriminate.
Qed.

(** X4. What [getConnectionsJson] reports: null, not an empty array, when
    there is no connection; otherwise an array with one element per
    endpoint, in order, where element [i] carries index [i], the endpoint's
    string, and the [active] flag exactly when [i] is the active index, so
    that at most one element is marked active. *)
Theorem getConnectionsJson_entries (pm : PoolManager) :
  (getConnectionsJson pm = JNull <-> conns pm = [])
  /\ length (items_of (getConnectionsJson pm)) = length (conns pm)
  /\ (forall (i : nat) (u : URI),
        conns pm !! i = Some u ->
        items_of (getConnectionsJson pm) !! i
        = Some {| index := wrap32 (Z.of_nat i);
                  active := (Z.of_nat i =? m_activeConnectionIdx pm);
                  uri := str u |})
  /\ (forall (i j : nat) (ci cj : JConn),
        items_of (getConnectionsJson pm) !! i = Some ci ->
        items_of (getConnectionsJson pm) !! j = Some cj ->
        active ci = true -> active cj = true -> i = j).
Proof.
  unfold getConnectionsJson.
  assert (Hitems := connections_from_items (conns pm) 0 (m_activeConnectionIdx pm) JNull).
  cbn [items_of app] in Hitems.
  split; [|split; [|split]].
  - rewrite connections_from_null. tauto.
  - rewrite Hitems. apply length_imap.
  - intros i u Hu. rewrite Hitems, list_lookup_imap, Hu. reflexivity.
  - intros i j ci cj Hi Hj Hai Haj.
    rewrite Hitems, list_lookup_imap in Hi, Hj.
    destruct (conns pm !! i) as [u|]; [|discriminate].
    destruct (conns pm !! j) as [v|]; [|discriminate].
    cbn in Hi, Hj. injection Hi as <-. injection Hj as <-. cbn in Hai, Haj.
    apply Z.eqb_eq in Hai, Haj. lia.
Qed.

(** *** rotateConnect on any list *)

Ltac open_world w :=
  destruct w as [pm f q t];
  destruct pm as [s r st ap ca sh cs ai wp ft ht pc ec];
  destruct s as [l gw nw nr pf rh hi hid mr bb].

(** The second half when the selected endpoint exists and is not the
    sentinel. *)
Lemma rotate_launch_usable (w : World) (u : URI) :
  conns (mgr w) !! Z.to_nat (m_activeConnectionIdx (mgr w)) = Some u ->
  Host u <> "exit" ->
  exists w', rotate_launch w = Done tt w' /\ launched w w' u.
Proof.
  intros Hu Hexit.
  assert (Hne : String.eqb (Host u) "exit" = false)
    by (apply String.eqb_neq; exact Hexit).
  open_world w. cbn in Hu.
  assert (Hsz : (size l =? 0) = false).
  { apply Z.eqb_neq. unfold size. apply lookup_lt_Some in Hu. lia. }
  unfold rotate_launch, selected_is_usable, launched. monad.
  rewrite Hsz. cbn.
  rewrite !(at_lookup _ _ _ _ Hu). cbn. rewrite Hne. cbn.
  unfold client_for, variant_for.
  destruct (Family u) eqn:Hf;
    repeat (progress (cbn; rewrite ?(at_lookup _ _ _ _ Hu); rewrite ?Hf));
    eexists; repeat split; try reflexivity;
    cbn; rewrite <- app_assoc; reflexivity.
Qed.

(** The second half when there is nothing left to try: the list is empty,
    or the selected endpoint is the sentinel. *)
Lemma rotate_launch_gives_up (w : World) :
  conns (mgr w) = []
  \/ (exists u, conns (mgr w) !! Z.to_nat (m_activeConnectionIdx (mgr w)) = Some u
                /\ Host u = "exit") ->
  exists w', rotate_launch w = Done tt w' /\ terminated w w'.
Proof.
  intros H. open_world w. cbn in H.
  unfold rotate_launch, selected_is_usable, terminated. monad.
  destruct H as [-> | (u & Hu & Hexit)].
  - destruct (isMining f) eqn:Hm;
      repeat (progress (cbn; change (size (@nil URI)) with 0; rewrite ?Hm));
      eexists; repeat split; try reflexivity; try assumption; apply last_snoc.
  - assert (Hsz : (size l =? 0) = false).
    { apply Z.eqb_neq. unfold size. apply lookup_lt_Some in Hu. lia. }
    destruct (isMining f) eqn:Hm;
      repeat (progress (cbn; rewrite ?Hsz, ?(at_lookup _ _ _ _ Hu), ?Hexit, ?Hm));
      eexists; repeat split; try reflexivity; try assumption; apply last_snoc.
Qed.

(** The second half on a non-empty list with the index past its end. *)
Lemma rotate_launch_out_of_range (w : World) :
  conns (mgr w) <> [] ->
  conns (mgr w) !! Z.to_nat (m_activeConnectionIdx (mgr w)) = None ->
  rotate_launch w = Throw out_of_range w.
Proof.
  intros Hne Hn. open_world w. cbn in Hne, Hn.
  unfold rotate_launch, selected_is_usable. monad.
  assert (Hsz : (size l =? 0) = false).
  { apply Z.eqb_neq. unfold size. destruct l; [congruence | cbn; lia]. }
  rewrite Hsz. cbn. unfold at_. rewrite Hn. reflexivity.
Qed.

Lemma rotate_select_keeps_running (w : World) :
  m_running (mgr (final (rotate_select w))) = m_running (mgr w).
Proof.
  assert (H : preserves (fun pm => m_running pm = m_running (mgr w)) rotate_select)
    by (unfold rotate_select; pres; assumption).
  exact (H w eq_refl).
Qed.

(** X5. However [rotateConnect] got there, when it returns normally from a
    state without a connected client it has done one of two things.  Either
    it has opened a connection: the client is a new one for the endpoint at
    the active index, bound to the manager's callbacks and told to connect
    as the last call, and the manager runs as before.  Or it has given up:
    the manager no longer runs, the miners are stopped and the termination
    signal is the last call. *)
Theorem rotateConnect_connects_or_terminates (w w' : World) :
  client_isConnected (mgr w) = false ->
  rotateConnect w = Done tt w' ->
  (exists u,
      getActiveConnection (mgr w') = Some u
      /\ Host u <> "exit"
      /\ p_client (mgr w') = Some (client_for (m_Settings (mgr w')) u)
      /\ last (trace w') = Some ClientConnect
      /\ m_running (mgr w') = m_running (mgr w))
  \/ (m_running (mgr w') = false
      /\ isMining (farm w') = false
      /\ last (trace w') = Some Raise_SIGTERM).
Proof.
  intros Hc Hrun. unfold rotateConnect in Hrun.
  cbv [bind gets ret] in Hrun. rewrite Hc in Hrun.
  pose proof (rotate_select_keeps_running w) as Hr1.
  destruct (rotate_select w) as [[] w1|e w1|w1|w1] eqn:Hsel; try discriminate.
  cbn [final] in Hr1.
  destruct (conns (mgr w1)) as [|u0 l0] eqn:Hl.
  - right. destruct (rotate_launch_gives_up w1 (or_introl Hl)) as (w2 & H2 & Ht).
    rewrite H2 in Hrun. injection Hrun as <-.
    destruct Ht as (? & ? & ? & _). auto.
  - destruct (conns (mgr w1) !! Z.to_nat (m_activeConnectionIdx (mgr w1))) as [u|] eqn:Hu.
    + destruct (String.eqb (Host u) "exit") eqn:He.
      * apply String.eqb_eq in He. right.
        destruct (rotate_launch_gives_up w1) as (w2 & H2 & Ht); [right; eauto|].
        rewrite H2 in Hrun. injection Hrun as <-.
        destruct Ht as (? & ? & ? & _). auto.
      * apply String.eqb_neq in He. left.
        destruct (rotate_launch_usable w1 u Hu He) as (w2 & H2 & Hlaunch).
        rewrite H2 in Hrun. injection Hrun as <-.
        destruct Hlaunch as (_ & Hi & _ & Hs & Hr & Hp & _ & Htr & _).
        exists u. unfold getActiveConnection, conns. rewrite Hs, Hi.
        repeat split; try assumption.
        -- rewrite Htr.
           match goal with
           | |- context [?x ++ [?a; ?b]] => change (x ++ [a; b]) with (x ++ [a] ++ [b])
           end.
           rewrite app_assoc. apply last_snoc.
        -- congruence.
    + rewrite rotate_launch_out_of_range in Hrun;
        [discriminate | congruence | exact Hu].
Qed.

Lemma rotateConnect_connects_or_terminates_witness :
  (exists u,
      getActiveConnection (mgr (final (rotateConnect two_pools_lost))) = Some u
      /\ Host u <> "exit"
      /\ p_client (mgr (final (rotateConnect two_pools_lost)))
         = Some (client_for (m_Settings (mgr (final (rotateConnect two_pools_lost)))) u)
      /\ last (trace (final (rotateConnect two_pools_lost))) = Some ClientConnect
      /\ m_running (mgr (final (rotateConnect two_pools_lost)))
         = m_running (mgr two_pools_lost))
  \/ (m_running (mgr (final (rotateConnect two_pools_lost))) = false
      /\ isMining (farm (final (rotateConnect two_pools_lost))) = false
      /\ last (trace (final (rotateConnect two_pools_lost))) = Some Raise_SIGTERM).
Proof.
  apply (rotateConnect_connects_or_terminates two_pools_lost
           (final (rotateConnect two_pools_lost))).
  - reflexivity.
  - vm_compute. reflexivity.
Defined.

Lemma lookup_in_bounds {A} (l : list A) (idx : Z) (x : A) :
  l !! Z.to_nat idx = Some x -> (size l <=? idx) = false.
Proof.
  intros H. apply lookup_lt_Some in H. apply Z.leb_gt. unfold size. lia.
Qed.

(** The first half on a recoverable endpoint with retries left: nothing is
    changed. *)
Lemma rotate_select_retry (w : World) (u : URI) :
  conns (mgr w) !! Z.to_nat (m_activeConnectionIdx (mgr w)) = Some u ->
  IsUnrecoverable u = false ->
  m_connectionAttempt (mgr w) < connectionMaxRetries (m_Settings (mgr w)) ->
  rotate_select w = Done tt w.
Proof.
  intros Hu Hrec Hlt. apply Z.leb_gt in Hlt.
  pose proof (lookup_in_bounds _ _ _ Hu) as Hb.
  open_world w. cbn in Hu, Hlt, Hb.
  unfold rotate_select. monad. rewrite Hb. cbn.
  rewrite (at_lookup _ _ _ _ Hu). cbn. rewrite Hrec, Hlt. reflexivity.
Qed.

(** The index [rotateConnect] moves on to from [idx] in a list of [n]
    endpoints. *)
Lemma next_index (idx n : Z) :
  0 <= idx < n -> n <= 2 ^ 32 ->
  (if n <=? incr32 idx then 0 else incr32 idx) = (idx + 1) mod n.
Proof.
  intros Hi Hn. unfold incr32, wrap32.
  destruct (Z.eq_dec (idx + 1) (2 ^ 32)) as [E|E].
  - rewrite E, Z.mod_same by lia.
    assert (n = 2 ^ 32) by lia. subst n.
    rewrite Z.mod_same by lia.
    destruct (2 ^ 32 <=? 0); reflexivity.
  - rewrite (Z.mod_small (idx + 1) (2 ^ 32)) by lia.
    destruct (n <=? idx + 1) eqn:E1.
    + apply Z.leb_le in E1. assert (idx + 1 = n) by lia.
      replace (idx + 1) with n by lia. now rewrite Z.mod_same by lia.
    + apply Z.leb_gt in E1. now rewrite Z.mod_small by lia.
Qed.

(** The first half on a recoverable endpoint with the retries used up and
    other endpoints to go to. *)
Lemma rotate_select_rotate (w : World) (u : URI) :
  conns (mgr w) !! Z.to_nat (m_activeConnectionIdx (mgr w)) = Some u ->
  IsUnrecoverable u = false ->
  connectionMaxRetries (m_Settings (mgr w)) <= m_connectionAttempt (mgr w) ->
  size (conns (mgr w)) <> 1 ->
  rotate_select w
  = Done tt
      (set_mgr
         (set_connectionSwitches (incr32 (m_connectionSwitches (mgr w)))
            (set_activeConnectionIdx
               (if size (conns (mgr w)) <=? incr32 (m_activeConnectionIdx (mgr w))
                then 0 else incr32 (m_activeConnectionIdx (mgr w)))
               (set_connectionAttempt 0 (mgr w)))) w).
Proof.
  intros Hu Hrec Hmax Hn1. apply Z.leb_le in Hmax. apply Z.eqb_neq in Hn1.
  pose proof (lookup_in_bounds _ _ _ Hu) as Hb.
  open_world w. cbn in Hu, Hmax, Hb, Hn1.
  unfold rotate_select. monad. rewrite Hb. cbn.
  rewrite (at_lookup _ _ _ _ Hu). cbn. rewrite Hrec, Hmax, Hn1. cbn.
  destruct (size l <=? incr32 ai); reflexivity.
Qed.

(** The first half on an endpoint marked unrecoverable. *)
Lemma rotate_select_drop (w : World) (u : URI) :
  conns (mgr w) !! Z.to_nat (m_activeConnectionIdx (mgr w)) = Some u ->
  IsUnrecoverable u = true ->
  rotate_select w
  = Done tt
      (set_mgr
         (set_connectionSwitches (incr32 (m_connectionSwitches (mgr w)))
            (set_activeConnectionIdx
               (if size (delete (Z.to_nat (m_activeConnectionIdx (mgr w))) (conns (mgr w)))
                   <=? m_activeConnectionIdx (mgr w)
                then 0 else m_activeConnectionIdx (mgr w))
               (set_connectionAttempt 0
                  (set_conns
                     (delete (Z.to_nat (m_activeConnectionIdx (mgr w))) (conns (mgr w)))
                     (mgr w))))) w).
Proof.
  intros Hu Hrec.
  pose proof (lookup_in_bounds _ _ _ Hu) as Hb.
  open_world w. cbn in Hu, Hb.
  unfold rotate_select. monad. rewrite Hb. cbn.
  rewrite (at_lookup _ _ _ _ Hu). cbn. rewrite Hrec. cbn.
  destruct (size (delete (Z.to_nat ai) l) <=? ai); reflexivity.
Qed.

Lemma rotateConnect_unfold (w : World) :
  client_isConnected (mgr w) = false ->
  rotateConnect w = bind rotate_select (fun _ => rotate_launch) w.
Proof. intros H. unfold rotateConnect. cbv [bind gets ret]. now rewrite H. Qed.

(** X6. With retries left on a recoverable endpoint that is not the
    sentinel, [rotateConnect] tries that endpoint again: the active index,
    the list and the connection switches stay, the attempt is counted, and a
    new client for the same endpoint is told to connect. *)
Theorem rotateConnect_retries_same_endpoint (w : World) (u : URI) :
  client_isConnected (mgr w) = false ->
  getActiveConnection (mgr w) = Some u ->
  IsUnrecoverable u = false ->
  m_connectionAttempt (mgr w) < connectionMaxRetries (m_Settings (mgr w)) ->
  Host u <> "exit" ->
  exists w', rotateConnect w = Done tt w' /\ launched w w' u.
Proof.
  intros Hc Hu Hrec Hlt Hexit.
  rewrite (rotateConnect_unfold w Hc). unfold bind.
  rewrite (rotate_select_retry w u Hu Hrec Hlt).
  apply rotate_launch_usable; assumption.
Qed.

Lemma rotateConnect_retries_same_endpoint_witness :
  exists w', rotateConnect two_pools_lost = Done tt w'
             /\ launched two_pools_lost w' pool_test.
Proof.
  apply (rotateConnect_retries_same_endpoint two_pools_lost pool_test).
  - reflexivity.
  - reflexivity.
  - reflexivity.
  - vm_compute. reflexivity.
  - vm_compute. discriminate.
Defined.



(** X8. An endpoint marked unrecoverable is taken out of the list by
    [rotateConnect], which counts one connection switch for it.  The active
    index stays where it is, so that it now names the endpoint that followed
    the dropped one, or goes back to 0 when the dropped endpoint was the
    last.  If the list is empty after that, or the endpoint now selected is
    the sentinel, the manager stops running; otherwise a first attempt on
    the endpoint now selected is made. *)
Theorem rotateConnect_drops_unrecoverable (w : World) (u : URI) :
  client_isConnected (mgr w) = false ->
  0 <= m_activeConnectionIdx (mgr w) ->
  getActiveConnection (mgr w) = Some u ->
  IsUnrecoverable u = true ->
  exists w',
    rotateConnect w = Done tt w'
    /\ conns (mgr w') = delete (Z.to_nat (m_activeConnectionIdx (mgr w))) (conns (mgr w))
    /\ m_connectionSwitches (mgr w') = incr32 (m_connectionSwitches (mgr w))
    /\ m_activeConnectionIdx (mgr w')
       = (if size (conns (mgr w)) - 1 <=? m_activeConnectionIdx (mgr w)
          then 0 else m_activeConnectionIdx (mgr w))
    /\ match getActiveConnection (mgr w') with
       | Some v =>
           if String.eqb (Host v) "exit"
           then m_running (mgr w') = false /\ m_connectionAttempt (mgr w') = 0
           else p_client (mgr w') = Some (client_for (m_Settings (mgr w')) v)
                /\ m_connectionAttempt (mgr w') = 1
       | None =>
           conns (mgr w') = [] /\ m_running (mgr w') = false
           /\ m_connectionAttempt (mgr w') = 0
       end.
Proof.
  intros Hc H0 Hu Hrec.
  rewrite (rotateConnect_unfold w Hc). unfold bind.
  rewrite (rotate_select_drop w u Hu Hrec).
  set (l := conns (mgr w)) in *. set (idx := m_activeConnectionIdx (mgr w)) in *.
  assert (Hlen : (Z.to_nat idx < length l)%nat) by (apply lookup_lt_Some in Hu; exact Hu).
  assert (Hsz : size (delete (Z.to_nat idx) l) = size l - 1).
  { unfold size. rewrite length_delete by (apply lookup_lt_is_Some; exact Hlen). lia. }
  rewrite Hsz.
  set (idx' := if size l - 1 <=? idx then 0 else idx).
  set (w1 := set_mgr _ w).
  assert (Hl1 : conns (mgr w1) = delete (Z.to_nat idx) l) by reflexivity.
  assert (Hi1 : m_activeConnectionIdx (mgr w1) = idx') by reflexivity.
  assert (Ha1 : m_connectionAttempt (mgr w1) = 0) by reflexivity.
  assert (Hs1 : m_connectionSwitches (mgr w1) = incr32 (m_connectionSwitches (mgr w)))
    by reflexivity.
  destruct (conns (mgr w1) !! Z.to_nat (m_activeConnectionIdx (mgr w1))) as [v|] eqn:Hv.
  - destruct (String.eqb (Host v) "exit") eqn:He.
    + apply String.eqb_eq in He.
      destruct (rotate_launch_gives_up w1) as (w' & Hrun & Ht); [right; eauto|].
      destruct Ht as (Hr & _ & _ & _ & Ha & Hi & Hs & Hset).
      exists w'. split; [exact Hrun|].
      unfold getActiveConnection, conns. rewrite Hset, Hi, Hs, Ha.
      fold (conns (mgr w1)). rewrite Hv.
      apply String.eqb_eq in He. rewrite He. repeat split; auto.
    + apply String.eqb_neq in He.
      destruct (rotate_launch_usable w1 v Hv He) as (w' & Hrun & Hl).
      destruct Hl as (Ha & Hi & Hs & Hset & _ & Hp & _).
      exists w'. split; [exact Hrun|].
      unfold getActiveConnection, conns. rewrite Hset, Hi, Hs, Ha.
      fold (conns (mgr w1)). rewrite Hv.
      apply String.eqb_neq in He. rewrite He. rewrite Hp. repeat split; auto.
  - assert (Hnil : conns (mgr w1) = []).
    { apply lookup_ge_None_1 in Hv. rewrite Hi1, Hl1 in Hv. rewrite Hl1.
      assert (Hlen' : length (delete (Z.to_nat idx) l) = (length l - 1)%nat)
        by (apply length_delete, lookup_lt_is_Some; exact Hlen).
      destruct (delete (Z.to_nat idx) l) as [|x xs] eqn:Hd; [reflexivity|exfalso].
      cbn [length] in Hv, Hlen'. subst idx'. unfold size in *.
      destruct (Z.of_nat (length l) - 1 <=? idx) eqn:E.
      - cbn in Hv. lia.
      - apply Z.leb_gt in E. lia. }
    destruct (rotate_launch_gives_up w1 (or_introl Hnil)) as (w' & Hrun & Ht).
    destruct Ht as (Hr & _ & _ & _ & Ha & Hi & Hs & Hset).
    exists w'. split; [exact Hrun|].
    unfold getActiveConnection, conns. rewrite Hset, Hi, Hs, Ha.
    fold (conns (mgr w1)). rewrite Hv. repeat split; auto.
Qed.

Lemma rotateConnect_drops_unrecoverable_witness :
  exists w',
    rotateConnect two_pools_rejected = Done tt w'
    /\ conns (mgr w')
       = delete (Z.to_nat (m_activeConnectionIdx (mgr two_pools_rejected)))
                (conns (mgr two_pools_rejected))
    /\ m_connectionSwitches (mgr w')
       = incr32 (m_connectionSwitches (mgr two_pools_rejected))
    /\ m_activeConnectionIdx (mgr w')
       = (if size (conns (mgr two_pools_rejected)) - 1
             <=? m_activeConnectionIdx (mgr two_pools_rejected)
          then 0 else m_activeConnectionIdx (mgr two_pools_rejected))
    /\ match getActiveConnection (mgr w') with
       | Some v =>
           if String.eqb (Host v) "exit"
           then m_running (mgr w') = false /\ m_connectionAttempt (mgr w') = 0
           else p_client (mgr w') = Some (client_for (m_Settings (mgr w')) v)
                /\ m_connectionAttempt (mgr w') = 1
       | None =>
           conns (mgr w') = [] /\ m_running (mgr w') = false
           /\ m_connectionAttempt (mgr w') = 0
       end.
Proof.
  apply (rotateConnect_drops_unrecoverable two_pools_rejected pool_test_rejected).
  - reflexivity.
  - vm_compute. discriminate.
  - reflexivity.
  - reflexivity.
Defined.

(** X9. On an empty connection list [rotateConnect] does not reach its
    "no more connections" branch: the look-up of the active endpoint throws
    [std::out_of_range] first.  The manager is left running, with the active
    index reset to 0. *)
Theorem rotateConnect_empty_list_throws (w : World) :
  client_isConnected (mgr w) = false ->
  conns (mgr w) = [] ->
  0 <= m_activeConnectionIdx (mgr w) ->
  rotateConnect w = Throw out_of_range (set_mgr (set_activeConnectionIdx 0 (mgr w)) w).
Proof.
  intros Hc Hl H0. rewrite (rotateConnect_unfold w Hc).
  open_world w. cbn in Hl, H0. subst l.
  unfold rotate_select. monad. change (size (@nil URI)) with 0.
  replace (0 <=? ai) with true by (symmetry; apply Z.leb_le; exact H0).
  reflexivity.
Qed.

Lemma rotateConnect_empty_list_throws_witness :
  rotateConnect (boot (settings_for []) idle_farm)
  = Throw out_of_range
      (set_mgr (set_activeConnectionIdx 0 (mgr (boot (settings_for []) idle_farm)))
               (boot (settings_for []) idle_farm)).
Proof.
  apply (rotateConnect_empty_list_throws (boot (settings_for []) idle_farm));
    [reflexivity | reflexivity | vm_compute; discriminate].
Defined.

(** *** Timers *)

(** X10. The failover timer.  A cancelled wait, a manager that is not
    running, and a manager already on the primary endpoint leave everything
    as it is.  Otherwise the handler selects index 0, resets the attempts,
    counts one connection switch and asks the client to disconnect; the
    connection list is not touched. *)
Theorem failovertimer_returns_to_primary (ec : bool) (w : World) :
  (ec = true \/ m_running (mgr w) = false \/ m_activeConnectionIdx (mgr w) = 0 ->
   failovertimer_elapsed ec w = Done tt w)
  /\ (ec = false -> m_running (mgr w) = true -> m_activeConnectionIdx (mgr w) <> 0 ->
      forall c, p_client (mgr w) = Some c ->
      exists w',
        failovertimer_elapsed ec w = Done tt w'
        /\ m_activeConnectionIdx (mgr w') = 0
        /\ m_connectionAttempt (mgr w') = 0
        /\ m_connectionSwitches (mgr w') = incr32 (m_connectionSwitches (mgr w))
        /\ m_Settings (mgr w') = m_Settings (mgr w)
        /\ p_client (mgr w') = Some c
        /\ last (trace w') = Some ClientDisconnect
        /\ io_queue w'
           = io_queue w ++ (if m_connected c then [ClientDisconnected] else [])).
Proof.
  unfold failovertimer_elapsed. split.
  - intros [-> | [Hr | Hi]]; [reflexivity | |].
    + destruct ec; monad; [reflexivity|]. rewrite Hr. reflexivity.
    + destruct ec; monad; [reflexivity|].
      destruct (m_running (mgr w)); cbn; [|reflexivity].
      rewrite Hi. reflexivity.
  - intros -> Hr Hi c Hc. apply Z.eqb_neq in Hi.
    open_world w. cbn in Hr, Hi, Hc. subst r pc.
    monad. rewrite Hi. cbn.
    destruct (m_connected c); cbn;
      eexists; repeat split; try reflexivity; try apply last_snoc;
      cbn; now rewrite ?app_nil_r.
Qed.

Lemma failovertimer_returns_to_primary_witness :
  failovertimer_elapsed false connected = Done tt connected
  /\ exists w',
       failovertimer_elapsed false two_pools_on_backup = Done tt w'
       /\ m_activeConnectionIdx (mgr w') = 0
       /\ m_connectionAttempt (mgr w') = 0
       /\ m_connectionSwitches (mgr w')
          = incr32 (m_connectionSwitches (mgr two_pools_on_backup))
       /\ last (trace w') = Some ClientDisconnect.
Proof.
  split.
  - apply (failovertimer_returns_to_primary false connected).
    right. right. reflexivity.
  - assert (Hc : exists c, p_client (mgr two_pools_on_backup) = Some c)
      by (vm_compute; eexists; reflexivity).
    destruct Hc as [c Hc].
    destruct (proj2 (failovertimer_returns_to_primary false two_pools_on_backup)
                eq_refl ltac:(vm_compute; reflexivity) ltac:(vm_compute; discriminate)
                c Hc)
      as (w' & H1 & H2 & H3 & H4 & _ & _ & H7 & _).
    exists w'. repeat split; assumption.
Defined.

(** X11. The hashrate timer keeps itself going exactly while the manager
    runs: after a wait that was not cancelled, on a running manager, it is
    armed again for [hashRateInterval] seconds, whether or not a client is
    connected; the rate is submitted only when the client is connected.  A
    cancelled wait, or a manager that is not running, arms nothing and
    submits nothing. *)
Theorem submithrtimer_rearms_while_running (ec : bool) (w : World) :
  (ec = true \/ m_running (mgr w) = false ->
   submithrtimer_elapsed ec w = Done tt w)
  /\ (ec = false -> m_running (mgr w) = true ->
      submithrtimer_elapsed ec w
      = Done tt
          (set_mgr
             (set_submithrtimer (Some (hashRateInterval (m_Settings (mgr w)))) (mgr w))
             (if client_isConnected (mgr w)
              then set_trace
                     (trace w ++ [ClientSubmitHashrate (wrap32 (HashRate (farm w)))
                                    (hashRateId (m_Settings (mgr w)))]) w
              else w))).
Proof.
  unfold submithrtimer_elapsed. split.
  - intros [-> | Hr]; [reflexivity|].
    destruct ec; monad; [reflexivity|]. rewrite Hr. reflexivity.
  - intros -> Hr. unfold client_isConnected. monad. rewrite Hr. cbn.
    unfold client_isConnected.
    destruct (p_client (mgr w)) as [c|] eqn:Hc; cbn; [|reflexivity].
    destruct (m_connected c) eqn:Hcon; cbn; rewrite ?Hc; reflexivity.
Qed.

Lemma submithrtimer_rearms_while_running_witness :
  submithrtimer_elapsed true connected = Done tt connected
  /\ submithrtimer_elapsed false connected
     = Done tt
         (set_mgr
            (set_submithrtimer (Some (hashRateInterval (m_Settings (mgr connected))))
               (mgr connected))
            (if client_isConnected (mgr connected)
             then set_trace
                    (trace connected
                     ++ [ClientSubmitHashrate (wrap32 (HashRate (farm connected)))
                           (hashRateId (m_Settings (mgr connected)))]) connected
             else connected)).
Proof.
  split.
  - apply (submithrtimer_rearms_while_running true connected). left. reflexivity.
  - apply (submithrtimer_rearms_while_running false connected); reflexivity.
Defined.

(** *** Client events *)

(** X12. What [onConnected] leaves in the manager, for a client that has its
    endpoint: outstanding operations are cleared; the current package is
    emptied (no header, no job); the failover timer waits
    [poolFailoverTimeout] minutes exactly when the active index is not 0 and
    the timeout is not 0, and is idle otherwise; the hashrate timer waits
    [hashRateInterval] seconds when reporting is on, and is left as it was
    when reporting is off.  Index, attempts, switches and the list are not
    touched. *)
Theorem onConnected_arms_timers (w : World) (c : PoolClient) (u : URI) :
  p_client (mgr w) = Some c ->
  m_conn c = Some u ->
  exists w',
    onConnected w = Done tt w'
    /\ m_async_pending (mgr w') = false
    /\ present (m_currentWp (mgr w')) = false
    /\ job (m_currentWp (mgr w')) = ""
    /\ m_failovertimer (mgr w')
       = (if negb (m_activeConnectionIdx (mgr w) =? 0)
             && negb (poolFailoverTimeout (m_Settings (mgr w)) =? 0)
          then Some (60 * poolFailoverTimeout (m_Settings (mgr w))) else None)
    /\ m_submithrtimer (mgr w')
       = (if reportHashrate (m_Settings (mgr w))
          then Some (hashRateInterval (m_Settings (mgr w)))
          else m_submithrtimer (mgr w))
    /\ m_activeConnectionIdx (mgr w') = m_activeConnectionIdx (mgr w)
    /\ m_connectionAttempt (mgr w') = m_connectionAttempt (mgr w)
    /\ m_connectionSwitches (mgr w') = m_connectionSwitches (mgr w)
    /\ m_Settings (mgr w') = m_Settings (mgr w)
    /\ m_running (mgr w') = m_running (mgr w)
    /\ io_queue w' = io_queue w.
Proof.
  intros Hc Hu. open_world w. cbn in Hc. subst pc.
  unfold onConnected. monad. rewrite Hu. cbn.
  destruct (is_Dns_or_Basic (HostNameType u)) eqn:Hd;
    destruct (String.eqb (ActiveEndPoint c) "") eqn:He;
    destruct (get_ergodicity f =? 1) eqn:Hg;
    destruct (negb (ai =? 0) && negb (pf =? 0)) eqn:Hf;
    destruct (isMining f) eqn:Hm; destruct (paused f) eqn:Hpa;
    destruct rh;
    repeat (progress (cbn; rewrite ?Hd, ?He, ?Hg, ?Hf, ?Hm, ?Hpa));
    eexists; repeat split; reflexivity.
Qed.

Lemma onConnected_arms_timers_witness :
  exists w',
    onConnected two_pools = Done tt w'
    /\ m_async_pending (mgr w') = false
    /\ present (m_currentWp (mgr w')) = false
    /\ job (m_currentWp (mgr w')) = ""
    /\ m_failovertimer (mgr w')
       = (if negb (m_activeConnectionIdx (mgr two_pools) =? 0)
             && negb (poolFailoverTimeout (m_Settings (mgr two_pools)) =? 0)
          then Some (60 * poolFailoverTimeout (m_Settings (mgr two_pools))) else None)
    /\ m_submithrtimer (mgr w')
       = (if reportHashrate (m_Settings (mgr two_pools))
          then Some (hashRateInterval (m_Settings (mgr two_pools)))
          else m_submithrtimer (mgr two_pools))
    /\ m_activeConnectionIdx (mgr w') = m_activeConnectionIdx (mgr two_pools)
    /\ m_connectionAttempt (mgr w') = m_connectionAttempt (mgr two_pools)
    /\ m_connectionSwitches (mgr w') = m_connectionSwitches (mgr two_pools)
    /\ m_Settings (mgr w') = m_Settings (mgr two_pools)
    /\ m_running (mgr w') = m_running (mgr two_pools)
    /\ io_queue w' = io_queue two_pools.
Proof.
  apply (onConnected_arms_timers two_pools
           {| variant := EthStratumClient 100000 2; m_conn := Some pool_test;
              m_connected := true; ActiveEndPoint := " [10.0.0.1:3333]";
              handlers_bound := true |} pool_test); reflexivity.
Defined.

(** X13. What [onDisconnected] leaves, for a manager that has a client: the
    client's endpoint is unset, the current package is emptied and both
    timers are idle.  While the manager is not stopping, operations are
    marked outstanding and exactly one [rotateConnect] is queued behind what
    is already waiting, and the manager keeps running.  While it is
    stopping, nothing is queued and the manager stops running. *)
Theorem onDisconnected_requeues_unless_stopping (w : World) (c : PoolClient) :
  p_client (mgr w) = Some c ->
  exists w',
    onDisconnected w = Done tt w'
    /\ p_client (mgr w') = Some (client_set_conn None c)
    /\ present (m_currentWp (mgr w')) = false
    /\ m_failovertimer (mgr w') = None
    /\ m_submithrtimer (mgr w') = None
    /\ (if m_stopping (mgr w)
        then m_running (mgr w') = false
             /\ io_queue w' = io_queue w
             /\ m_async_pending (mgr w') = m_async_pending (mgr w)
        else m_running (mgr w') = m_running (mgr w)
             /\ io_queue w' = io_queue w ++ [RotateConnect]
             /\ m_async_pending (mgr w') = true).
Proof.
  intros Hc. open_world w. cbn in Hc. subst pc.
  unfold onDisconnected. monad.
  destruct st; [destruct (isMining f) eqn:Hm|];
    repeat (progress (cbn; rewrite ?Hm));
    eexists; repeat split; reflexivity.
Qed.

Lemma onDisconnected_requeues_unless_stopping_witness :
  exists w',
    onDisconnected connected = Done tt w'
    /\ p_client (mgr w')
       = Some (client_set_conn None
                 {| variant := EthStratumClient 100000 2; m_conn := Some pool_test;
                    m_connected := true; ActiveEndPoint := " [10.0.0.1:3333]";
                    handlers_bound := true |})
    /\ present (m_currentWp (mgr w')) = false
    /\ m_failovertimer (mgr w') = None
    /\ m_submithrtimer (mgr w') = None
    /\ (if m_stopping (mgr connected)
        then m_running (mgr w') = false
             /\ io_queue w' = io_queue connected
             /\ m_async_pending (mgr w') = m_async_pending (mgr connected)
        else m_running (mgr w') = m_running (mgr connected)
             /\ io_queue w' = io_queue connected ++ [RotateConnect]
             /\ m_async_pending (mgr w') = true).
Proof.
  apply (onDisconnected_requeues_unless_stopping connected). reflexivity.
Defined.

(** *** How the operations compose *)

(** X14. Selecting another endpoint lands on it.  On an idle manager with a
    connected client and nothing waiting on the io service, a call of
    [setActiveConnection(idx)] for a recoverable endpoint other than the
    active one, with at least one retry allowed, followed by two turns of
    the io service (the client's disconnect notification, then the
    [rotateConnect] it queues) ends with a new client told to connect to the
    endpoint at [idx]: that endpoint is the active one, the attempt is the
    first, exactly one connection switch was counted, and operations stay
    marked outstanding until the client connects. *)
Theorem setActiveConnection_lands_on (idx : Z) (w : World) (c : PoolClient) (v : URI) :
  m_async_pending (mgr w) = false ->
  m_stopping (mgr w) = false ->
  p_client (mgr w) = Some c ->
  m_connected c = true ->
  handlers_bound c = true ->
  io_queue w = [] ->
  0 <= idx ->
  idx <> m_activeConnectionIdx (mgr w) ->
  conns (mgr w) !! Z.to_nat idx = Some v ->
  IsUnrecoverable v = false ->
  Host v <> "exit" ->
  0 < connectionMaxRetries (m_Settings (mgr w)) ->
  exists w1 w2 w3,
    setActiveConnection false idx w = Done tt w1
    /\ io_run_one w1 = Done tt w2
    /\ io_run_one w2 = Done tt w3
    /\ getActiveConnection (mgr w3) = Some v
    /\ p_client (mgr w3) = Some (client_for (m_Settings (mgr w)) v)
    /\ m_connectionAttempt (mgr w3) = 1
    /\ m_connectionSwitches (mgr w3) = incr32 (m_connectionSwitches (mgr w))
    /\ m_async_pending (mgr w3) = true
    /\ m_running (mgr w3) = m_running (mgr w)
    /\ io_queue w3 = []
    /\ last (trace w3) = Some ClientConnect.
Proof.
  intros Hp Hst Hc Hcon Hh Hq H0 Hne Hv Hrec Hexit Hmax.
  pose proof (lookup_in_bounds _ _ _ Hv) as Hb.
  apply Z.eqb_neq in Hne.
  open_world w. cbn in Hp, Hst, Hc, Hq, Hne, Hv, Hb, Hmax. subst ap st pc q.
  set (W := {| mgr := _; farm := f; io_queue := []; trace := t |}).
  assert (H1 : setActiveConnection false idx W
               = Done tt (final (setActiveConnection false idx W))).
  { subst W. unfold setActiveConnection, setActiveConnectionCommon,
      compare_exchange_weak_async_pending.
    repeat (progress (monad; rewrite ?Hb, ?Hne, ?Hcon)). reflexivity. }
  set (w1 := final (setActiveConnection false idx W)) in *.
  assert (H2 : io_run_one w1 = Done tt (final (io_run_one w1))).
  { subst w1 W. unfold setActiveConnection, setActiveConnectionCommon,
      compare_exchange_weak_async_pending.
    repeat (progress (monad; rewrite ?Hb, ?Hne, ?Hcon)).
    unfold io_run_one. cbn [io_queue app run_task].
    unfold client_emits_disconnected, onDisconnected.
    repeat (progress (monad; rewrite ?Hh, ?Hcon)). reflexivity. }
  set (w2 := final (io_run_one w1)) in *.
  (* what the two steps have left *)
  assert (Hw2 : io_queue w2 = [RotateConnect]
                /\ client_isConnected (mgr w2) = false
                /\ conns (mgr w2) = l
                /\ m_activeConnectionIdx (mgr w2) = idx
                /\ m_connectionAttempt (mgr w2) = 0
                /\ connectionMaxRetries (m_Settings (mgr w2)) = mr
                /\ m_connectionSwitches (mgr w2) = incr32 cs
                /\ m_async_pending (mgr w2) = true
                /\ m_running (mgr w2) = r
                /\ client_for (m_Settings (mgr w2)) v
                   = client_for (m_Settings (mgr W)) v).
  { subst w2 w1 W. unfold setActiveConnection, setActiveConnectionCommon,
      compare_exchange_weak_async_pending.
    repeat (progress (monad; rewrite ?Hb, ?Hne, ?Hcon)).
    unfold io_run_one. cbn [io_queue app run_task].
    unfold client_emits_disconnected, onDisconnected.
    repeat (progress (monad; rewrite ?Hh, ?Hcon)).
    repeat split; reflexivity. }
  destruct Hw2 as (Hq2 & Hc2 & Hl2 & Hi2 & Ha2 & Hm2 & Hs2 & Hp2 & Hr2 & Hcf).
  (* the queued rotateConnect *)
  set (w2q := set_io_queue [] w2).
  assert (Hv2 : conns (mgr w2q) !! Z.to_nat (m_activeConnectionIdx (mgr w2q)) = Some v).
  { subst w2q. cbn [mgr set_io_queue]. rewrite Hl2, Hi2. exact Hv. }
  assert (Hlt2 : m_connectionAttempt (mgr w2q)
                 < connectionMaxRetries (m_Settings (mgr w2q))).
  { subst w2q. cbn [mgr set_io_queue]. rewrite Ha2, Hm2. exact Hmax. }
  destruct (rotate_launch_usable w2q v Hv2 Hexit) as (w3 & Hrun & Hl).
  assert (H3 : io_run_one w2 = Done tt w3).
  { unfold io_run_one. rewrite Hq2. cbn [run_task]. fold w2q.
    rewrite (rotateConnect_unfold w2q) by exact Hc2.
    unfold bind. rewrite (rotate_select_retry w2q v Hv2 Hrec Hlt2). exact Hrun. }
  destruct Hl as (Ha & Hi & Hs & Hset & Hr & Hpc & _ & Htr & Hap & Hio).
  exists w1, w2, w3. split; [exact H1|]. split; [exact H2|]. split; [exact H3|].
  subst w2q. cbn [mgr set_io_queue trace] in *.
  repeat split.
  - unfold getActiveConnection, conns. rewrite Hset, Hi, Hi2.
    fold (conns (mgr w2)). rewrite Hl2. exact Hv.
  - rewrite Hpc. f_equal. exact Hcf.
  - rewrite Ha, Ha2. reflexivity.
  - rewrite Hs, Hs2. reflexivity.
  - rewrite Hap. exact Hp2.
  - rewrite Hr. exact Hr2.
  - exact Hio.
  - rewrite Htr.
    match goal with
    | |- context [?x ++ [?a; ?b]] => change (x ++ [a; b]) with (x ++ [a] ++ [b])
    end.
    rewrite app_assoc. apply last_snoc.
Qed.

Lemma setActiveConnection_lands_on_witness :
  exists w1 w2 w3,
    setActiveConnection false 1 two_pools = Done tt w1
    /\ io_run_one w1 = Done tt w2
    /\ io_run_one w2 = Done tt w3
    /\ getActiveConnection (mgr w3) = Some backup_test
    /\ p_client (mgr w3) = Some (client_for (m_Settings (mgr two_pools)) backup_test)
    /\ m_connectionAttempt (mgr w3) = 1
    /\ m_connectionSwitches (mgr w3) = incr32 (m_connectionSwitches (mgr two_pools))
    /\ m_async_pending (mgr w3) = true
    /\ m_running (mgr w3) = m_running (mgr two_pools)
    /\ io_queue w3 = []
    /\ last (trace w3) = Some ClientConnect.
Proof.
  apply (setActiveConnection_lands_on 1 two_pools
           {| variant := EthStratumClient 100000 2; m_conn := Some pool_test;
              m_connected := true; ActiveEndPoint := " [10.0.0.1:3333]";
              handlers_bound := true |} backup_test);
    try reflexivity; vm_compute; discriminate.
Defined.

(** X15. [stop()] is idempotent where it returns: called on a manager whose
    client is not connected, or whose client is connected with nothing else
    waiting on the io service (and at least one poll allowed), a second
    call returns as well and leaves the state exactly as the first call left
    it, timers, flags, client, farm, queue and calls made included. *)
Theorem stop_is_idempotent (polls polls' : nat) (w : World) :
  client_isConnected (mgr w) = false
  \/ (exists c, p_client (mgr w) = Some c /\ m_connected c = true
                /\ handlers_bound c = true /\ io_queue w = [] /\ polls <> O) ->
  exists w', stop polls w = Done tt w' /\ stop polls' w' = Done tt w'.
Proof.
  intros H. destruct (m_running (mgr w)) eqn:Hr.
  - destruct H as [Hc | (c & Hc & Hcon & Hh & Hq & Hpolls)].
    + unfold client_isConnected in Hc.
      open_world w. cbn in Hr, Hc. subst r.
      unfold stop, client_isConnected.
      destruct (isMining f) eqn:Hm;
        repeat (progress (monad; rewrite ?Hc, ?Hm));
        eexists; (split; [reflexivity|]);
        repeat (progress (cbn; rewrite ?Hc, ?Hm)); reflexivity.
    + destruct polls as [|n]; [congruence|].
      destruct (stop_with_connection n w c Hr Hc Hcon Hh Hq)
        as (w' & Hs & Hr' & _).
      exists w'. split; [exact Hs|]. apply stop_idle. exact Hr'.
  - exists w. split; apply stop_idle; exact Hr.
Qed.

Lemma stop_is_idempotent_witness :
  exists w', stop 1 connected = Done tt w' /\ stop 1 w' = Done tt w'.
Proof.
  apply (stop_is_idempotent 1 1 connected). right.
  eexists. repeat split; try reflexivity. discriminate.
Defined.

(** *** What is handed to the farm *)

Section Calls.
Variable ok : effect -> Prop.

Lemma keeps_ret {A} (a : A) : keeps_calls ok (ret a).
Proof. intros w H. exact H. Qed.

Lemma keeps_bind {A B} (m : M A) (f : A -> M B) :
  keeps_calls ok m -> (forall a, keeps_calls ok (f a)) -> keeps_calls ok (bind m f).
Proof.
  intros Hm Hf w H. unfold bind. specialize (Hm w H).
  destruct (m w) as [a w'|e w'|w'|w']; cbn in *; auto.
  apply Hf. exact Hm.
Qed.

Lemma keeps_gets {A} (f : PoolManager -> A) : keeps_calls ok (gets f).
Proof. intros w H. exact H. Qed.

Lemma keeps_getsFarm {A} (f : Farm -> A) : keeps_calls ok (getsFarm f).
Proof. intros w H. exact H. Qed.

Lemma keeps_modify (f : PoolManager -> PoolManager) : keeps_calls ok (modify f).
Proof. intros w H. exact H. Qed.

Lemma keeps_modifyFarm (f : Farm -> Farm) : keeps_calls ok (modifyFarm f).
Proof. intros w H. exact H. Qed.

Lemma keeps_post (t : task) : keeps_calls ok (post t).
Proof. intros w H. exact H. Qed.

Lemma keeps_throw {A} (e : exn) : keeps_calls ok (@throw A e).
Proof. intros w H. exact H. Qed.

Lemma keeps_spin {A} : keeps_calls ok (@spin A).
Proof. intros w H. exact H. Qed.

Lemma keeps_null_deref {A} : keeps_calls ok (@null_deref A).
Proof. intros w H. exact H. Qed.

Lemma keeps_value {A} (o : option A) : keeps_calls ok (value o).
Proof. destruct o; intros w H; exact H. Qed.

Lemma keeps_at {A} (l : list A) (i : Z) : keeps_calls ok (at_ l i).
Proof. unfold at_. destruct (l !! Z.to_nat i); intros w H; exact H. Qed.

Lemma keeps_client : keeps_calls ok client.
Proof. intros w H. unfold client. destruct (p_client (mgr w)); exact H. Qed.

Lemma keeps_emit (e : effect) : ok e -> keeps_calls ok (emit e).
Proof.
  intros He w H. cbn. apply Forall_app. split; [exact H|]. repeat constructor. exact He.
Qed.

Lemma keeps_when (b : bool) (m : M unit) :
  keeps_calls ok m -> keeps_calls ok (when b m).
Proof. intros Hm. destruct b; [exact Hm | apply keeps_ret]. Qed.

End Calls.

(** Break a member function down to its primitive steps; what is left are
    the calls it makes. *)
Ltac calls_step :=
  first
    [ apply keeps_bind; [|intros ?]
    | apply keeps_ret
    | apply keeps_gets
    | apply keeps_getsFarm
    | apply keeps_modify
    | apply keeps_modifyFarm
    | apply keeps_post
    | apply keeps_throw
    | apply keeps_spin
    | apply keeps_null_deref
    | apply keeps_value
    | apply keeps_at
    | apply keeps_client
    | apply keeps_when
    | apply keeps_emit
    | match goal with
      | |- keeps_calls _ (if ?b then _ else _) => destruct b
      | |- keeps_calls _ (match ?o with Some _ => _ | None => _ end) => destruct o
      | |- keeps_calls _ (match ?o with GETWORK => _ | _ => _ end) => destruct o
      | |- keeps_calls _ (let _ := _ in _) => cbv zeta
      end ].

Ltac calls :=
  cbv [modify_client Farm_start Farm_stop Farm_pause Farm_resume Farm_shuffle
       Farm_accountSolution client_connect client_disconnect
       client_setConnection client_unsetConnection client_getConnection
       client_submitSolution client_submitHashrate setClientHandlers
       compare_exchange_weak_async_pending];
  repeat calls_step; try exact I.

Lemma dispatch_onSolutionFound sol : keeps_calls sound_dispatch (onSolutionFound sol).
Proof. unfold onSolutionFound. calls. Qed.

Lemma dispatch_onMinerRestart : keeps_calls sound_dispatch onMinerRestart.
Proof. unfold onMinerRestart. calls. Qed.

Lemma dispatch_onSolutionAccepted d i s :
  keeps_calls sound_dispatch (onSolutionAccepted d i s).
Proof. unfold onSolutionAccepted. calls. Qed.

Lemma dispatch_onSolutionRejected d i :
  keeps_calls sound_dispatch (onSolutionRejected d i).
Proof. unfold onSolutionRejected. calls. Qed.

Lemma dispatch_onConnected : keeps_calls sound_dispatch onConnected.
Proof. unfold onConnected. calls. Qed.

Lemma dispatch_onDisconnected : keeps_calls sound_dispatch onDisconnected.
Proof. unfold onDisconnected. calls. Qed.

Lemma dispatch_start : keeps_calls sound_dispatch start.
Proof. unfold start. calls. Qed.

Lemma dispatch_addConnection u : keeps_calls sound_dispatch (addConnection u).
Proof. unfold addConnection. calls. Qed.

Lemma dispatch_removeConnection idx : keeps_calls sound_dispatch (removeConnection idx).
Proof. unfold removeConnection. calls. Qed.

Lemma dispatch_setActiveConnection sp idx :
  keeps_calls sound_dispatch (setActiveConnection sp idx).
Proof. unfold setActiveConnection, setActiveConnectionCommon. calls. Qed.

Lemma dispatch_setActiveConnection_str sp s :
  keeps_calls sound_dispatch (setActiveConnection_str sp s).
Proof. unfold setActiveConnection_str, setActiveConnectionCommon. calls. Qed.

Lemma dispatch_rotateConnect : keeps_calls sound_dispatch rotateConnect.
Proof.
  unfold rotateConnect, rotate_select, rotate_launch, selected_is_usable. calls.
Qed.

Lemma dispatch_failovertimer_elapsed ec :
  keeps_calls sound_dispatch (failovertimer_elapsed ec).
Proof. unfold failovertimer_elapsed. calls. Qed.

Lemma dispatch_submithrtimer_elapsed ec :
  keeps_calls sound_dispatch (submithrtimer_elapsed ec).
Proof. unfold submithrtimer_elapsed. calls. Qed.

Lemma dispatch_client_emits_disconnected :
  keeps_calls sound_dispatch client_emits_disconnected.
Proof. unfold client_emits_disconnected. calls. Qed.

Lemma dispatch_client_fails_to_connect :
  keeps_calls sound_dispatch client_fails_to_connect.
Proof. unfold client_fails_to_connect. calls. Qed.

Lemma dispatch_client_emits_connected ep :
  keeps_calls sound_dispatch (client_emits_connected ep).
Proof. unfold client_emits_connected. calls. Qed.

Lemma dispatch_io_run_one : keeps_calls sound_dispatch io_run_one.
Proof.
  intros w H. unfold io_run_one.
  destruct (io_queue w) as [|t rest]; [exact H|].
  destruct t; cbn [run_task].
  - apply dispatch_rotateConnect. exact H.
  - apply dispatch_client_emits_disconnected. exact H.
Qed.

Lemma dispatch_wait_while_running polls :
  keeps_calls sound_dispatch (wait_while_running polls).
Proof.
  induction polls as [|n IH]; cbn [wait_while_running]; calls.
  - apply dispatch_io_run_one.
  - exact IH.
Qed.

Lemma dispatch_stop polls : keeps_calls sound_dispatch (stop polls).
Proof. unfold stop. calls. apply dispatch_wait_while_running. Qed.

Lemma dispatch_onWorkReceived (wp : WorkPackage) (w : World) :
  currentWp_has_epoch (mgr w) ->
  Forall sound_dispatch (trace w) ->
  Forall sound_dispatch (trace (final (onWorkReceived wp w))).
Proof.
  intros Hinv Hok.
  destruct (present wp) eqn:Hp; [destruct (block wp) as [b|] eqn:Hb|].
  - assert (Hgood : dispatchable
              (match epoch wp with
               | Some _ => wp
               | None => set_epoch (Some (wrap32 (b / Ethash.kEpoch_length))) wp
               end)).
    { unfold dispatchable. destruct (epoch wp) eqn:He; cbn;
        rewrite ?present_set_epoch, ?Hp, ?Hb, ?He; auto. }
    revert Hgood.
    unfold onWorkReceived. rewrite Hp, Hb. cbn [negb orb has_value].
    unfold currentWp_has_epoch in Hinv. unfold showMiningAt.
    destruct (present (m_currentWp (mgr w))) eqn:Hcur.
    + destruct (has_value_Some _ (Hinv eq_refl)) as [ce Hce].
      destruct (epoch wp) as [we|] eqn:Hwe; monad; crunch; intros Hgood.
      * destruct (ce =? we) eqn:He;
          destruct (eqb (get_boundary (m_currentWp (mgr w))) (get_boundary wp)) eqn:Hd;
          crunch; rewrite !Forall_app; repeat split; auto; repeat constructor; auto.
      * destruct (ce =? wrap32 (b / Ethash.kEpoch_length)) eqn:He;
          destruct (eqb (get_boundary (m_currentWp (mgr w))) (get_boundary wp)) eqn:Hd;
          crunch; rewrite !Forall_app; repeat split; auto; repeat constructor; auto.
    + destruct (epoch wp) as [we|] eqn:Hwe; monad; crunch; intros Hgood;
        rewrite !Forall_app; repeat split; auto; repeat constructor; auto.
  - rewrite onWorkReceived_rejects by auto. cbn.
    apply Forall_app. split; [exact Hok | repeat constructor].
  - rewrite onWorkReceived_rejects by auto. cbn.
    apply Forall_app. split; [exact Hok | repeat constructor].
Qed.



End PoolFacts.

(* ===================================================================== *)
(** ** The search loop *)

Section SearchLoop.
Import UInt FixedHash Work Cuda Samples SearchNotions.

Local Open Scope list_scope.
Local Open Scope Z_scope.

Lemma wrap64_add_l (a b : Z) : wrap64 (wrap64 a + b) = wrap64 (a + b).
Proof. unfold wrap64. apply Z.add_mod_idemp_l. lia. Qed.

Lemma wrap64_small (a : Z) : 0 <= a < 2 ^ 64 -> wrap64 a = a.
Proof. intros H. unfold wrap64. apply Z.mod_small. exact H. Qed.

Lemma launch_nonces_app (a b : list event) :
  launch_nonces (a ++ b) = launch_nonces a ++ launch_nonces b.
Proof. unfold launch_nonces. apply omap_app. Qed.

Lemma how_many_app (p : event -> bool) (a b : list event) :
  how_many p (a ++ b) = how_many p a + how_many p b.
Proof. unfold how_many. rewrite List.filter_app, length_app. lia. Qed.

Lemma launch_nonces_submit_found m w now base found :
  launch_nonces (submit_found m w now base found) = [].
Proof. induction found as [|r rs IH]; [reflexivity | exact IH]. Qed.

Lemma how_many_sync_submit_found m w now base found :
  how_many is_sync (submit_found m w now base found) = 0.
Proof.
  unfold how_many. induction found as [|r rs IH]; [reflexivity | exact IH].
Qed.

Lemma how_many_submit_submit_found m w now base found :
  how_many is_submit (submit_found m w now base found) = Z.of_nat (length found).
Proof.
  unfold how_many. induction found as [|r rs IH]; [reflexivity|].
  cbn [submit_found flat_map app List.filter is_submit length] in *.
  rewrite Nat2Z.inj_succ. unfold submit_found in IH. rewrite IH. lia.
Qed.

Lemma launched_with_submit_found kix hdr tgt m w now base found :
  Forall (launched_with kix hdr tgt) (submit_found m w now base found).
Proof.
  induction found as [|r rs IH]; [constructor|].
  cbn [submit_found flat_map app]. repeat constructor. exact IH.
Qed.


Lemma same_config_fields (m0 m : CUDAMiner) :
  same_config m0 m ->
  m_settings m = m_settings m0 /\ m_batch_size m = m_batch_size m0
  /\ m_streams_batch_size m = m_streams_batch_size m0
  /\ m_kernelExecIx m = m_kernelExecIx m0
  /\ m_current_target m = m_current_target m0
  /\ m_index m = m_index m0.
Proof.
  unfold same_config. intros H.
  repeat split.
  - exact (f_equal m_settings H).
  - exact (f_equal m_batch_size H).
  - exact (f_equal m_streams_batch_size H).
  - exact (f_equal m_kernelExecIx H).
  - exact (f_equal m_current_target H).
  - exact (f_equal m_index H).
Qed.

Lemma same_config_new_work (m0 m : CUDAMiner) (b : bool) :
  same_config m0 m -> same_config m0 (with_new_work b m).
Proof. unfold same_config. intros H. exact H. Qed.

Lemma nonce_at_succ (nonce0 B : Z) (k : nat) :
  wrap64 (nonce_at nonce0 B (Z.of_nat k) + B) = nonce_at nonce0 B (Z.of_nat (S k)).
Proof.
  unfold nonce_at. rewrite wrap64_add_l. f_equal. lia.
Qed.

Section Run.
Variables (nonce0 : Z) (hdr : h256) (w : WorkPackage) (m0 : CUDAMiner).

(** A turn of the priming loop. *)
Lemma run_inv_prime (todo : nat) :
  forall (ci : Z) (st : locals) (k : nat),
    run_inv nonce0 hdr m0 st k k -> done st = false ->
    run_inv nonce0 hdr m0 (prime todo ci hdr st) (k + todo) (k + todo)
    /\ done (prime todo ci hdr st) = false.
Proof.
  induction todo as [|todo IH]; intros ci st k Hinv Hd; cbn [prime].
  - rewrite Nat.add_0_r. auto.
  - replace (k + S todo)%nat with (S k + todo)%nat by lia.
    apply IH; [|exact Hd].
    destruct Hinv as (Hnk & Hdone & Hcfg & Hsn & Hln & Hlw & Hcnt).
    destruct (same_config_fields _ _ Hcfg) as (_ & HB & _ & Hk & Ht & _).
    unfold run_inv. cbn [done miner start_nonce out].
    split; [lia|]. split; [auto|]. split; [exact Hcfg|].
    split; [rewrite Hsn, HB; apply nonce_at_succ|].
    split.
    { rewrite launch_nonces_app, Hln, seqZ_S, fmap_app. cbn. rewrite Hsn.
      do 3 f_equal. }
    split.
    { apply Forall_app. split; [exact Hlw|]. repeat constructor; cbn; auto. }
    rewrite !how_many_app. cbn. unfold how_many at 2 4. cbn. lia.
Qed.

(** A turn of the inner loop. *)
Lemma run_inv_stream_turn (o : stream_obs) (ci : Z) (st : locals) (k n : nat) :
  run_inv nonce0 hdr m0 st k n ->
  exists n',
    (n <= n')%nat
    /\ run_inv nonce0 hdr m0 (stream_turn o ci hdr w st) (S k) n'
    /\ (done st = true -> n' = n /\ done (stream_turn o ci hdr w st) = true).
Proof.
  intros (Hnk & Hdone & Hcfg & Hsn & Hln & Hlw & Hcnt).
  destruct (same_config_fields _ _ Hcfg) as (_ & HB & _ & Hk & Ht & _).
  set (found := take (Z.to_nat (Z.min (wrap32 (count (so_buffer o))) MAX_SEARCH_RESULTS))
                     (result (so_buffer o))).
  assert (Hfound : Z.of_nat (length found) <= 4).
  { subst found. rewrite length_take. unfold MAX_SEARCH_RESULTS. lia. }
  assert (Hzero : (Z.min (wrap32 (count (so_buffer o))) MAX_SEARCH_RESULTS =? 0) = true
                  -> found = []).
  { intros E. apply Z.eqb_eq in E. subst found. rewrite E. reflexivity. }
  unfold stream_turn. fold found.
  destruct (so_shouldStop o) eqn:Hstop.
  - (* a stop request: no launch *)
    exists n. split; [lia|]. split; [|auto].
    unfold run_inv. cbn [done miner start_nonce out].
    split; [lia|]. split; [discriminate|].
    split; [apply same_config_new_work; exact Hcfg|].
    split; [cbn; rewrite Hsn, HB; apply nonce_at_succ|].
    destruct (Z.min (wrap32 (count (so_buffer o))) MAX_SEARCH_RESULTS =? 0) eqn:E.
    + split; [rewrite launch_nonces_app, Hln; cbn; apply app_nil_r|].
      split; [apply Forall_app; split; [exact Hlw | repeat constructor]|].
      rewrite !how_many_app. unfold how_many at 2 4. cbn. lia.
    + split.
      { rewrite !launch_nonces_app, launch_nonces_submit_found, Hln. cbn.
        now rewrite !app_nil_r. }
      split.
      { rewrite !Forall_app. repeat split; [exact Hlw | repeat constructor |].
        apply launched_with_submit_found. }
      rewrite !how_many_app, how_many_submit_submit_found, how_many_sync_submit_found.
      unfold how_many at 2 4. cbn. lia.
  - destruct (done st) eqn:Hd.
    + (* done already: no launch *)
      exists n. split; [lia|]. split; [|auto].
      unfold run_inv. cbn [done miner start_nonce out].
      split; [lia|]. split; [discriminate|].
      split; [exact Hcfg|].
      split; [rewrite Hsn, HB; apply nonce_at_succ|].
      destruct (Z.min (wrap32 (count (so_buffer o))) MAX_SEARCH_RESULTS =? 0) eqn:E.
      * split; [rewrite launch_nonces_app, Hln; cbn; apply app_nil_r|].
        split; [apply Forall_app; split; [exact Hlw | repeat constructor]|].
        rewrite !how_many_app. unfold how_many at 2 4. cbn. lia.
      * split.
        { rewrite !launch_nonces_app, launch_nonces_submit_found, Hln. cbn.
          now rewrite !app_nil_r. }
        split.
        { rewrite !Forall_app. repeat split; [exact Hlw | repeat constructor |].
          apply launched_with_submit_found. }
        rewrite !how_many_app, how_many_submit_submit_found, how_many_sync_submit_found.
        unfold how_many at 2 4. cbn. lia.
    + (* still searching: the stream is started again *)
      specialize (Hdone eq_refl). subst n.
      exists (S k). split; [lia|]. split; [|discriminate].
      unfold run_inv. cbn [done miner start_nonce out].
      split; [lia|]. split; [auto|].
      split; [exact Hcfg|].
      split; [rewrite Hsn, HB; apply nonce_at_succ|].
      destruct (Z.min (wrap32 (count (so_buffer o))) MAX_SEARCH_RESULTS =? 0) eqn:E.
      * split.
        { rewrite !launch_nonces_app, Hln, seqZ_S, fmap_app. cbn. rewrite Hsn, app_nil_r.
          do 3 f_equal. }
        split.
        { rewrite !Forall_app. repeat split; [exact Hlw | repeat constructor |].
          repeat constructor; cbn; auto. }
        rewrite !how_many_app. unfold how_many at 2 3 5 6. cbn. lia.
      * split.
        { rewrite !launch_nonces_app, launch_nonces_submit_found, Hln, seqZ_S, fmap_app.
          cbn. rewrite Hsn, !app_nil_r. do 3 f_equal. }
        split.
        { rewrite !Forall_app.
          repeat split; [exact Hlw | repeat constructor | |].
          - repeat constructor; cbn; auto.
          - apply launched_with_submit_found. }
        rewrite !how_many_app, how_many_submit_submit_found, how_many_sync_submit_found.
        unfold how_many at 2 3 5 6. cbn. lia.
Qed.


(** The inner loop. *)
Lemma run_inv_stream_turns (r : round_obs) (todo : nat) :
  forall (ci : Z) (st : locals) (k n : nat),
    run_inv nonce0 hdr m0 st k n ->
    exists n',
      (n <= n')%nat
      /\ run_inv nonce0 hdr m0 (stream_turns todo ci r hdr w st) (k + todo) n'
      /\ (done st = true ->
          n' = n /\ done (stream_turns todo ci r hdr w st) = true).
Proof.
  induction todo as [|todo IH]; intros ci st k n Hinv; cbn [stream_turns].
  - exists n. rewrite Nat.add_0_r. auto.
  - destruct (run_inv_stream_turn (ro_stream r ci) ci st k n Hinv)
      as (n1 & Hle1 & Hinv1 & Hd1).
    destruct (IH (ci + 1) _ _ _ Hinv1) as (n2 & Hle2 & Hinv2 & Hd2).
    exists n2. replace (k + S todo)%nat with (S k + todo)%nat by lia.
    split; [lia|]. split; [exact Hinv2|].
    intros Hd. destruct (Hd1 Hd) as [-> Hd']. exact (Hd2 Hd').
Qed.

(** Changes to the locals that the invariant does not see. *)
Lemma run_inv_adjust (st : locals) (k n : nat) (m : CUDAMiner) (d : bool)
    (e : event) :
  run_inv nonce0 hdr m0 st k n ->
  same_config m0 m ->
  (done st = true -> d = true) ->
  launch_nonce e = None -> is_submit e = false -> is_sync e = false ->
  run_inv nonce0 hdr m0
    {| miner := m; start_nonce := start_nonce st; done := d; out := out st |} k n
  /\ run_inv nonce0 hdr m0
       {| miner := m; start_nonce := start_nonce st; done := d; out := out st ++ [e] |}
       k n.
Proof.
  intros (Hnk & Hdone & Hcfg & Hsn & Hln & Hlw & Hcnt) Hm Hd He1 He2 He3.
  assert (Hdn : d = false -> n = k).
  { intros ->. apply Hdone. destruct (done st); [specialize (Hd eq_refl); discriminate | reflexivity]. }
  split; unfold run_inv; cbn [done miner start_nonce out];
    (split; [exact Hnk|]); (split; [exact Hdn|]); (split; [exact Hm|]);
    (split; [exact Hsn|]).
  - auto.
  - split; [rewrite launch_nonces_app, Hln; cbn; rewrite He1; apply app_nil_r|].
    split.
    + apply Forall_app. split; [exact Hlw|]. repeat constructor.
      destruct e; cbn in *; try exact I; discriminate.
    + rewrite !how_many_app. unfold how_many at 2 4. cbn. rewrite He2, He3. cbn. lia.
Qed.

(** The outer loop. *)
Lemma run_inv_rounds (obs : list round_obs) :
  forall (st st' : locals) (k n : nat),
    run_inv nonce0 hdr m0 st k n ->
    rounds obs hdr w st = Some st' ->
    exists k' n', (n <= n')%nat /\ run_inv nonce0 hdr m0 st' k' n'.
Proof.
  induction obs as [|r obs IH]; intros st st' k n Hinv Hrun; cbn [rounds] in Hrun.
  - destruct (done st); [|discriminate]. injection Hrun as <-. eauto.
  - destruct (done st) eqn:Hd; [injection Hrun as <-; eauto|].
    cbn [orb] in Hrun.
    set (mk := if ro_kicked r then with_new_work true (miner st) else miner st) in *.
    assert (Hmk : same_config m0 mk).
    { destruct Hinv as (_ & _ & Hcfg & _). subst mk.
      destruct (ro_kicked r); [apply same_config_new_work|]; exact Hcfg. }
    set (d0 := m_new_work mk || ro_paused r) in *.
    destruct (run_inv_adjust st k n mk d0 (UpdateHashRate 0 0) Hinv Hmk) as [Hinv0 _];
      try reflexivity.
    { rewrite Hd. discriminate. }
    set (st0 := {| miner := mk; start_nonce := start_nonce st; done := d0; out := out st |})
      in *.
    destruct (run_inv_stream_turns r (Z.to_nat (streams (m_settings mk))) 0 st0 k n Hinv0)
      as (n1 & Hle1 & Hinv1 & _).
    set (st1 := stream_turns _ 0 r hdr w st0) in *.
    set (k1 := (k + Z.to_nat (streams (m_settings mk)))%nat) in *.
    assert (Hcfg1 : same_config m0 (miner st1)) by (destruct Hinv1 as (_ & _ & H & _); exact H).
    destruct (run_inv_adjust st1 k1 n1 (miner st1) (done st1)
                (UpdateHashRate (m_batch_size (miner st1))
                   (streams (m_settings (miner st1)))) Hinv1 Hcfg1)
      as [_ Hinv2]; try reflexivity; [auto|].
    cbn [miner start_nonce done out] in Hrun.
    destruct (ro_shouldStop r).
    + injection Hrun as <-. exists k1, n1. split; [exact Hle1|].
      set (st2 := {| miner := miner st1; start_nonce := start_nonce st1;
                     done := done st1; out := _ |}) in *.
      refine (proj1 (run_inv_adjust st2 k1 n1 (with_new_work false (miner st1)) (done st1)
                       (UpdateHashRate 0 0) Hinv2 _ _ eq_refl eq_refl eq_refl));
        [apply same_config_new_work; exact Hcfg1 | auto].
    + destruct (IH _ _ _ _ Hinv2 Hrun) as (k' & n' & Hle & Hinv').
      exists k', n'. split; [lia | exact Hinv'].
Qed.


(** What the rounds that did not end the search have done. *)
Lemma rounds_unfinished (pre : list round_obs) :
  forall (st : locals) (k : nat),
    run_inv nonce0 hdr m0 st k k -> done st = false ->
    rounds pre hdr w st = None ->
    exists st1,
      done st1 = false
      /\ run_inv nonce0 hdr m0 st1
           (k + Z.to_nat (streams (m_settings m0)) * length pre)
           (k + Z.to_nat (streams (m_settings m0)) * length pre)
      /\ forall l, rounds (pre ++ l) hdr w st = rounds l hdr w st1.
Proof.
  induction pre as [|r pre IH]; intros st k Hinv Hd Hnone.
  - exists st. cbn [length app]. rewrite Nat.mul_0_r, Nat.add_0_r. auto.
  - cbn [rounds] in Hnone. rewrite Hd in Hnone. cbn [orb] in Hnone.
    set (mk := if ro_kicked r then with_new_work true (miner st) else miner st) in *.
    assert (Hmk : same_config m0 mk).
    { destruct Hinv as (_ & _ & Hcfg & _). subst mk.
      destruct (ro_kicked r); [apply same_config_new_work|]; exact Hcfg. }
    set (d0 := m_new_work mk || ro_paused r) in *.
    destruct (run_inv_adjust st k k mk d0 (UpdateHashRate 0 0) Hinv Hmk) as [Hinv0 _];
      try reflexivity.
    { rewrite Hd. discriminate. }
    set (st0 := {| miner := mk; start_nonce := start_nonce st; done := d0; out := out st |})
      in *.
    destruct (run_inv_stream_turns r (Z.to_nat (streams (m_settings mk))) 0 st0 k k Hinv0)
      as (n1 & Hle1 & Hinv1 & _).
    set (st1 := stream_turns _ 0 r hdr w st0) in *.
    assert (Hcfg1 : same_config m0 (miner st1))
      by (destruct Hinv1 as (_ & _ & H & _); exact H).
    destruct (run_inv_adjust st1 _ n1 (miner st1) (done st1)
                (UpdateHashRate (m_batch_size (miner st1))
                   (streams (m_settings (miner st1)))) Hinv1 Hcfg1)
      as [_ Hinv2]; try reflexivity; [auto|].
    cbn [miner start_nonce done out] in Hnone.
    destruct (ro_shouldStop r) eqn:Hstop; [discriminate|].
    set (st2 := {| miner := miner st1; start_nonce := start_nonce st1;
                   done := done st1; out := _ |}) in *.
    assert (Hd2 : done st2 = false).
    { destruct (done st2) eqn:E; [|reflexivity].
      destruct pre; cbn [rounds] in Hnone; rewrite E in Hnone; discriminate. }
    assert (Hn1 : n1 = (k + Z.to_nat (streams (m_settings mk)))%nat).
    { destruct Hinv2 as (_ & H & _). exact (H Hd2). }
    subst n1.
    assert (HS : streams (m_settings mk) = streams (m_settings m0)).
    { destruct (same_config_fields _ _ Hmk) as (-> & _). reflexivity. }
    rewrite HS in *.
    destruct (IH st2 _ Hinv2 Hd2 Hnone) as (st3 & Hd3 & Hinv3 & Hrest).
    exists st3. split; [exact Hd3|]. split.
    + cbn [length].
      replace (k + Z.to_nat (streams (m_settings m0)) * S (length pre))%nat
        with (k + Z.to_nat (streams (m_settings m0))
              + Z.to_nat (streams (m_settings m0)) * length pre)%nat by lia.
      exact Hinv3.
    + intros l. rewrite <- Hrest. cbn [app rounds]. rewrite Hd. cbn [orb].
      cbn [miner start_nonce done out]. rewrite Hstop. reflexivity.
Qed.

(** A round entered with new work flagged or arriving, or with the miner
    paused, is the last: every stream is collected, none is started again. *)
Lemma rounds_interrupted (r : round_obs) (st : locals) (k : nat) :
  run_inv nonce0 hdr m0 st k k -> done st = false ->
  interrupts (miner st) r = true ->
  exists st',
    (forall rest, rounds (r :: rest) hdr w st = Some st')
    /\ run_inv nonce0 hdr m0 st' (k + Z.to_nat (streams (m_settings m0))) k.
Proof.
  intros Hinv Hd Hint. cbn [rounds]. rewrite Hd. cbn [orb].
  set (mk := if ro_kicked r then with_new_work true (miner st) else miner st) in *.
  assert (Hmk : same_config m0 mk).
  { destruct Hinv as (_ & _ & Hcfg & _). subst mk.
    destruct (ro_kicked r); [apply same_config_new_work|]; exact Hcfg. }
  assert (Hd0 : (m_new_work mk || ro_paused r) = true).
  { unfold interrupts in Hint. subst mk.
    destruct (ro_kicked r); cbn in *; [reflexivity|].
    destruct (m_new_work (miner st)); cbn in *; [reflexivity | exact Hint]. }
  rewrite Hd0.
  pose proof (proj1 (run_inv_adjust st k k mk true (UpdateHashRate 0 0) Hinv Hmk
                       (fun _ => eq_refl) eq_refl eq_refl eq_refl)) as Hinv0.
  set (st0 := {| miner := mk; start_nonce := start_nonce st; done := true; out := out st |})
    in *.
  destruct (run_inv_stream_turns r (Z.to_nat (streams (m_settings mk))) 0 st0 k k Hinv0)
    as (n1 & Hle1 & Hinv1 & Hdone1).
  destruct (Hdone1 eq_refl) as [-> Hd1].
  set (st1 := stream_turns _ 0 r hdr w st0) in *.
  assert (Hcfg1 : same_config m0 (miner st1))
    by (destruct Hinv1 as (_ & _ & H & _); exact H).
  destruct (run_inv_adjust st1 _ k (miner st1) (done st1)
              (UpdateHashRate (m_batch_size (miner st1))
                 (streams (m_settings (miner st1)))) Hinv1 Hcfg1)
    as [_ Hinv2]; try reflexivity; [auto|].
  assert (HS : streams (m_settings mk) = streams (m_settings m0)).
  { destruct (same_config_fields _ _ Hmk) as (-> & _). reflexivity. }
  rewrite HS in *.
  cbn [miner start_nonce done out].
  set (st2 := {| miner := miner st1; start_nonce := start_nonce st1;
                 done := done st1; out := _ |}) in *.
  destruct (ro_shouldStop r).
  - eexists. split; [intros rest; reflexivity|].
    refine (proj1 (run_inv_adjust st2 _ k (with_new_work false (miner st1)) (done st1)
                     (UpdateHashRate 0 0) Hinv2 _ _ eq_refl eq_refl eq_refl));
      [apply same_config_new_work; exact Hcfg1 | auto].
  - exists st2. split; [|exact Hinv2].
    intros rest. destruct rest; cbn [rounds]; cbn [done st2]; rewrite Hd1; reflexivity.
Qed.

(** A round with a stop request at its bottom is the last, and leaves the
    new-work flag cleared. *)
Lemma rounds_stopped (r : round_obs) (st : locals) :
  done st = false -> ro_shouldStop r = true ->
  exists st',
    (forall rest, rounds (r :: rest) hdr w st = Some st')
    /\ m_new_work (miner st') = false.
Proof.
  intros Hd Hstop. cbn [rounds]. rewrite Hd, Hstop.
  eexists. split; [intros rest|]; reflexivity.
Qed.


(** *** The nonces of the submissions *)

Lemma in_launched_batch_mono (n n' : nat) (ix : Z) (e : event) :
  (n <= n')%nat ->
  in_launched_batch nonce0 (m_batch_size m0) n w ix e ->
  in_launched_batch nonce0 (m_batch_size m0) n' w ix e.
Proof.
  intros Hle. destruct e; cbn; auto.
  intros ((j & g & Hj & Hg & Hn) & Hw & Hi). repeat split; auto.
  exists j, g. repeat split; auto; lia.
Qed.

Lemma in_launched_batch_all_mono (n n' : nat) (ix : Z) (evs : list event) :
  (n <= n')%nat ->
  Forall (in_launched_batch nonce0 (m_batch_size m0) n w ix) evs ->
  Forall (in_launched_batch nonce0 (m_batch_size m0) n' w ix) evs.
Proof.
  intros Hle H. eapply Forall_impl; [exact H|].
  intros e. apply in_launched_batch_mono. exact Hle.
Qed.

(** The base of the nonces of a turn is the start of the batch launched one
    round earlier. *)
Lemma nonce_base_is_batch (B s g : Z) (k : nat) :
  0 <= s -> (Z.to_nat s <= k)%nat ->
  wrap64 (wrap64 (nonce_at nonce0 B (Z.of_nat k) - s * B) + g)
  = wrap64 (nonce_at nonce0 B (Z.of_nat (k - Z.to_nat s)) + g).
Proof.
  intros Hs Hk. unfold nonce_at, wrap64.
  rewrite Zminus_mod_idemp_l, !Zplus_mod_idemp_l.
  f_equal. rewrite Nat2Z.inj_sub, Z2Nat.id by lia. lia.
Qed.

Lemma submit_found_in_batch (m : CUDAMiner) (now : Z) (k n : nat)
    (found : list Search_result) :
  0 <= streams (m_settings m0) ->
  (Z.to_nat (streams (m_settings m0)) <= k)%nat ->
  (k < n + Z.to_nat (streams (m_settings m0)))%nat ->
  Forall (fun res => 0 <= gid res < m_batch_size m0) found ->
  Forall (in_launched_batch nonce0 (m_batch_size m0) n w (m_index m))
    (submit_found m w now
       (wrap64 (nonce_at nonce0 (m_batch_size m0) (Z.of_nat k)
                - streams (m_settings m0) * m_batch_size m0)) found).
Proof.
  intros Hs Hk Hn Hg. induction Hg as [|res found Hres Hg IH]; [constructor|].
  cbn [submit_found flat_map app]. constructor; [|constructor; [exact I | exact IH]].
  cbn. repeat split.
  exists (Z.of_nat (k - Z.to_nat (streams (m_settings m0)))), (gid res).
  split; [lia|]. split; [exact Hres|].
  apply nonce_base_is_batch; assumption.
Qed.

Lemma stream_turn_in_batch (o : stream_obs) (ci : Z) (st : locals) (k n n' : nat) :
  run_inv nonce0 hdr m0 st k n ->
  m_streams_batch_size m0 = streams (m_settings m0) * m_batch_size m0 ->
  0 <= streams (m_settings m0) ->
  (Z.to_nat (streams (m_settings m0)) <= k)%nat ->
  (k < n + Z.to_nat (streams (m_settings m0)))%nat ->
  Forall (fun res => 0 <= gid res < m_batch_size m0) (result (so_buffer o)) ->
  (n <= n')%nat ->
  Forall (in_launched_batch nonce0 (m_batch_size m0) n w (m_index m0)) (out st) ->
  Forall (in_launched_batch nonce0 (m_batch_size m0) n' w (m_index m0))
    (out (stream_turn o ci hdr w st)).
Proof.
  intros (Hnk & Hdone & Hcfg & Hsn & Hln & Hlw & Hcnt) HSB Hs Hk Hn Hg Hle Hsub.
  destruct (same_config_fields _ _ Hcfg) as (_ & _ & HSB' & _ & _ & Hix).
  pose proof (in_launched_batch_all_mono n n' _ _ Hle Hsub) as Hsub'.
  assert (Hm1 : forall b : bool,
             m_streams_batch_size (if b then with_new_work false (miner st) else miner st)
             = streams (m_settings m0) * m_batch_size m0
             /\ m_index (if b then with_new_work false (miner st) else miner st)
                = m_index m0).
  { intros []; cbn; rewrite HSB', Hix, HSB; auto. }
  unfold stream_turn. cbn [out].
  destruct (Hm1 (so_shouldStop o)) as [E1 E2].
  set (m1 := if so_shouldStop o then with_new_work false (miner st) else miner st) in *.
  assert (Hout2 : Forall (in_launched_batch nonce0 (m_batch_size m0) n' w (m_index m0))
            (if (if so_shouldStop o then true else done st)
             then out st ++ [StreamSynchronize ci]
             else (out st ++ [StreamSynchronize ci])
                  ++ [launch m1 ci (start_nonce st) hdr])).
  { destruct (if so_shouldStop o then true else done st);
      rewrite ?Forall_app; repeat split; auto; repeat constructor. }
  destruct (Z.min (wrap32 (count (so_buffer o))) MAX_SEARCH_RESULTS =? 0); [exact Hout2|].
  apply Forall_app. split; [exact Hout2|].
  rewrite E1, Hsn, <- E2.
  apply in_launched_batch_all_mono with (n := n); [exact Hle|].
  apply submit_found_in_batch; auto.
  apply Forall_take. exact Hg.
Qed.

Lemma stream_turns_in_batch (r : round_obs) (todo : nat) :
  forall (ci : Z) (st : locals) (k n : nat),
    run_inv nonce0 hdr m0 st k n ->
    m_streams_batch_size m0 = streams (m_settings m0) * m_batch_size m0 ->
    0 <= streams (m_settings m0) ->
    (Z.to_nat (streams (m_settings m0)) <= k)%nat ->
    (k + todo <= n + Z.to_nat (streams (m_settings m0)))%nat ->
    gids_below (m_batch_size m0) r ->
    Forall (in_launched_batch nonce0 (m_batch_size m0) n w (m_index m0)) (out st) ->
    exists n',
      (n <= n')%nat
      /\ run_inv nonce0 hdr m0 (stream_turns todo ci r hdr w st) (k + todo) n'
      /\ Forall (in_launched_batch nonce0 (m_batch_size m0) n' w (m_index m0))
           (out (stream_turns todo ci r hdr w st)).
Proof.
  induction todo as [|todo IH]; intros ci st k n Hinv HSB Hs Hk Hn Hg Hsub;
    cbn [stream_turns].
  - exists n. rewrite Nat.add_0_r. auto.
  - destruct (run_inv_stream_turn (ro_stream r ci) ci st k n Hinv)
      as (n1 & Hle1 & Hinv1 & _).
    assert (Hsub1 := stream_turn_in_batch (ro_stream r ci) ci st k n n1 Hinv HSB Hs Hk
                       ltac:(lia) (Hg ci) Hle1 Hsub).
    destruct (IH (ci + 1) _ (S k) n1 Hinv1 HSB Hs ltac:(lia) ltac:(lia) Hg Hsub1)
      as (n2 & Hle2 & Hinv2 & Hsub2).
    exists n2. replace (k + S todo)%nat with (S k + todo)%nat by lia.
    split; [lia|]. split; assumption.
Qed.

Lemma rounds_in_batch (obs : list round_obs) :
  forall (st st' : locals) (k n : nat),
    run_inv nonce0 hdr m0 st k n ->
    m_streams_batch_size m0 = streams (m_settings m0) * m_batch_size m0 ->
    0 <= streams (m_settings m0) ->
    (Z.to_nat (streams (m_settings m0)) <= k)%nat ->
    Forall (gids_below (m_batch_size m0)) obs ->
    Forall (in_launched_batch nonce0 (m_batch_size m0) n w (m_index m0)) (out st) ->
    rounds obs hdr w st = Some st' ->
    exists n',
      launch_nonces (out st')
      = nonce_at nonce0 (m_batch_size m0) <$> seqZ 0 (Z.of_nat n')
      /\ Forall (in_launched_batch nonce0 (m_batch_size m0) n' w (m_index m0)) (out st').
Proof.
  induction obs as [|r obs IH]; intros st st' k n Hinv HSB Hs Hk Hg Hsub Hrun;
    cbn [rounds] in Hrun.
  - destruct (done st); [|discriminate]. injection Hrun as <-.
    exists n. split; [|exact Hsub]. destruct Hinv as (_ & _ & _ & _ & H & _). exact H.
  - destruct (done st) eqn:Hd.
    { injection Hrun as <-.
      exists n. split; [|exact Hsub]. destruct Hinv as (_ & _ & _ & _ & H & _). exact H. }
    cbn [orb] in Hrun.
    assert (Hnk : n = k) by (destruct Hinv as (_ & H & _); exact (H Hd)). subst n.
    set (mk := if ro_kicked r then with_new_work true (miner st) else miner st) in *.
    assert (Hmk : same_config m0 mk).
    { destruct Hinv as (_ & _ & Hcfg & _). subst mk.
      destruct (ro_kicked r); [apply same_config_new_work|]; exact Hcfg. }
    set (d0 := m_new_work mk || ro_paused r) in *.
    destruct (run_inv_adjust st k k mk d0 (UpdateHashRate 0 0) Hinv Hmk) as [Hinv0 _];
      try reflexivity.
    { rewrite Hd. discriminate. }
    set (st0 := {| miner := mk; start_nonce := start_nonce st; done := d0; out := out st |})
      in *.
    assert (HS : streams (m_settings mk) = streams (m_settings m0)).
    { destruct (same_config_fields _ _ Hmk) as (-> & _). reflexivity. }
    destruct (stream_turns_in_batch r (Z.to_nat (streams (m_settings mk))) 0 st0 k k
                Hinv0 HSB Hs Hk ltac:(rewrite HS; lia) (Forall_inv Hg) Hsub)
      as (n1 & Hle1 & Hinv1 & Hsub1).
    set (st1 := stream_turns _ 0 r hdr w st0) in *.
    assert (Hcfg1 : same_config m0 (miner st1))
      by (destruct Hinv1 as (_ & _ & H & _); exact H).
    pose proof (proj2 (run_inv_adjust st1 _ n1 (miner st1) (done st1)
                  (UpdateHashRate (m_batch_size (miner st1))
                     (streams (m_settings (miner st1)))) Hinv1 Hcfg1
                  (fun H => H) eq_refl eq_refl eq_refl)) as Hinv2.
    cbn [miner start_nonce done out] in Hrun.
    set (st2 := {| miner := miner st1; start_nonce := start_nonce st1;
                   done := done st1; out := _ |}) in *.
    assert (Hsub2 : Forall (in_launched_batch nonce0 (m_batch_size m0) n1 w (m_index m0))
                      (out st2)).
    { cbn [out st2]. apply Forall_app. split; [exact Hsub1 | repeat constructor]. }
    destruct (ro_shouldStop r).
    + injection Hrun as <-. exists n1. cbn [out]. split; [|exact Hsub2].
      destruct Hinv2 as (_ & _ & _ & _ & H & _). exact H.
    + apply (IH st2 st' _ n1 Hinv2 HSB Hs ltac:(lia) (Forall_inv_tail Hg) Hsub2 Hrun).
Qed.

End Run.

Lemma search_run_inv (m : CUDAMiner) (hdr : h256) (target nonce0 : Z)
    (w : WorkPackage) (obs : list round_obs) (m' : CUDAMiner) (evs : list event) :
  search m hdr target nonce0 w obs = Some (m', evs) ->
  target <> UINT64_MAX ->
  0 <= nonce0 < 2 ^ 64 ->
  let m0 := if negb (m_current_target (with_header hdr m) =? target)
            then with_target target (with_header hdr m) else with_header hdr m in
  exists (st' : locals) (k n : nat),
    (Z.to_nat (streams (m_settings m)) <= n)%nat
    /\ run_inv nonce0 hdr m0 st' k n
    /\ m' = miner st' /\ evs = out st'.
Proof.
  intros Hrun Hmax Hn0 m0. unfold search in Hrun. fold m0 in Hrun.
  replace (target =? UINT64_MAX) with false in Hrun
    by (symmetry; apply Z.eqb_neq; exact Hmax).
  set (out1 := if negb (m_current_target (with_header hdr m) =? target)
               then [SetHeader hdr] ++ [SetTarget target] else [SetHeader hdr]) in *.
  set (st0 := {| miner := m0; start_nonce := nonce0; done := false; out := out1 |}) in *.
  assert (Hinv0 : run_inv nonce0 hdr m0 st0 0 0).
  { unfold run_inv. cbn [done miner start_nonce out].
    split; [lia|]. split; [auto|]. split; [reflexivity|].
    split; [unfold nonce_at; cbn; rewrite Z.add_0_r; symmetry; apply wrap64_small; exact Hn0|].
    subst out1.
    destruct (negb (m_current_target (with_header hdr m) =? target));
      (split; [reflexivity|]); (split; [repeat constructor|]);
      unfold how_many; cbn; lia. }
  assert (Hstreams : streams (m_settings m0) = streams (m_settings m)).
  { subst m0. destruct (negb (m_current_target (with_header hdr m) =? target)); reflexivity. }
  destruct (run_inv_prime nonce0 hdr m0 (Z.to_nat (streams (m_settings m0))) 0 st0 0 Hinv0
              eq_refl) as [Hinv1 _].
  cbn [Nat.add] in Hinv1.
  destruct (rounds obs hdr w _) as [st'|] eqn:Hr; [|discriminate].
  injection Hrun as <- <-.
  destruct (run_inv_rounds nonce0 hdr w m0 obs _ st' _ _ Hinv1 Hr) as (k' & n' & Hle & Hinv').
  exists st', k', n'. rewrite <- Hstreams. auto.
Qed.


(** The loop without the invariant: the rounds that did not end the search
    can be split off. *)
Lemma rounds_split (hdr : h256) (w : WorkPackage) (pre : list round_obs) :
  forall st : locals,
    rounds pre hdr w st = None ->
    exists st1,
      done st1 = false /\ forall l, rounds (pre ++ l) hdr w st = rounds l hdr w st1.
Proof.
  induction pre as [|r pre IH]; intros st Hnone.
  - exists st. split; [|reflexivity].
    cbn [rounds] in Hnone. destruct (done st); [discriminate | reflexivity].
  - cbn [rounds] in Hnone.
    destruct (done st) eqn:Hd; [discriminate|].
    destruct (ro_shouldStop r) eqn:Hstop; [discriminate|].
    destruct (IH _ Hnone) as (st1 & Hd1 & Hrest).
    exists st1. split; [exact Hd1|].
    intros l. rewrite <- Hrest. cbn [app rounds]. rewrite Hd, Hstop. reflexivity.
Qed.

(** The miner once [search] has written header and target. *)
Lemma job_miner_fields (m : CUDAMiner) (hdr : h256) (target : Z) :
  let m0 := if negb (m_current_target (with_header hdr m) =? target)
            then with_target target (with_header hdr m) else with_header hdr m in
  m_settings m0 = m_settings m /\ m_batch_size m0 = m_batch_size m
  /\ m_kernelExecIx m0 = m_kernelExecIx m /\ m_current_target m0 = target
  /\ m_new_work m0 = m_new_work m /\ m_index m0 = m_index m
  /\ m_streams_batch_size m0 = m_streams_batch_size m.
Proof.
  cbn [m_current_target with_header].
  destruct (m_current_target m =? target) eqn:E; cbn; repeat split.
  apply Z.eqb_eq. exact E.
Qed.

Lemma prime_in_batch (nonce0 : Z) (hdr : h256) (w : WorkPackage) (B ix : Z) (n : nat)
    (todo : nat) :
  forall (ci : Z) (st : locals),
    Forall (in_launched_batch nonce0 B n w ix) (out st) ->
    Forall (in_launched_batch nonce0 B n w ix) (out (prime todo ci hdr st)).
Proof.
  induction todo as [|todo IH]; intros ci st H; cbn [prime]; [exact H|].
  apply IH. cbn [out]. apply Forall_app. split; [exact H | repeat constructor].
Qed.

(** X17. A search that returns for a target below the maximum has launched
    its kernels on consecutive batches of nonces: the [j]-th launch was given
    the start nonce [nonce0 + j * m_batch_size] (modulo 2^64), none skipped
    and none repeated, and there was at least one launch per stream. *)
Theorem search_launches_consecutive_batches (m : CUDAMiner) (hdr : h256)
    (target nonce0 : Z) (w : WorkPackage) (obs : list round_obs)
    (m' : CUDAMiner) (evs : list event) :
  search m hdr target nonce0 w obs = Some (m', evs) ->
  target <> UINT64_MAX ->
  0 <= nonce0 < 2 ^ 64 ->
  exists n : nat,
    (Z.to_nat (streams (m_settings m)) <= n)%nat
    /\ launch_nonces evs
       = nonce_at nonce0 (m_batch_size m) <$> seqZ 0 (Z.of_nat n).
Proof.
  intros Hrun Hmax Hn0.
  pose proof (search_run_inv _ _ _ _ _ _ _ _ Hrun Hmax Hn0) as H. cbv zeta in H.
  destruct H as (st' & k & n & Hle & Hinv & -> & ->).
  destruct (job_miner_fields m hdr target) as (_ & HB & _).
  destruct Hinv as (_ & _ & _ & _ & Hln & _).
  exists n. split; [exact Hle|]. rewrite Hln, HB. reflexivity.
Qed.

Lemma search_launches_consecutive_batches_witness :
  exists (m' : CUDAMiner) (evs : list event),
    search miner0 (header harder_job) harder_target 0 harder_job [found_round]
    = Some (m', evs)
    /\ exists n : nat,
         (Z.to_nat (streams (m_settings miner0)) <= n)%nat
         /\ launch_nonces evs
            = nonce_at 0 (m_batch_size miner0) <$> seqZ 0 (Z.of_nat n).
Proof.
  eexists. eexists. split; [reflexivity|].
  eapply (search_launches_consecutive_batches miner0 (header harder_job) harder_target 0
           harder_job [found_round]).
  - reflexivity.
  - discriminate.
  - lia.
Defined.

(** X18. Every kernel a search launches is given the header and the target
    of the call and the kernel slot the miner had on entry, and on return
    the miner's cached target is the target of the call. *)
Theorem search_launches_use_job (m : CUDAMiner) (hdr : h256)
    (target nonce0 : Z) (w : WorkPackage) (obs : list round_obs)
    (m' : CUDAMiner) (evs : list event) :
  search m hdr target nonce0 w obs = Some (m', evs) ->
  target <> UINT64_MAX ->
  0 <= nonce0 < 2 ^ 64 ->
  Forall (launched_with (m_kernelExecIx m) hdr target) evs
  /\ m_current_target m' = target
  /\ m_kernelExecIx m' = m_kernelExecIx m.
Proof.
  intros Hrun Hmax Hn0.
  pose proof (search_run_inv _ _ _ _ _ _ _ _ Hrun Hmax Hn0) as H. cbv zeta in H.
  destruct H as (st' & k & n & Hle & Hinv & -> & ->).
  destruct (job_miner_fields m hdr target) as (_ & _ & Hk & Ht & _).
  destruct Hinv as (_ & _ & Hcfg & _ & _ & Hlw & _).
  destruct (same_config_fields _ _ Hcfg) as (_ & _ & _ & Hk' & Ht' & _).
  rewrite Hk, Ht in Hlw. rewrite Hk', Ht', Hk, Ht. auto.
Qed.

Lemma search_launches_use_job_witness :
  exists (m' : CUDAMiner) (evs : list event),
    search miner0 (header harder_job) harder_target 0 harder_job [found_round]
    = Some (m', evs)
    /\ Forall (launched_with (m_kernelExecIx miner0) (header harder_job) harder_target) evs
    /\ m_current_target m' = harder_target
    /\ m_kernelExecIx m' = m_kernelExecIx miner0.
Proof.
  eexists. eexists. split; [reflexivity|].
  eapply (search_launches_use_job miner0 (header harder_job) harder_target 0
           harder_job [found_round]).
  - reflexivity.
  - discriminate.
  - lia.
Defined.

(** X19. Whatever the kernels leave in the result buffers, a search hands at
    most [MAX_SEARCH_RESULTS] solutions to the farm for each stream it has
    synchronised. *)
Theorem search_submits_at_most_four_per_sync (m : CUDAMiner) (hdr : h256)
    (target nonce0 : Z) (w : WorkPackage) (obs : list round_obs)
    (m' : CUDAMiner) (evs : list event) :
  search m hdr target nonce0 w obs = Some (m', evs) ->
  0 <= nonce0 < 2 ^ 64 ->
  how_many is_submit evs <= MAX_SEARCH_RESULTS * how_many is_sync evs.
Proof.
  intros Hrun Hn0.
  destruct (Z.eq_dec target UINT64_MAX) as [->|Hmax].
  - rewrite search_max_target in Hrun. injection Hrun as <- <-.
    unfold skip_events. destruct (m_current_target m =? UINT64_MAX); vm_compute; discriminate.
  - pose proof (search_run_inv _ _ _ _ _ _ _ _ Hrun Hmax Hn0) as H. cbv zeta in H.
    destruct H as (st' & k & n & Hle & Hinv & -> & ->).
    destruct Hinv as (_ & _ & _ & _ & _ & _ & Hcnt). exact Hcnt.
Qed.

Lemma search_submits_at_most_four_per_sync_witness :
  exists (m' : CUDAMiner) (evs : list event),
    search miner0 (header harder_job) harder_target 0 harder_job [found_round]
    = Some (m', evs)
    /\ how_many is_submit evs <= MAX_SEARCH_RESULTS * how_many is_sync evs.
Proof.
  eexists. eexists. split; [reflexivity|].
  eapply (search_submits_at_most_four_per_sync miner0 (header harder_job) harder_target 0
           harder_job [found_round]).
  - reflexivity.
  - lia.
Defined.



(** X21. A search still running after the rounds [pre] returns at the end of
    the next round if a stop is requested then, whatever would follow, and
    leaves the new-work flag cleared: a job that arrived during that round is
    not flagged any more. *)
Theorem search_stop_clears_new_work (m : CUDAMiner) (hdr : h256)
    (target nonce0 : Z) (w : WorkPackage) (pre : list round_obs) (r : round_obs) :
  search m hdr target nonce0 w pre = None ->
  ro_shouldStop r = true ->
  exists (m' : CUDAMiner) (evs : list event),
    (forall rest, search m hdr target nonce0 w (pre ++ r :: rest) = Some (m', evs))
    /\ m_new_work m' = false.
Proof.
  intros Hnone Hstop.
  unfold search in *.
  destruct (target =? UINT64_MAX); [discriminate|].
  match type of Hnone with
  | match rounds pre hdr w ?s with _ => _ end = None => set (st1 := s) in *
  end.
  destruct (rounds pre hdr w st1) as [?|] eqn:Hpre; [discriminate|].
  destruct (rounds_split hdr w pre st1 Hpre) as (st2 & Hd2 & Hrest).
  destruct (rounds_stopped hdr w r st2 Hd2 Hstop) as (st3 & Hr3 & Hnw).
  exists (miner st3), (out st3). split; [|exact Hnw].
  intros rest. rewrite Hrest, Hr3. reflexivity.
Qed.

Lemma search_stop_clears_new_work_witness :
  exists (m' : CUDAMiner) (evs : list event),
    (forall rest,
       search miner0 (header harder_job) harder_target 0 harder_job
         ([calm_round] ++ found_round :: rest) = Some (m', evs))
    /\ m_new_work m' = false.
Proof.
  apply (search_stop_clears_new_work miner0 (header harder_job) harder_target 0
           harder_job [calm_round] found_round).
  - vm_compute. reflexivity.
  - reflexivity.
Defined.



End SearchLoop.

(* ===================================================================== *)
(** ** The kernel slots across period changes *)

Section KernelSlots.
Import UInt Kernels KernelNotions.

Local Open Scope Z_scope.

Lemma lxor_1_twice (e : Z) : Z.lxor (Z.lxor e 1) 1 = e.
Proof. rewrite Z.lxor_assoc. cbn. apply Z.lxor_0_r. Qed.

Lemma lxor_1_neq (e : Z) : Z.lxor e 1 <> e.
Proof.
  intros H.
  assert (H1 : Z.lxor e (Z.lxor e 1) = 1).
  { rewrite <- Z.lxor_assoc, Z.lxor_nilpotent. reflexivity. }
  rewrite H, Z.lxor_nilpotent in H1. discriminate.
Qed.

Lemma eqb_lxor_1_l (e : Z) : (Z.lxor e 1 =? e) = false.
Proof. apply Z.eqb_neq. apply lxor_1_neq. Qed.

Lemma eqb_lxor_1_r (e : Z) : (e =? Z.lxor e 1) = false.
Proof. apply Z.eqb_neq. intros H. symmetry in H. revert H. apply lxor_1_neq. Qed.

Lemma lxor_1_swap (c e : Z) : Z.lxor c 1 = e -> c = Z.lxor e 1.
Proof. intros <-. symmetry. apply lxor_1_twice. Qed.

Lemma wrap64_succ (p : Z) : 0 <= p -> p + 1 < 2 ^ 64 -> wrap64 (p + 1) = p + 1.
Proof. intros H0 H1. unfold wrap64. apply Z.mod_small. lia. Qed.

Ltac kernel_eq :=
  first
    [ rewrite Z.eqb_refl
    | rewrite eqb_lxor_1_l
    | rewrite eqb_lxor_1_r
    | rewrite lxor_1_twice
    | match goal with
      | H : ?a <> ?b |- context [?a =? ?b] =>
          rewrite (proj2 (Z.eqb_neq a b) H)
      | H : ?b <> ?a |- context [?a =? ?b] =>
          rewrite (proj2 (Z.eqb_neq a b) (not_eq_sym H))
      end ].

Ltac kernel_eqs := cbn; repeat (kernel_eq; cbn).

(** X23. The first job of a miner, of period [p], leaves the slots in phase
    for [p]: the search launches from the slot that holds the kernel of [p],
    and the kernel of [p + 1] is compiled into the other one.  This needs the
    compile index to be the execute index with its lowest bit flipped when
    [workLoop] is entered, and the two compilations of the turn to succeed. *)
Theorem workLoop_first_job_in_phase (p execIx : Z) (r2 : compile_result) :
  0 <= p -> p + 1 < 2 ^ 64 ->
  exists st',
    workLoop_period p Compiles r2 Compiles (at_entry execIx (Z.lxor execIx 1)) = Ok st'
    /\ in_phase p st'.
Proof.
  intros Hp0 Hp1.
  assert (Hold : UINT64_MAX <> p) by (unfold UINT64_MAX; lia).
  unfold workLoop_period, at_entry. cbn. kernel_eqs.
  rewrite (wrap64_succ p Hp0 Hp1).
  eexists. split; [reflexivity|].
  unfold in_phase, exec_kernel, finished. cbn. kernel_eqs.
  repeat split.
Qed.

Lemma workLoop_first_job_in_phase_witness :
  exists st',
    workLoop_period 13 Compiles Compiles Compiles (at_entry 1 (Z.lxor 1 1)) = Ok st'
    /\ in_phase 13 st'.
Proof.
  apply (workLoop_first_job_in_phase 13 1 Compiles); lia.
Defined.

Ltac open_phase H :=
  match type of H with
  | _ _ ?st =>
      destruct st as [e c nx old k th lg];
      unfold in_phase, out_of_phase, exec_kernel, finished in H; cbn in H;
      destruct H as (Hold & Hnx & Hth & Hk0 & Hk1 & Hk2 & Hc);
      subst old nx th; cbn in Hk1, Hk2, Hc;
      apply lxor_1_swap in Hc; rewrite ?lxor_1_twice in Hc; subst c;
      rewrite ?Z.eqb_refl, ?eqb_lxor_1_l, ?eqb_lxor_1_r in Hk1, Hk2
  end.

(** X24. While the periods of the jobs stay the same or advance by one, the
    slots stay in phase: the slot the search launches from holds the kernel
    compiled for the period of the job, before and after the compilation
    under way has ended. *)
Theorem workLoop_next_period_in_phase (P p : Z) (r1 r2 : compile_result)
    (st : KernelState) :
  in_phase P st ->
  0 <= P -> p + 1 < 2 ^ 64 ->
  p = P \/ p = P + 1 ->
  exists st',
    workLoop_period p r1 r2 Compiles st = Ok st' /\ in_phase p st'.
Proof.
  intros Hin HP Hp Hstep.
  assert (Hnz : P + 1 <> 0) by lia.
  destruct Hstep as [->| ->].
  - exists st. split; [|exact Hin].
    open_phase Hin. unfold workLoop_period. cbn. kernel_eqs. reflexivity.
  - open_phase Hin.
    assert (Hne : P <> P + 1) by lia.
    unfold workLoop_period. cbn. kernel_eqs.
    rewrite (wrap64_succ (P + 1)) by lia.
    eexists. split; [reflexivity|].
    unfold in_phase, exec_kernel, finished. cbn. kernel_eqs.
    repeat split.
Qed.

Lemma workLoop_next_period_in_phase_witness :
  exists st',
    workLoop_period 14 Compiles Compiles Compiles in_period_13 = Ok st'
    /\ in_phase 14 st'.
Proof.
  apply (workLoop_next_period_in_phase 13 14 Compiles Compiles in_period_13).
  - vm_compute. repeat split.
  - lia.
  - lia.
  - right. reflexivity.
Defined.

(** X25. A job whose period is neither the current one nor the next one
    puts the slots out of phase: the kernel of the job's period is compiled
    into the slot the search does not launch from, and the slot it launches
    from holds the kernel of another period, before and after the
    compilation under way has ended. *)
Theorem workLoop_skipped_period_out_of_phase (P p : Z) (r1 : compile_result)
    (st : KernelState) :
  in_phase P st ->
  0 <= P -> 0 <= p -> p + 1 < 2 ^ 64 ->
  p <> P -> p <> P + 1 ->
  exists st',
    workLoop_period p r1 Compiles Compiles st = Ok st'
    /\ out_of_phase p st'
    /\ exec_kernel st' <> Some p
    /\ exec_kernel (finished st') <> Some p.
Proof.
  intros Hin HP Hp0 Hp1 Hne1 Hne2.
  assert (Hnz : P + 1 <> 0) by lia.
  open_phase Hin.
  unfold workLoop_period. cbn. kernel_eqs.
  rewrite (wrap64_succ p) by lia.
  eexists. split; [reflexivity|].
  unfold out_of_phase, exec_kernel, finished. cbn. kernel_eqs.
  repeat split; intros H; injection H; lia.
Qed.

Lemma workLoop_skipped_period_out_of_phase_witness :
  exists st',
    workLoop_period 20 Compiles Compiles Compiles in_period_13 = Ok st'
    /\ out_of_phase 20 st'
    /\ exec_kernel st' <> Some 20
    /\ exec_kernel (finished st') <> Some 20.
Proof.
  apply (workLoop_skipped_period_out_of_phase 13 20 Compiles in_period_13).
  - vm_compute. repeat split.
  - lia.
  - lia.
  - lia.
  - lia.
  - lia.
Defined.

(** X26. Once out of phase, the slots stay out of phase while the periods
    of the jobs stay the same or advance by one: for each such job the
    search launches from a slot that holds the kernel of the period before
    it, until the compilation under way replaces it with the kernel of the
    period after it. *)
Theorem workLoop_out_of_phase_persists (Q p : Z) (r1 r2 : compile_result)
    (st : KernelState) :
  out_of_phase Q st ->
  0 <= Q -> p + 1 < 2 ^ 64 ->
  p = Q \/ p = Q + 1 ->
  exists st',
    workLoop_period p r1 r2 Compiles st = Ok st' /\ out_of_phase p st'.
Proof.
  intros Hin HQ Hp Hstep.
  assert (Hnz : Q + 1 <> 0) by lia.
  destruct Hstep as [->| ->].
  - exists st. split; [|exact Hin].
    open_phase Hin. unfold workLoop_period. cbn. kernel_eqs. reflexivity.
  - open_phase Hin.
    assert (Hne : Q <> Q + 1) by lia.
    unfold workLoop_period. cbn. kernel_eqs.
    rewrite (wrap64_succ (Q + 1)) by lia.
    eexists. split; [reflexivity|].
    unfold out_of_phase, exec_kernel, finished. cbn. kernel_eqs.
    rewrite eqb_lxor_1_l in Hk2. rewrite Hk2.
    repeat split. intros H; injection H; lia.
Qed.

Lemma workLoop_out_of_phase_persists_witness :
  exists st',
    workLoop_period 21 Compiles Compiles Compiles in_period_20 = Ok st'
    /\ out_of_phase 21 st'.
Proof.
  apply (workLoop_out_of_phase_persists 20 21 Compiles Compiles in_period_20).
  - vm_compute. repeat split; discriminate.
  - lia.
  - lia.
  - right. reflexivity.
Defined.

(** X27. The compile thread is never joined twice and never replaced while
    it can still be joined: from a state whose thread, if any, has not been
    joined, the part of a turn that handles the period ends normally,
    whatever the period and however the compilations end, and leaves a
    thread that has not been joined. *)
Theorem workLoop_period_thread_safe (p : Z) (r1 r2 r3 : compile_result)
    (st : KernelState) :
  m_compileThread st <> Joined ->
  exists st',
    workLoop_period p r1 r2 r3 st = Ok st' /\ m_compileThread st' <> Joined.
Proof.
  intros Hth. destruct st as [e c nx old k th lg]. cbn in Hth.
  unfold workLoop_period.
  destruct th as [|r|]; [| |congruence];
    repeat (cbn;
            match goal with
            | |- context [negb ?b] => destruct b
            | |- context [if ?b then _ else _] => destruct b
            | |- context [asyncCompile ?r _] => destruct r
            end);
    cbn; eexists; (split; [reflexivity | cbn; discriminate]).
Qed.

Lemma workLoop_period_thread_safe_witness :
  exists st',
    workLoop_period 20 Throws_early Throws_late Compiles in_period_13 = Ok st'
    /\ m_compileThread st' <> Joined.
Proof.
  apply (workLoop_period_thread_safe 20 Throws_early Throws_late Compiles in_period_13).
  vm_compute. discriminate.
Defined.

End KernelSlots.
